(** * Dynamic BAC Estimator ([bac_app.py]): shallow embedding and properties

    The program is a Streamlit script.  Its computational core is two pure
    functions ([calculate_bac_value], [get_bac_status]), a derived sum over
    the drink list, and a handful of handlers that mutate the session
    state.  Python's [float] is IEEE-754 binary64, which is exactly Rocq's
    primitive [float]; the arithmetic below is therefore the program's own
    arithmetic, rounding included.  Python integers are [Z], exceptions are
    an explicit [result] type. *)

From stdpp Require Import base list.
From Stdlib Require Import ZArith Reals Lra Lia Floats String List Bool Permutation.

Set Warnings "-inexact-float".
Local Open Scope float_scope.

(** ** The Python fragment the script relies on *)

Module Py.

(** The two exceptions the modelled code can raise. *)
Inductive exn : Set :=
| ZeroDivisionError
| IndexError.

Inductive result (A : Type) : Type :=
| Ok (a : A)
| Raise (e : exn).
Arguments Ok {A} a.
Arguments Raise {A} e.

Definition bind {A B : Type} (r : result A) (k : A -> result B) : result B :=
  match r with
  | Ok a => k a
  | Raise e => Raise e
  end.

Definition returns {A : Type} (r : result A) : Prop :=
  exists a, r = Ok a.

(** Comparisons, written the way the source writes them. *)
Definition le (x y : float) : bool := (x <=? y).
Definition lt (x y : float) : bool := (x <? y).
Definition ge (x y : float) : bool := (y <=? x).
Definition gt (x y : float) : bool := (y <? x).

(** [x / y] on floats: division by either zero raises. *)
Definition truediv (x y : float) : result float :=
  if (y =? 0) then Raise ZeroDivisionError else Ok (x / y).

(** [max(a, b)]: the first argument is kept unless the second is
    strictly greater, so a NaN second argument is dropped. *)
Definition max (a b : float) : float :=
  if gt b a then b else a.

(** [min(a, b)]: the first argument is kept unless the second is
    strictly smaller. *)
Definition min (a b : float) : float :=
  if lt b a then b else a.

(** An index that fits the C type [Py_ssize_t] of a 64-bit build. *)
Definition fits_ssize_t (i : Z) : Prop :=
  (- 2 ^ 63 <= i < 2 ^ 63)%Z.

(** [list.pop(i)]: a negative index counts from the end; an index that
    is still out of range after that adjustment raises [IndexError].
    This is [list.pop] on the indices that satisfy [fits_ssize_t]; for
    the others CPython raises [OverflowError] when it converts the
    index, before it looks at the list. *)
Definition list_pop {A : Type} (l : list A) (i : Z) : result (A * list A) :=
  let n := Z.of_nat (length l) in
  let j := if (i <? 0)%Z then (i + n)%Z else i in
  if ((j <? 0) || (n <=? j))%Z then Raise IndexError
  else match l !! Z.to_nat j with
       | Some x => Ok (x, delete (Z.to_nat j) l)
       | None => Raise IndexError
       end.

(** C's [fmod] on binary64: the exact remainder [x - n * y], [n] being
    [x / y] truncated toward zero; it has the sign of [x]. *)
Definition SFfmod (x y : spec_float) : spec_float :=
  match x, y with
  | S754_nan, _ | _, S754_nan | S754_infinity _, _ | _, S754_zero _ => S754_nan
  | S754_zero _, _ => x
  | S754_finite _ _ _, S754_infinity _ => x
  | S754_finite sx mx ex, S754_finite _ my ey =>
      let e := Z.min ex ey in
      let r := ((Zpos mx * 2 ^ (ex - e)) mod (Zpos my * 2 ^ (ey - e)))%Z in
      match r with
      | Z0 => S754_zero sx
      | _ => binary_normalize prec emax (cond_Zopp sx r) e false
      end
  end.

Definition fmod (x y : float) : float :=
  SF2Prim (SFfmod (Prim2SF x) (Prim2SF y)).

(** [x % y] on floats: the remainder takes the sign of [y]. *)
Definition float_mod (x y : float) : result float :=
  if (y =? 0) then Raise ZeroDivisionError
  else
    let m := fmod x y in
    if (m =? 0) then Ok (if get_sign y then neg_zero else 0)
    else if xorb (y <? 0) (m <? 0) then Ok (m + y)
    else Ok m.

(** [int(x)] on a float truncates toward zero; [None] stands for the
    [ValueError] raised on NaN and the [OverflowError] raised on an
    infinity. *)
Definition int_of_float (x : float) : option Z :=
  match Prim2SF x with
  | S754_zero _ => Some 0%Z
  | S754_finite s m e => Some (cond_Zopp s (Z.shiftl (Zpos m) e))
  | S754_infinity _ | S754_nan => None
  end.

End Py.

Import Py.

Declare Scope py_scope.
Delimit Scope py_scope with py.
Notation "'let!' x ':=' c 'in' k" := (Py.bind c (fun x => k))
  (at level 10, x name, c at level 100, k at level 200) : py_scope.
Local Open Scope py_scope.

(** ** Constants (lines 6-10) *)

Definition MALE_R : float := 0.73.
Definition FEMALE_R : float := 0.66.
Definition WIDMARK_FACTOR : float := 5.14.
Definition METABOLISM_RATE_PER_HOUR : float := 0.015.
Definition REFRESH_INTERVAL_SECONDS : Z := 10.

(** ** The formula engine (lines 13-24) *)

Definition calculate_bac_value
  (total_alcohol_oz weight_lbs r_value food_factor current_elapsed_hours : float)
  : result float :=
  if Py.le total_alcohol_oz 0 then Ok 0
  else
    let! q := Py.truediv (total_alcohol_oz * WIDMARK_FACTOR) (weight_lbs * r_value) in
    let peak_bac := q * food_factor in
    let current_bac := peak_bac - METABOLISM_RATE_PER_HOUR * current_elapsed_hours in
    Ok (Py.max 0 current_bac).

(** ** The status classifier (lines 26-35) *)

Definition get_bac_status (bac : float) : string * string * string :=
  if Py.ge bac 0.08 then
    ("Legal Limit Exceeded - DO NOT DRIVE!", "danger", "🚨")%string
  else if Py.ge bac 0.05 then
    ("Impaired - Avoid risky activities!", "warning", "⚠️")%string
  else if Py.gt bac 0 then
    ("Some effects present - Drink responsibly.", "info", "✅")%string
  else
    ("Sober - Enjoy responsibly!", "success", "🧘")%string.

(** How the script dispatches on the colour it gets back (lines 200-210 and
    226-233): the four display calls are the four severities. *)
Inductive severity : Set := Danger | Warning | Info | Success.

Definition severity_of_color (color : string) : severity :=
  if String.eqb color "danger" then Danger
  else if String.eqb color "warning" then Warning
  else if String.eqb color "info" then Info
  else Success.

Definition status_message (s : string * string * string) : string := fst (fst s).
Definition status_color (s : string * string * string) : string := snd (fst s).
Definition status_severity (s : string * string * string) : severity :=
  severity_of_color (status_color s).

(** The severities in increasing order of gravity. *)
Definition severity_rank (s : severity) : nat :=
  match s with Success => 0 | Info => 1 | Warning => 2 | Danger => 3 end.

(** ** Session state (lines 38-47) *)

Record drink : Set := Drink { volume : float; abv : float }.

(** A [datetime] is read as the number of microseconds on the naive local
    clock; a [timedelta] is then a difference of two such numbers. *)
Definition datetime : Set := Z.

(** [datetime.max - datetime.min] in microseconds: no difference of two
    [datetime] values is larger. *)
Definition max_datetime_span : Z := 315537897599999999.

Record session_state : Set := SessionState {
  drinks : list drink;
  start_monitoring : bool;
  monitoring_start_time : option datetime;
  first_drink_offset_hours : float;
  last_calculated_bac_time : option datetime
}.

(** The state after the five [if key not in st.session_state] blocks have
    run on a fresh session. *)
Definition initial_state : session_state :=
  {| drinks := [];
     start_monitoring := false;
     monitoring_start_time := None;
     first_drink_offset_hours := 0;
     last_calculated_bac_time := None |}.

Definition set_drinks (l : list drink) (st : session_state) : session_state :=
  {| drinks := l;
     start_monitoring := start_monitoring st;
     monitoring_start_time := monitoring_start_time st;
     first_drink_offset_hours := first_drink_offset_hours st;
     last_calculated_bac_time := last_calculated_bac_time st |}.

(** Line 89: the sidebar input is assigned on every run of the script. *)
Definition set_first_drink_offset_hours (h : float) (st : session_state)
  : session_state :=
  {| drinks := drinks st;
     start_monitoring := start_monitoring st;
     monitoring_start_time := monitoring_start_time st;
     first_drink_offset_hours := h;
     last_calculated_bac_time := last_calculated_bac_time st |}.

(** ** Drink list operations (lines 100-131) *)

Definition add_drink_callback (st : session_state) : session_state :=
  set_drinks (drinks st ++ [Drink 0 0]) st.

Definition remove_drink_callback (index : Z) (st : session_state)
  : result session_state :=
  if (index <? Z.of_nat (length (drinks st)))%Z then
    let! popped := Py.list_pop (drinks st) index in
    Ok (set_drinks (snd popped) st)
  else Ok st.

(** Lines 115 and 124: [drinks[i]["volume"] = v] and [drinks[i]["abv"] = v];
    [i] comes from [enumerate], an index past the end would raise. *)
Definition set_drink_volume (i : nat) (v : float) (st : session_state)
  : result session_state :=
  match drinks st !! i with
  | Some d => Ok (set_drinks (<[i := Drink v (abv d)]> (drinks st)) st)
  | None => Raise IndexError
  end.

Definition set_drink_abv (i : nat) (v : float) (st : session_state)
  : result session_state :=
  match drinks st !! i with
  | Some d => Ok (set_drinks (<[i := Drink (volume d) v]> (drinks st)) st)
  | None => Raise IndexError
  end.

(** Lines 111-131: one pass over the drink list.  [vol i] and [abv_in i]
    are what the number inputs keyed [vol_i] and [abv_i] return. *)
Fixpoint edit_drinks_from (i n : nat) (vol abv_in : nat -> float) (st : session_state)
  : result session_state :=
  match n with
  | O => Ok st
  | S n' =>
      let! st1 := set_drink_volume i (vol i) st in
      let! st2 := set_drink_abv i (abv_in i) st1 in
      edit_drinks_from (S i) n' vol abv_in st2
  end.

Definition edit_drinks (vol abv_in : nat -> float) (st : session_state)
  : result session_state :=
  edit_drinks_from 0 (length (drinks st)) vol abv_in st.

(** ** Total alcohol (line 142)

    [sum] starts from the integer [0]; adding the first float to it is the
    float addition [0.0 + x].  What happens next depends on the
    interpreter: up to CPython 3.11 the remaining items are added left to
    right; from CPython 3.12 on, [sum] runs Neumaier's compensated
    summation over the remaining floats and adds the compensation at the
    end when it is finite and not zero. *)

Inductive cpython : Set := Before312 | From312.

Definition sum_plain (xs : list float) : float :=
  fold_left PrimFloat.add xs 0.

Definition neumaier_step (fc : float * float) (x : float) : float * float :=
  let '(f, c) := fc in
  let t := f + x in
  let c' := if Py.ge (abs f) (abs x) then c + ((f - t) + x)
            else c + ((x - t) + f) in
  (t, c').

Definition sum_compensated (xs : list float) : float :=
  match xs with
  | [] => 0
  | x :: rest =>
      let '(f, c) := fold_left neumaier_step rest (0 + x, 0) in
      if negb (c =? 0) && is_finite c then f + c else f
  end.

Definition py_sum (v : cpython) (xs : list float) : float :=
  match v with
  | Before312 => sum_plain xs
  | From312 => sum_compensated xs
  end.

Definition alcohol_oz (d : drink) : float := volume d * (abv d / 100).

Definition total_alcohol_oz (v : cpython) (ds : list drink) : float :=
  py_sum v (map alcohol_oz ds).

(** ** Start and stop (lines 149-161) *)

Definition start_disabled (v : cpython) (st : session_state) : bool :=
  (total_alcohol_oz v (drinks st) =? 0) || start_monitoring st.

Definition stop_disabled (st : session_state) : bool :=
  negb (start_monitoring st).

(** The body under the Start button; [datetime.now()] is read twice. *)
Definition on_start (now1 now2 : datetime) (st : session_state) : session_state :=
  {| drinks := drinks st;
     start_monitoring := true;
     monitoring_start_time := Some now1;
     first_drink_offset_hours := first_drink_offset_hours st;
     last_calculated_bac_time := Some now2 |}.

(** The body under the Stop button. *)
Definition on_stop (st : session_state) : session_state :=
  {| drinks := drinks st;
     start_monitoring := false;
     monitoring_start_time := None;
     first_drink_offset_hours := first_drink_offset_hours st;
     last_calculated_bac_time := None |}.

(** A button that is drawn disabled cannot be pressed. *)
Definition press_start (v : cpython) (now1 now2 : datetime) (st : session_state)
  : session_state :=
  if start_disabled v st then st else on_start now1 now2 st.

Definition press_stop (st : session_state) : session_state :=
  if stop_disabled st then st else on_stop st.

(** ** Elapsed time (lines 172-176)

    [timedelta.total_seconds()] is the integer number of microseconds
    divided by [10**6], correctly rounded. *)
Definition total_seconds (us : Z) : float :=
  match us with
  | Z0 => 0
  | _ =>
      let '(q, e, l) := SFdiv_core_binary prec emax (Z.abs us) 0 1000000 0 in
      SF2Prim (binary_round_aux prec emax (us <? 0)%Z q e l)
  end.

Definition time_since_monitor_start (current_time start : datetime) : float :=
  total_seconds (current_time - start).

Definition total_elapsed_hours (current_time : datetime) (st : session_state)
  : option float :=
  match monitoring_start_time st with
  | Some start =>
      Some (first_drink_offset_hours st
            + time_since_monitor_start current_time start / 3600)
  | None => None
  end.

(** Every way the user can change the session state. *)
Inductive action : Set :=
| AddDrink
| RemoveDrink (index : Z)
| SetVolume (i : nat) (v : float)
| SetAbv (i : nat) (v : float)
| SetOffset (h : float)
| PressStart (now1 now2 : datetime)
| PressStop.

Definition perform (v : cpython) (a : action) (st : session_state)
  : result session_state :=
  match a with
  | AddDrink => Ok (add_drink_callback st)
  | RemoveDrink index => remove_drink_callback index st
  | SetVolume i x => set_drink_volume i x st
  | SetAbv i x => set_drink_abv i x st
  | SetOffset h => Ok (set_first_drink_offset_hours h st)
  | PressStart now1 now2 => Ok (press_start v now1 now2 st)
  | PressStop => Ok (press_stop st)
  end.

(** A session: the actions of the user, one after the other. *)
Fixpoint run (v : cpython) (acts : list action) (st : session_state)
  : result session_state :=
  match acts with
  | [] => Ok st
  | a :: rest => let! st' := perform v a st in run v rest st'
  end.

(** The monitoring invariant of the data model. *)
Definition monitoring_inv (st : session_state) : Prop :=
  monitoring_start_time st <> None <-> start_monitoring st = true.

(** ** The monitoring loop and the idle snapshot (lines 169-233) *)

(** One pass of the loop body: elapsed time, estimate and status. *)
Definition monitoring_tick (current_time : datetime)
  (total weight_lbs r food_factor : float) (st : session_state)
  : option (result (float * (string * string * string))) :=
  match total_elapsed_hours current_time st with
  | Some hours =>
      Some (let! bac := calculate_bac_value total weight_lbs r food_factor hours in
            Ok (bac, get_bac_status bac))
  | None => None
  end.

(** What the script shows when monitoring is off. *)
Definition idle_snapshot (total weight_lbs r food_factor : float) (st : session_state)
  : option (result (float * (string * string * string))) :=
  if Py.gt total 0 then
    Some (let! bac := calculate_bac_value total weight_lbs r food_factor
                        (first_drink_offset_hours st) in
          Ok (bac, get_bac_status bac))
  else None.

(** ** What the page displays (lines 183-210 and 224-233) *)

(** The colour of the BAC figure (lines 184 and 225). *)
Definition bac_color (bac : float) : string :=
  if Py.ge bac 0.08 then "red"
  else if Py.ge bac 0.05 then "orange"
  else "green".

(** Line 188: the value handed to [st.progress]. *)
Definition gauge_value (current_bac : float) : result float :=
  let! q := Py.truediv current_bac 0.20 in
  Ok (Py.min q 1).

(** Line 196: the three numbers of the clock,
    [int(h)], [int((h * 60) % 60)] and [int((h * 3600) % 60)]; [None]
    when one of the conversions raises. *)
Definition clock_fields (total_elapsed_hours : float) : option (Z * Z * Z) :=
  match Py.int_of_float total_elapsed_hours with
  | None => None
  | Some hours =>
      match Py.float_mod (total_elapsed_hours * 60) 60 with
      | Raise _ => None
      | Ok m =>
          match Py.int_of_float m with
          | None => None
          | Some minutes =>
              match Py.float_mod (total_elapsed_hours * 3600) 60 with
              | Raise _ => None
              | Ok s =>
                  match Py.int_of_float s with
                  | None => None
                  | Some seconds => Some (hours, minutes, seconds)
                  end
              end
          end
      end
  end.

(** What the status placeholder is filled with. *)
Inductive element : Set :=
| St_error (body : string)
| St_warning (body : string)
| St_info (body : string)
| St_success (body : string)
| St_image (url caption : string) (width : Z).

(** Lines 199-210, inside the monitoring loop. *)
Definition monitoring_status_panel (current_bac : float) : list element :=
  let '(message, color, icon) := get_bac_status current_bac in
  let body := (icon ++ " " ++ message)%string in
  if String.eqb color "danger" then
    St_error body ::
      (if Py.ge current_bac 0.08
       then [St_image "https://i.imgur.com/rN9e9G8.png" "Do Not Drive!" 150]
       else [])
  else if String.eqb color "warning" then
    [St_warning body; St_image "https://i.imgur.com/gK2g0Z2.png" "Impaired" 150]
  else if String.eqb color "info" then [St_info body]
  else [St_success body].

(** Lines 224-233, when monitoring is off. *)
Definition idle_status_panel (initial_bac_estimate : float) : list element :=
  let '(message, color, icon) := get_bac_status initial_bac_estimate in
  let body := (icon ++ " " ++ message)%string in
  if String.eqb color "danger" then [St_error body]
  else if String.eqb color "warning" then [St_warning body]
  else if String.eqb color "info" then [St_info body]
  else [St_success body].

Definition is_image (x : element) : bool :=
  match x with St_image _ _ _ => true | _ => false end.

(** ** One run of the script below the inputs (lines 169-233) *)

Record monitoring_view : Set := MonitoringView {
  view_bac : float;
  view_color : string;
  view_gauge : float;
  view_clock : Z * Z * Z;
  view_status : list element
}.

Inductive page : Set :=
| Monitoring (view : monitoring_view)
| Idle (estimate : option (float * string * list element)).

(** What one run of the script displays; [None] when the run is aborted
    by an exception. *)
Definition render (current_time : datetime)
  (total weight_lbs r food_factor : float) (st : session_state) : option page :=
  if start_monitoring st
     && match monitoring_start_time st with Some _ => true | None => false end
  then
    match total_elapsed_hours current_time st with
    | None => None
    | Some hours =>
        match calculate_bac_value total weight_lbs r food_factor hours with
        | Raise _ => None
        | Ok current_bac =>
            match gauge_value current_bac with
            | Raise _ => None
            | Ok gauge =>
                match clock_fields hours with
                | None => None
                | Some clock =>
                    Some (Monitoring
                            {| view_bac := current_bac;
                               view_color := bac_color current_bac;
                               view_gauge := gauge;
                               view_clock := clock;
                               view_status := monitoring_status_panel current_bac |})
                end
            end
        end
    end
  else if Py.gt total 0 then
    match calculate_bac_value total weight_lbs r food_factor
            (first_drink_offset_hours st) with
    | Raise _ => None
    | Ok initial_bac_estimate =>
        Some (Idle (Some (initial_bac_estimate, bac_color initial_bac_estimate,
                          idle_status_panel initial_bac_estimate)))
    end
  else Some (Idle None).

(** ** Input ranges enforced by the sidebar (lines 69-86) *)

(** Line 69. *)
Definition r_of_gender (gender : string) : float :=
  if String.eqb gender "Male" then MALE_R else FEMALE_R.

(** Line 86. *)
Definition food_factor_of (food : string) : float :=
  if String.eqb food "Empty Stomach" then 1
  else if String.eqb food "Light Meal" then 0.8
  else 0.5.

Definition valid_weight (w : float) : Prop :=
  Py.le 50 w = true /\ Py.le w 500 = true.

Definition valid_r_value (r : float) : Prop :=
  r = MALE_R \/ r = FEMALE_R.

Definition valid_food_factor (f : float) : Prop :=
  f = 1 \/ f = 0.8 \/ f = 0.5.

(** Lines 89-96: the bounds of the offset input. *)
Definition valid_offset (h : float) : Prop :=
  Py.le 0 h = true /\ Py.le h 24 = true.

(** Lines 115-131: the bounds of the two number inputs of a drink. *)
Definition valid_volume (x : float) : Prop :=
  Py.le 0 x = true /\ Py.le x 40 = true.

Definition valid_abv (x : float) : Prop :=
  Py.le 0 x = true /\ Py.le x 100 = true.

Definition valid_drink (d : drink) : Prop :=
  valid_volume (volume d) /\ valid_abv (abv d).

(** ** The specification's wording, for comparison *)

(** Section 4.1 of the specification, every operation read as the IEEE
    operation on binary64. *)
Definition compute_bac_spec
  (total_alcohol_oz weight_lbs r_value food_factor elapsed_hours : float) : float :=
  if Py.le total_alcohol_oz 0 then 0
  else
    let peak := total_alcohol_oz * 5.14 / (weight_lbs * r_value) * food_factor in
    let bac := peak - 0.015 * elapsed_hours in
    Py.max 0 bac.

(** Section 4.2 of the specification: the four rows of the threshold
    table, each with its condition. *)
Definition classify_rows (bac : float) : list (bool * (severity * string)) :=
  [ (Py.ge bac 0.08, (Danger, "Legal Limit Exceeded - DO NOT DRIVE!"%string));
    (Py.le 0.05 bac && Py.lt bac 0.08, (Warning, "Impaired - Avoid risky activities!"%string));
    (Py.lt 0 bac && Py.lt bac 0.05, (Info, "Some effects present - Drink responsibly."%string));
    (bac =? 0, (Success, "Sober - Enjoy responsibly!"%string)) ].

Definition matching_rows (bac : float) : list (severity * string) :=
  map snd (List.filter fst (classify_rows bac)).

(** Section 3 of the specification: the sum of [volume * abv / 100],
    here with the product taken first. *)
Definition alcohol_oz_product_first (d : drink) : float := volume d * abv d / 100.

(** A float that is positive and finite. *)
Definition pos_finite (c : float) : Prop :=
  exists m e, Prim2SF c = S754_finite false m e.

(** ** Binary64 rounding: definitions

    The primitive operations are specified by the Standard Library through
    [Prim2SF] and the functions of [SpecFloat].  To reason about the order
    of computed results, a float is related to the real number it
    approximates. *)

Local Open Scope R_scope.

Definition bpow (e : Z) : R := powerRZ 2 e.

(** located records *)
Definition loc_ok (m e : Z) (r s : bool) (v : R) : Prop :=
  match r, s with
  | false, false => v = IZR m * bpow e
  | false, true => IZR m * bpow e < v < (IZR m + /2) * bpow e
  | true, false => v = (IZR m + /2) * bpow e
  | true, true => (IZR m + /2) * bpow e < v < (IZR m + 1) * bpow e
  end.

Definition rec_at (mrs : shr_record) (e : Z) (v : R) : Prop :=
  (0 <= shr_m mrs)%Z /\ loc_ok (shr_m mrs) e (shr_r mrs) (shr_s mrs) v.

Abbreviation fexp64 := (fexp prec emax).

Definition located (m e : Z) (l : location) (v : R) : Prop :=
  rec_at (shr_record_of_loc m l) e v.

Definition round_core (m e : Z) (l : location) : Z * Z :=
  let '(mrs', e') := shr_fexp prec emax m e l in
  let '(mrs'', e'') :=
    shr_fexp prec emax
      (round_nearest_even (shr_m mrs') (loc_of_shr_record mrs')) e' loc_Exact in
  (shr_m mrs'', e'').

Definition SFout (s : bool) (p : Z * Z) : spec_float :=
  match fst p with
  | Z0 => S754_zero s
  | Zpos m => if Z.leb (snd p) (emax - prec) then S754_finite s m (snd p)
              else S754_infinity s
  | Zneg _ => S754_nan
  end.

(** [M] at exponent [E] is the nearest-even rounding of [v] on the grid
    of its canonical exponent. *)
Definition rounded_as (v : R) (M E : Z) : Prop :=
  exists mrs,
    rec_at mrs E v /\
    M = round_nearest_even (shr_m mrs) (loc_of_shr_record mrs) /\
    (-1074 <= E)%Z /\
    v < bpow (E + 53) /\
    ((-1074 < E)%Z -> bpow (E + 52) <= v).

Definition normalized (M E : Z) : Z * Z :=
  if (M =? 2 ^ 53)%Z then ((2 ^ 52)%Z, (E + 1)%Z) else (M, E).

Definition pair_le (p1 p2 : Z * Z) : Prop :=
  (0 <= fst p1)%Z /\ (0 <= fst p2)%Z /\
  (((snd p1 < snd p2)%Z /\ (0 < fst p2)%Z) \/
   (snd p1 = snd p2 /\ (fst p1 <= fst p2)%Z)).

Abbreviation bra := (binary_round_aux prec emax).

Inductive rounds_to : R -> spec_float -> Prop :=
| RT_pos m e l v :
    located m e l v -> (e <= fexp64 (Zdigits2 m + e))%Z ->
    rounds_to v (bra false m e l)
| RT_neg m e l v :
    located m e l v -> (e <= fexp64 (Zdigits2 m + e))%Z ->
    rounds_to (- v) (bra true m e l).

Definition is_fin (x : spec_float) : bool :=
  match x with
  | S754_zero _ | S754_finite _ _ _ => true
  | _ => false
  end.

Definition SF2R (x : spec_float) : R :=
  match x with
  | S754_finite s m e => (if s then - (IZR (Zpos m) * bpow e) else IZR (Zpos m) * bpow e)
  | _ => 0
  end.

Abbreviation valid64 := (SpecFloat.valid_binary prec emax).

(** A non-negative numerator divided by a larger positive finite
    denominator gives a smaller quotient. *)
Definition SFnonneg (a : spec_float) : bool :=
  match a with
  | S754_zero _ | S754_finite false _ _ | S754_infinity false => true
  | _ => false
  end.

(** Clamping at zero, as [max(0.0, d)] does. *)
Definition SFclamp (d : spec_float) : spec_float :=
  if SFltb (S754_zero false) d then d else S754_zero false.

Local Close Scope R_scope.

(** ** Auxiliary definitions used in the statements *)

(** What it means for [l'] to be [l] with position [k] removed. *)
Definition removed_at {A} (k : nat) (l l' : list A) : Prop :=
  (k < length l)%nat /\
  length l' = (length l - 1)%nat /\
  (forall j, (j < k)%nat -> l' !! j = l !! j) /\
  (forall j, (k <= j)%nat -> l' !! j = l !! S j).

Definition two_drinks : session_state :=
  set_drinks [Drink 12 5; Drink 1.5 40] initial_state.

Abbreviation SF_008 := (S754_finite false 5764607523034235 (-56)).
Abbreviation SF_005 := (S754_finite false 7205759403792794 (-57)).
Abbreviation SF_60 := (S754_finite false 8444249301319680 (-47)).

Abbreviation SFz := (S754_zero false).

Definition SFsum2 (a b : spec_float) : spec_float := SF64add (SF64add SFz a) b.

Definition SFcomp2 (a b : spec_float) : spec_float :=
  let f := SF64add SFz a in
  let t := SF64add f b in
  if SFleb (SFabs b) (SFabs f) then SF64add SFz (SF64add (SF64sub f t) b)
  else SF64add SFz (SF64add (SF64sub b t) f).

Definition three_drinks : list drink := [Drink 1 10; Drink 1 20; Drink 1 30].

Definition four_drinks : list drink :=
  [Drink 1 100; Drink 0x1p-53 100; Drink 0x1.8p-107 100; Drink 0x1.8p-107 100].

(** * Properties *)

Section Rounding.
Local Open Scope R_scope.

Lemma bpow_gt_0 e : 0 < bpow e.
Proof. apply powerRZ_lt; lra. Qed.

Lemma bpow_add a b : bpow (a + b) = bpow a * bpow b.
Proof. apply powerRZ_add; lra. Qed.

Lemma bpow_0 : bpow 0 = 1.
Proof. reflexivity. Qed.

Lemma bpow_1 : bpow 1 = 2.
Proof. unfold bpow. simpl. lra. Qed.

Lemma bpow_succ e : bpow (e + 1) = 2 * bpow e.
Proof. rewrite bpow_add, bpow_1. lra. Qed.

Lemma bpow_le a b : (a <= b)%Z -> bpow a <= bpow b.
Proof.
  intros H. replace b with (a + (b - a))%Z by lia.
  rewrite bpow_add.
  assert (1 <= bpow (b - a)).
  { destruct (b - a)%Z as [|p|p] eqn:E; try lia.
    - rewrite bpow_0; lra.
    - unfold bpow. simpl. apply pow_R1_Rle. lra. }
  pose proof (bpow_gt_0 a). nra.
Qed.

Lemma bpow_lt a b : (a < b)%Z -> bpow a < bpow b.
Proof.
  intros H.
  pose proof (bpow_le (a+1) b ltac:(lia)).
  rewrite bpow_succ in H0. pose proof (bpow_gt_0 a). lra.
Qed.

Lemma bpow_lt_inv a b : bpow a < bpow b -> (a < b)%Z.
Proof.
  intros H. destruct (Z_lt_le_dec a b) as [|L]; [assumption|].
  apply bpow_le in L. lra.
Qed.

Lemma bpow_IZR e : (0 <= e)%Z -> bpow e = IZR (2 ^ e).
Proof.
  intros H. unfold bpow. destruct e as [|p|p]; try lia.
  - reflexivity.
  - rewrite <- (positive_nat_Z p). rewrite <- pow_IZR.
    rewrite <- pow_powerRZ. reflexivity.
Qed.

(** digits *)
Lemma digits2_pos_bounds p :
  (2 ^ (Zpos (digits2_pos p) - 1) <= Zpos p < 2 ^ Zpos (digits2_pos p))%Z.
Proof.
  induction p as [p IH|p IH|]; simpl digits2_pos.
  - rewrite Pos2Z.inj_succ.
    replace (Z.succ (Zpos (digits2_pos p)) - 1)%Z with (Zpos (digits2_pos p) - 1 + 1)%Z by lia.
    rewrite Z.pow_succ_r by lia. rewrite Z.pow_add_r by lia.
    change (2 ^ 1)%Z with 2%Z. lia.
  - rewrite Pos2Z.inj_succ.
    replace (Z.succ (Zpos (digits2_pos p)) - 1)%Z with (Zpos (digits2_pos p) - 1 + 1)%Z by lia.
    rewrite Z.pow_succ_r by lia. rewrite Z.pow_add_r by lia.
    change (2 ^ 1)%Z with 2%Z. lia.
  - simpl. lia.
Qed.

Lemma Zdigits2_bounds m :
  (0 < m)%Z -> (2 ^ (Zdigits2 m - 1) <= m < 2 ^ Zdigits2 m)%Z /\ (0 < Zdigits2 m)%Z.
Proof.
  destruct m as [|p|p]; try lia. intros _. simpl. split; [apply digits2_pos_bounds|lia].
Qed.

Lemma Zdigits2_unique m d :
  (2 ^ (d - 1) <= m < 2 ^ d)%Z -> (0 < d)%Z -> Zdigits2 m = d.
Proof.
  intros H Hd.
  assert (0 < m)%Z by (pose proof (Z.pow_pos_nonneg 2 (d-1) ltac:(lia) ltac:(lia)); lia).
  destruct (Zdigits2_bounds m H0) as [B P].
  destruct (Z.lt_trichotomy (Zdigits2 m) d) as [L|[L|L]]; [|assumption|]; exfalso.
  - assert (2 ^ Zdigits2 m <= 2 ^ (d - 1))%Z by (apply Z.pow_le_mono_r; lia). lia.
  - assert (2 ^ d <= 2 ^ (Zdigits2 m - 1))%Z by (apply Z.pow_le_mono_r; lia). lia.
Qed.

Lemma Zdigits2_bpow m e :
  (0 < m)%Z -> bpow (Zdigits2 m + e - 1) <= IZR m * bpow e /\ IZR (m + 1) * bpow e <= bpow (Zdigits2 m + e).
Proof.
  intros H. destruct (Zdigits2_bounds m H) as [[B1 B2] P].
  replace (Zdigits2 m + e - 1)%Z with ((Zdigits2 m - 1) + e)%Z by lia.
  rewrite !bpow_add.
  rewrite (bpow_IZR (Zdigits2 m - 1)), (bpow_IZR (Zdigits2 m)) by lia.
  pose proof (bpow_gt_0 e).
  split; apply Rmult_le_compat_r; try lra; apply IZR_le; lia.
Qed.

Lemma rec_at_bounds mrs e v :
  rec_at mrs e v -> IZR (shr_m mrs) * bpow e <= v < (IZR (shr_m mrs) + 1) * bpow e.
Proof.
  destruct mrs as [m r s]. unfold rec_at, loc_ok. simpl.
  pose proof (bpow_gt_0 e). intros [_ H0].
  destruct r, s; nra.
Qed.

Lemma shr_1_rec_at mrs e v : rec_at mrs e v -> rec_at (shr_1 mrs) (e + 1) v.
Proof.
  destruct mrs as [m r s]. unfold rec_at, loc_ok. simpl shr_m. simpl shr_r. simpl shr_s.
  intros [Hm H]. rewrite bpow_succ. pose proof (bpow_gt_0 e) as Hb.
  destruct m as [|[p|p|]|p]; try lia; simpl shr_1; cbn [shr_m shr_r shr_s];
    (split; [lia|]);
    try rewrite (Pos2Z.inj_xI p) in H; try rewrite (Pos2Z.inj_xO p) in H;
    try rewrite plus_IZR in H; try rewrite mult_IZR in H;
    destruct r, s; cbn [orb]; nra.
Qed.

Lemma iter_shr_1_rec_at p : forall mrs e v,
  rec_at mrs e v -> rec_at (iter_pos shr_1 p mrs) (e + Zpos p) v.
Proof.
  induction p as [p IH|p IH|]; intros mrs e v H; simpl iter_pos.
  - replace (e + Zpos p~1)%Z with (e + 1 + Zpos p + Zpos p)%Z by lia.
    apply IH, IH, shr_1_rec_at, H.
  - replace (e + Zpos p~0)%Z with (e + Zpos p + Zpos p)%Z by lia.
    apply IH, IH, H.
  - apply shr_1_rec_at, H.
Qed.

Lemma fexp64_eq e : fexp64 e = Z.max (e - 53) (-1074).
Proof. reflexivity. Qed.

Lemma loc_of_shr_record_of_loc m l :
  loc_of_shr_record (shr_record_of_loc m l) = l.
Proof. destruct l as [|[ | | ]]; reflexivity. Qed.

Lemma shr_m_record_of_loc m l : shr_m (shr_record_of_loc m l) = m.
Proof. destruct l as [|[ | | ]]; reflexivity. Qed.

(** First alignment: the record sits at the canonical exponent of [v]. *)
Lemma shr_fexp_spec m e l v :
  located m e l v ->
  (e <= fexp64 (Zdigits2 m + e))%Z ->
  exists mrs E,
    shr_fexp prec emax m e l = (mrs, E) /\
    rec_at mrs E v /\
    (-1074 <= E)%Z /\
    v < bpow (E + 53) /\
    ((-1074 < E)%Z -> bpow (E + 52) <= v).
Proof.
  intros L Hpre.
  assert (Hm : (0 <= m)%Z).
  { destruct L as [Hm _]. now rewrite shr_m_record_of_loc in Hm. }
  pose proof (rec_at_bounds _ _ _ L) as B. rewrite shr_m_record_of_loc in B.
  set (E := fexp64 (Zdigits2 m + e)) in *.
  assert (HS : exists mrs, shr_fexp prec emax m e l = (mrs, E) /\ rec_at mrs E v).
  { unfold shr_fexp. fold E. unfold shr.
    destruct (E - e)%Z as [|p|p] eqn:D; try lia.
    - exists (shr_record_of_loc m l). split; [f_equal; lia|].
      replace E with e by lia. exact L.
    - exists (iter_pos shr_1 p (shr_record_of_loc m l)). split; [f_equal; lia|].
      replace E with (e + Zpos p)%Z by lia.
      apply iter_shr_1_rec_at. exact L. }
  destruct HS as [mrs [HS1 HS2]].
  exists mrs, E. split; [exact HS1|]. split; [exact HS2|].
  unfold E in *. rewrite fexp64_eq in *.
  destruct (Z.eq_dec m 0) as [->|Hnz].
  - simpl Zdigits2 in *. simpl in B.
    assert (bpow e <= bpow (Z.max (0 + e - 53) (-1074) + 53)) by (apply bpow_le; lia).
    split; [lia|]. split; [lra|]. intros; lia.
  - destruct (Zdigits2_bpow m e ltac:(lia)) as [D1 D2].
    destruct (Zdigits2_bounds m ltac:(lia)) as [_ Dp].
    rewrite plus_IZR in D2.
    split; [lia|]. split.
    + assert (bpow (Zdigits2 m + e) <= bpow (Z.max (Zdigits2 m + e - 53) (-1074) + 53))
        by (apply bpow_le; lia). lra.
    + intros HE.
      replace (Z.max (Zdigits2 m + e - 53) (-1074) + 52)%Z with (Zdigits2 m + e - 1)%Z by lia.
      lra.
Qed.

Lemma binary_round_aux_out s m e l :
  binary_round_aux prec emax s m e l = SFout s (round_core m e l).
Proof.
  unfold binary_round_aux, round_core, SFout.
  destruct (shr_fexp prec emax m e l) as [mrs' e'].
  destruct (shr_fexp prec emax _ e' loc_Exact) as [mrs'' e''].
  reflexivity.
Qed.

Lemma rne_bounds m l :
  (m <= round_nearest_even m l <= m + 1)%Z.
Proof.
  destruct l as [|[ | | ]]; simpl; try lia. destruct (Z.even m); lia.
Qed.

Lemma IZR_mul_bpow_lt a b e : IZR a * bpow e < IZR b * bpow e -> (a < b)%Z.
Proof.
  intros H. apply lt_IZR. pose proof (bpow_gt_0 e). nra.
Qed.

Lemma rounded_as_bounds v M E :
  rounded_as v M E ->
  (0 <= M <= 2 ^ 53)%Z /\ ((-1074 < E)%Z -> (2 ^ 52 <= M)%Z).
Proof.
  intros (mrs & R & -> & HE & Hup & Hlo).
  pose proof (rec_at_bounds _ _ _ R) as B. destruct R as [Hm _].
  pose proof (rne_bounds (shr_m mrs) (loc_of_shr_record mrs)) as RB.
  assert (shr_m mrs < 2 ^ 53)%Z.
  { apply (IZR_mul_bpow_lt _ _ E). rewrite <- bpow_IZR by lia.
    rewrite <- bpow_add. replace (53 + E)%Z with (E + 53)%Z by lia. lra. }
  split; [lia|]. intros HE'. specialize (Hlo HE').
  assert (2 ^ 52 < shr_m mrs + 1)%Z.
  { apply (IZR_mul_bpow_lt _ _ E). rewrite <- bpow_IZR by lia.
    rewrite <- bpow_add. replace (52 + E)%Z with (E + 52)%Z by lia.
    rewrite plus_IZR. lra. }
  lia.
Qed.

Lemma normalize_spec M E :
  (0 <= M <= 2 ^ 53)%Z -> (-1074 <= E)%Z -> ((-1074 < E)%Z -> (2 ^ 52 <= M)%Z) ->
  exists mrs, shr_fexp prec emax M E loc_Exact = (mrs, snd (normalized M E))
              /\ shr_m mrs = fst (normalized M E).
Proof.
  intros HM HE Hn. unfold normalized.
  destruct (Z.eqb_spec M (2 ^ 53)) as [->|Hne].
  - exists (Build_shr_record (2 ^ 52) false false). split; [|reflexivity].
    unfold shr_fexp. change (Zdigits2 (2 ^ 53)) with 54%Z.
    rewrite fexp64_eq. replace (Z.max (54 + E - 53) (-1074) - E)%Z with 1%Z by lia.
    reflexivity.
  - exists (Build_shr_record M false false). split; [|reflexivity].
    unfold shr_fexp. rewrite fexp64_eq.
    assert (Z.max (Zdigits2 M + E - 53) (-1074) - E = 0)%Z as ->; [|reflexivity].
    destruct (Z.eq_dec M 0) as [->|Hnz].
    + simpl Zdigits2. destruct (Z.eq_dec E (-1074)); [lia|].
      specialize (Hn ltac:(lia)). lia.
    + destruct (Zdigits2_bounds M ltac:(lia)) as [[B1 B2] P].
      assert (Zdigits2 M <= 53)%Z.
      { assert (2 ^ (Zdigits2 M - 1) < 2 ^ 53)%Z by lia.
        apply Z.pow_lt_mono_r_iff in H; lia. }
      destruct (Z.eq_dec E (-1074)); [lia|].
      specialize (Hn ltac:(lia)).
      assert (2 ^ 52 < 2 ^ Zdigits2 M)%Z by lia.
      apply Z.pow_lt_mono_r_iff in H0; lia.
Qed.

Lemma round_core_spec m e l v :
  located m e l v ->
  (e <= fexp64 (Zdigits2 m + e))%Z ->
  exists M E, rounded_as v M E /\ round_core m e l = normalized M E.
Proof.
  intros L Hpre.
  destruct (shr_fexp_spec m e l v L Hpre) as (mrs & E & HS & R & HE & Hup & Hlo).
  set (M := round_nearest_even (shr_m mrs) (loc_of_shr_record mrs)).
  assert (RA : rounded_as v M E) by (exists mrs; split; [exact R|split; [reflexivity|split; [exact HE|split; assumption]]]).
  destruct (rounded_as_bounds _ _ _ RA) as [HM Hn].
  destruct (normalize_spec M E HM HE Hn) as (mrs2 & HS2 & Hm2).
  exists M, E. split; [exact RA|].
  unfold round_core. rewrite HS. fold M. rewrite HS2, Hm2.
  destruct (normalized M E); reflexivity.
Qed.

Lemma loc_ok_up_mono m e r1 s1 r2 s2 v1 v2 :
  loc_ok m e r1 s1 v1 -> loc_ok m e r2 s2 v2 -> v1 <= v2 ->
  (round_nearest_even m (loc_of_shr_record (Build_shr_record m r1 s1))
   <= round_nearest_even m (loc_of_shr_record (Build_shr_record m r2 s2)))%Z.
Proof.
  pose proof (bpow_gt_0 e) as Hb.
  unfold loc_ok. destruct r1, s1, r2, s2; simpl; intros H1 H2 Hv;
    try (destruct (Z.even m)); try lia; exfalso; nra.
Qed.

Lemma rounded_as_mono v1 v2 M1 E1 M2 E2 :
  rounded_as v1 M1 E1 -> rounded_as v2 M2 E2 -> v1 <= v2 ->
  (E1 < E2)%Z \/ (E1 = E2 /\ (M1 <= M2)%Z).
Proof.
  intros (mrs1 & R1 & -> & HE1 & Hup1 & Hlo1) (mrs2 & R2 & -> & HE2 & Hup2 & Hlo2) Hv.
  destruct (Z.lt_trichotomy E1 E2) as [L|[L|L]]; [left; exact L| |exfalso].
  - right. split; [exact L|]. subst E2.
    pose proof (rec_at_bounds _ _ _ R1) as B1.
    pose proof (rec_at_bounds _ _ _ R2) as B2.
    assert (shr_m mrs1 < shr_m mrs2 + 1)%Z.
    { apply (IZR_mul_bpow_lt _ _ E1). rewrite plus_IZR. lra. }
    destruct (Z.eq_dec (shr_m mrs1) (shr_m mrs2)) as [Heq|Hne].
    + destruct mrs1 as [m1 r1 s1], mrs2 as [m2 r2 s2]. simpl in Heq. subst m2.
      destruct R1 as [_ R1], R2 as [_ R2]. simpl in R1, R2. simpl shr_m.
      eapply loc_ok_up_mono; eauto.
    + pose proof (rne_bounds (shr_m mrs1) (loc_of_shr_record mrs1)).
      pose proof (rne_bounds (shr_m mrs2) (loc_of_shr_record mrs2)). lia.
  - specialize (Hlo1 ltac:(lia)).
    assert (bpow (E2 + 53) <= bpow (E1 + 52)) by (apply bpow_le; lia). lra.
Qed.

Lemma normalized_mono v1 v2 M1 E1 M2 E2 :
  rounded_as v1 M1 E1 -> rounded_as v2 M2 E2 -> v1 <= v2 ->
  pair_le (normalized M1 E1) (normalized M2 E2).
Proof.
  intros RA1 RA2 Hv.
  pose proof (rounded_as_mono _ _ _ _ _ _ RA1 RA2 Hv) as Hm.
  destruct (rounded_as_bounds _ _ _ RA1) as [B1 N1].
  destruct (rounded_as_bounds _ _ _ RA2) as [B2 N2].
  assert (HE1 : (-1074 <= E1)%Z) by (destruct RA1 as (? & ? & ? & ? & ?); assumption).
  unfold pair_le, normalized.
  assert (P52 : (2 ^ 52 = 4503599627370496)%Z) by reflexivity.
  assert (P53 : (2 ^ 53 = 9007199254740992)%Z) by reflexivity.
  rewrite P52, P53 in *.
  destruct (Z.eqb_spec M1 9007199254740992), (Z.eqb_spec M2 9007199254740992);
    cbn [fst snd]; (split; [lia|]); (split; [lia|]).
  all: lia.
Qed.

Lemma SFout_mono p1 p2 :
  pair_le p1 p2 ->
  SFleb (SFout false p1) (SFout false p2) = true /\
  SFleb (SFout true p2) (SFout true p1) = true.
Proof.
  destruct p1 as [M1 E1], p2 as [M2 E2]. unfold pair_le, SFout. cbn [fst snd].
  intros (H1 & H2 & H).
  destruct M1 as [|m1|m1], M2 as [|m2|m2]; try lia;
    destruct (Z.leb_spec E1 (emax - prec)), (Z.leb_spec E2 (emax - prec));
    unfold SFleb, SFcompare; try reflexivity; try lia.
  all: destruct H as [[L P]|[-> L]].
  all: try (rewrite (proj2 (Z.compare_lt_iff E1 E2) L), (proj2 (Z.compare_gt_iff E2 E1) L);
            split; reflexivity).
  all: rewrite ?Z.compare_refl.
  all: try (exfalso; lia).
  all: change (PosDef.Pos.compare_cont Eq m1 m2) with (Pos.compare m1 m2).
  all: change (PosDef.Pos.compare_cont Eq m2 m1) with (Pos.compare m2 m1).
  all: rewrite (Pos.compare_antisym m1 m2).
  all: assert (C : (m1 ?= m2)%positive <> Gt) by (apply Pos.compare_le_iff; lia).
  all: destruct (m1 ?= m2)%positive; cbn; try congruence; split; reflexivity.
Qed.

(** ** Rounding as a relation between a real and a float *)

Lemma rounds_to_intro (s : bool) m e l v w o :
  located m e l v -> (e <= fexp64 (Zdigits2 m + e))%Z ->
  w = (if s then - v else v) -> o = bra s m e l ->
  rounds_to w o.
Proof. intros L P -> ->. destruct s; constructor; assumption. Qed.

Lemma located_nonneg m e l v : located m e l v -> 0 <= v.
Proof.
  intros L. pose proof (rec_at_bounds _ _ _ L) as B. destruct L as [Hm _].
  apply IZR_le in Hm. pose proof (bpow_gt_0 e). nra.
Qed.

Lemma rounded_as_zero M E : rounded_as 0 M E -> M = 0%Z.
Proof.
  intros (mrs & R & -> & _).
  pose proof (rec_at_bounds _ _ _ R) as B. destruct mrs as [m r s].
  destruct R as [Hm L]. simpl in *. pose proof (bpow_gt_0 E) as Hb.
  assert (m = 0)%Z.
  { assert (m < 1)%Z; [|lia]. apply lt_IZR. nra. }
  subst m. unfold loc_ok in L. destruct r, s; simpl; try reflexivity; exfalso; nra.
Qed.

Lemma SFout_nonneg_nonpos p1 p2 :
  (0 <= fst p1)%Z -> (0 <= fst p2)%Z ->
  SFleb (SFout true p1) (SFout false p2) = true.
Proof.
  destruct p1 as [[|m1|m1] E1], p2 as [[|m2|m2] E2]; unfold SFout; cbn [fst snd];
    intros; try lia;
    repeat match goal with |- context [Z.leb ?a ?b] => destruct (Z.leb a b) end;
    reflexivity.
Qed.

Lemma normalized_fst_nonneg v M E : rounded_as v M E -> (0 <= fst (normalized M E))%Z.
Proof.
  intros RA. destruct (rounded_as_bounds _ _ _ RA) as [B _].
  unfold normalized. destruct (M =? 2 ^ 53)%Z; simpl; lia.
Qed.

Theorem rounds_to_mono w1 w2 o1 o2 :
  rounds_to w1 o1 -> rounds_to w2 o2 -> w1 <= w2 -> SFleb o1 o2 = true.
Proof.
  intros R1 R2 Hw.
  destruct R1 as [m1 e1 l1 v1 L1 P1|m1 e1 l1 v1 L1 P1];
  destruct R2 as [m2 e2 l2 v2 L2 P2|m2 e2 l2 v2 L2 P2];
  rewrite !binary_round_aux_out;
  destruct (round_core_spec _ _ _ _ L1 P1) as (M1 & E1 & RA1 & ->);
  destruct (round_core_spec _ _ _ _ L2 P2) as (M2 & E2 & RA2 & ->).
  - apply SFout_mono. eapply normalized_mono; eauto.
  - pose proof (located_nonneg _ _ _ _ L1). pose proof (located_nonneg _ _ _ _ L2).
    assert (v1 = 0) by lra. assert (v2 = 0) by lra. subst v1 v2.
    apply rounded_as_zero in RA1, RA2. subst M1 M2. reflexivity.
  - apply SFout_nonneg_nonpos; eapply normalized_fst_nonneg; eauto.
  - apply SFout_mono. eapply normalized_mono; eauto. lra.
Qed.

(** ** Values of finite floats *)

Lemma canonical_facts m e :
  canonical_mantissa prec emax m e = true ->
  (e = fexp64 (Zpos (digits2_pos m) + e))%Z.
Proof. unfold canonical_mantissa. intros H. apply Z.eqb_eq in H. lia. Qed.

Lemma valid_finite s m e :
  valid64 (S754_finite s m e) = true ->
  (e = Z.max (Zpos (digits2_pos m) + e - 53) (-1074))%Z /\ (e <= 971)%Z.
Proof.
  simpl. unfold bounded. intros H. apply andb_true_iff in H. destruct H as [C B].
  apply canonical_facts in C. rewrite fexp64_eq in C. apply Z.leb_le in B.
  split; [exact C|exact B].
Qed.

Lemma located_exact m e : (0 <= m)%Z -> located m e loc_Exact (IZR m * bpow e).
Proof. intros H. split; simpl; [exact H|reflexivity]. Qed.

Lemma bra_valid_id s m e :
  valid64 (S754_finite s m e) = true -> bra s (Zpos m) e loc_Exact = S754_finite s m e.
Proof.
  intros V. destruct (valid_finite _ _ _ V) as [C B].
  unfold binary_round_aux, shr_fexp. simpl Zdigits2.
  rewrite (fexp64_eq (Zpos (digits2_pos m) + e)).
  replace (Z.max (Zpos (digits2_pos m) + e - 53) (-1074) - e)%Z with 0%Z by lia.
  simpl shr.
  cbv beta iota zeta delta [shr_m shr_r shr_s loc_of_shr_record round_nearest_even
                            shr_record_of_loc Zdigits2].
  rewrite (fexp64_eq (Zpos (digits2_pos m) + e)).
  replace (Z.max (Zpos (digits2_pos m) + e - 53) (-1074) - e)%Z with 0%Z by lia.
  simpl. change (emax - prec)%Z with 971%Z.
  destruct (Z.leb_spec e 971); [reflexivity|lia].
Qed.

Lemma valid_rounds_to x :
  valid64 x = true -> is_fin x = true -> rounds_to (SF2R x) x.
Proof.
  destruct x as [s|s| |s m e]; simpl is_fin; try discriminate; intros V _.
  - apply (rounds_to_intro s 0 (-1074) loc_Exact 0).
    + split; simpl; [lia|lra].
    + rewrite fexp64_eq. simpl. lia.
    + simpl. destruct s; lra.
    + destruct s; reflexivity.
  - apply (rounds_to_intro s (Zpos m) e loc_Exact (IZR (Zpos m) * bpow e)).
    + apply located_exact. lia.
    + destruct (valid_finite _ _ _ V) as [C B]. rewrite fexp64_eq. simpl Zdigits2. lia.
    + simpl. destruct s; reflexivity.
    + symmetry. apply bra_valid_id, V.
Qed.

Lemma digits_le_53 m e :
  valid64 (S754_finite false m e) = true ->
  (Zpos m < 2 ^ 53)%Z /\ ((-1074 < e)%Z -> (2 ^ 52 <= Zpos m)%Z).
Proof.
  intros V. destruct (valid_finite _ _ _ V) as [C _].
  pose proof (digits2_pos_bounds m) as [B1 B2].
  split.
  - assert (2 ^ Zpos (digits2_pos m) <= 2 ^ 53)%Z by (apply Z.pow_le_mono_r; lia). lia.
  - intros H. replace (Zpos (digits2_pos m)) with 53%Z in B1 by lia. exact B1.
Qed.

Lemma valid_sign_irrel s s' m e :
  valid64 (S754_finite s m e) = true -> valid64 (S754_finite s' m e) = true.
Proof. exact (fun H => H). Qed.

Lemma canonical_lt m1 e1 m2 e2 :
  valid64 (S754_finite false m1 e1) = true ->
  valid64 (S754_finite false m2 e2) = true ->
  (e1 < e2)%Z ->
  IZR (Zpos m1) * bpow e1 < IZR (Zpos m2) * bpow e2.
Proof.
  intros V1 V2 L.
  destruct (digits_le_53 _ _ V1) as [U1 _].
  destruct (digits_le_53 _ _ V2) as [_ L2].
  destruct (valid_finite _ _ _ V1) as [C1 _].
  specialize (L2 ltac:(lia)).
  apply IZR_lt in U1. apply IZR_le in L2.
  rewrite <- bpow_IZR in U1, L2 by lia.
  pose proof (bpow_gt_0 e1). pose proof (bpow_gt_0 e2).
  assert (bpow 53 * bpow e1 <= bpow 52 * bpow e2).
  { rewrite <- !bpow_add. apply bpow_le. lia. }
  nra.
Qed.

Lemma pos_compare_IZR m1 m2 :
  (m1 ?= m2)%positive <> Gt -> IZR (Zpos m1) <= IZR (Zpos m2).
Proof. intros H. apply IZR_le. apply Pos2Z.pos_le_pos. exact H. Qed.

Lemma SFleb_SF2R x y :
  valid64 x = true -> valid64 y = true -> is_fin x = true -> is_fin y = true ->
  SFleb x y = true -> SF2R x <= SF2R y.
Proof.
  destruct x as [sx|sx| |sx mx ex], y as [sy|sy| |sy my ey]; simpl is_fin;
    try discriminate; intros Vx Vy _ _; unfold SFleb, SFcompare; simpl SF2R.
  - lra.
  - destruct sy; [discriminate|]. intros _. cbn iota.
    pose proof (bpow_gt_0 ey). assert (0 < IZR (Zpos my)) by (apply IZR_lt; lia). nra.
  - destruct sx; [|discriminate]. intros _. cbn iota.
    pose proof (bpow_gt_0 ex). assert (0 < IZR (Zpos mx)) by (apply IZR_lt; lia). nra.
  - pose proof (bpow_gt_0 ex). pose proof (bpow_gt_0 ey).
    assert (0 < IZR (Zpos mx)) by (apply IZR_lt; lia).
    assert (0 < IZR (Zpos my)) by (apply IZR_lt; lia).
    change (PosDef.Pos.compare_cont Eq mx my) with (Pos.compare mx my).
    destruct sx, sy; try discriminate; cbn iota.
    + destruct (Z.compare_spec ex ey) as [->|L|L]; try discriminate.
      * intros Hc. rewrite (Pos.compare_antisym my mx) in Hc.
        assert (IZR (Zpos my) <= IZR (Zpos mx)).
        { apply pos_compare_IZR. destruct (my ?= mx)%positive; simpl in Hc; congruence. }
        nra.
      * intros _. pose proof (canonical_lt _ _ _ _ Vy Vx L). lra.
    + intros _. nra.
    + destruct (Z.compare_spec ex ey) as [->|L|L]; try discriminate.
      * intros Hc.
        assert (IZR (Zpos mx) <= IZR (Zpos my)).
        { apply pos_compare_IZR. destruct (mx ?= my)%positive; congruence. }
        nra.
      * intros _. pose proof (canonical_lt _ _ _ _ Vx Vy L). lra.
Qed.

(** ** Multiplication *)

Lemma digits_mul mx my :
  (Zpos (digits2_pos mx) + Zpos (digits2_pos my) - 1 <= Zpos (digits2_pos (mx * my)))%Z.
Proof.
  pose proof (digits2_pos_bounds mx) as [X1 X2].
  pose proof (digits2_pos_bounds my) as [Y1 Y2].
  pose proof (digits2_pos_bounds (mx * my)) as [P1 P2].
  set (dx := Zpos (digits2_pos mx)) in *. set (dy := Zpos (digits2_pos my)) in *.
  set (d := Zpos (digits2_pos (mx * my))) in *.
  assert (2 ^ (dx - 1 + (dy - 1)) < 2 ^ d)%Z.
  { rewrite Z.pow_add_r by lia. rewrite Pos2Z.inj_mul in P2.
    assert (2 ^ (dx - 1) * 2 ^ (dy - 1) <= Zpos mx * Zpos my)%Z by (apply Z.mul_le_mono_nonneg; lia).
    lia. }
  apply Z.pow_lt_mono_r_iff in H; lia.
Qed.

Lemma SFmul_rounds_to x y :
  valid64 x = true -> valid64 y = true -> is_fin x = true -> is_fin y = true ->
  rounds_to (SF2R x * SF2R y) (SF64mul x y).
Proof.
  destruct x as [sx|sx| |sx mx ex], y as [sy|sy| |sy my ey]; simpl is_fin;
    try discriminate; intros Vx Vy _ _; unfold SF64mul, SFmul.
  - replace (SF2R _ * SF2R _) with (SF2R (S754_zero (xorb sx sy))) by (simpl; lra).
    apply valid_rounds_to; reflexivity.
  - replace (SF2R _ * SF2R _) with (SF2R (S754_zero (xorb sx sy))) by (simpl; lra).
    apply valid_rounds_to; reflexivity.
  - replace (SF2R _ * SF2R _) with (SF2R (S754_zero (xorb sx sy))) by (simpl; lra).
    apply valid_rounds_to; reflexivity.
  - destruct (valid_finite _ _ _ Vx) as [Cx _]. destruct (valid_finite _ _ _ Vy) as [Cy _].
    pose proof (digits_mul mx my) as D.
    apply (rounds_to_intro (xorb sx sy) (Zpos (mx * my)) (ex + ey) loc_Exact
             (IZR (Zpos (mx * my)) * bpow (ex + ey))).
    + apply located_exact. lia.
    + rewrite fexp64_eq. simpl Zdigits2. lia.
    + rewrite Pos2Z.inj_mul, mult_IZR, bpow_add. simpl SF2R.
      destruct sx, sy; simpl; lra.
    + reflexivity.
Qed.

(** ** Left alignment *)

Lemma iter_xO m d : Zpos (Pos.iter xO m d) = (Zpos m * 2 ^ Zpos d)%Z.
Proof.
  change (Pos.iter xO m d) with (shift_pos d m).
  rewrite shift_pos_correct. change (Z.pow_pos 2 d) with (2 ^ Zpos d)%Z. lia.
Qed.

Lemma shl_align_spec mx ex ex' :
  exists m' e', shl_align mx ex ex' = (m', e') /\
    (e' <= ex)%Z /\ ((ex' <= ex)%Z -> e' = ex') /\ ((ex <= ex')%Z -> e' = ex) /\
    Zpos m' = (Zpos mx * 2 ^ (ex - e'))%Z.
Proof.
  unfold shl_align. destruct (ex' - ex)%Z as [|p|p] eqn:D.
  - exists mx, ex. repeat split; try lia. rewrite Z.sub_diag. simpl. lia.
  - exists mx, ex. repeat split; try lia. rewrite Z.sub_diag. simpl. lia.
  - exists (Pos.iter xO mx p), ex'. repeat split; try lia.
    rewrite iter_xO. f_equal. f_equal. lia.
Qed.

Lemma shl_value m m' e e' :
  (e' <= e)%Z -> Zpos m' = (Zpos m * 2 ^ (e - e'))%Z ->
  IZR (Zpos m') * bpow e' = IZR (Zpos m) * bpow e.
Proof.
  intros L ->. rewrite mult_IZR, <- bpow_IZR by lia.
  replace e with ((e - e') + e')%Z at 2 by lia. rewrite bpow_add. lra.
Qed.

Lemma digits_shift m d :
  (0 <= d)%Z -> Zdigits2 (Zpos m * 2 ^ d) = (Zpos (digits2_pos m) + d)%Z.
Proof.
  intros Hd. pose proof (digits2_pos_bounds m) as [B1 B2].
  apply Zdigits2_unique; [|lia].
  replace (Zpos (digits2_pos m) + d - 1)%Z with (Zpos (digits2_pos m) - 1 + d)%Z by lia.
  rewrite !Z.pow_add_r by lia.
  assert (0 < 2 ^ d)%Z by (apply Z.pow_pos_nonneg; lia). nia.
Qed.

Lemma binary_round_rounds_to (s : bool) m e :
  rounds_to (if s then - (IZR (Zpos m) * bpow e) else IZR (Zpos m) * bpow e)
            (binary_round prec emax s m e).
Proof.
  unfold binary_round.
  destruct (shl_align_spec m e (fexp64 (Zpos (digits2_pos m) + e)))
    as (m' & e' & -> & Le & H1 & H2 & Hm).
  apply (rounds_to_intro s (Zpos m') e' loc_Exact (IZR (Zpos m') * bpow e')).
  - apply located_exact. lia.
  - rewrite Hm, digits_shift by lia. rewrite !fexp64_eq in *.
    replace (Zpos (digits2_pos m) + (e - e') + e')%Z with (Zpos (digits2_pos m) + e)%Z by lia.
    lia.
  - rewrite (shl_value m m' e e' Le Hm). reflexivity.
  - reflexivity.
Qed.

Lemma binary_normalize_rounds_to N e :
  rounds_to (IZR N * bpow e) (binary_normalize prec emax N e false).
Proof.
  destruct N as [|n|n]; unfold binary_normalize.
  - replace (IZR 0 * bpow e) with (SF2R (S754_zero false)) by (simpl; lra).
    apply valid_rounds_to; reflexivity.
  - apply (binary_round_rounds_to false).
  - replace (IZR (Zneg n) * bpow e) with (- (IZR (Zpos n) * bpow e)).
    + apply (binary_round_rounds_to true).
    + change (Zneg n) with (- Zpos n)%Z. rewrite opp_IZR. lra.
Qed.

(** ** Subtraction *)

Lemma aligned_value s m e ez :
  (ez <= e)%Z ->
  IZR (cond_Zopp s (Zpos (fst (shl_align m e ez)))) * bpow ez
  = SF2R (S754_finite s m e).
Proof.
  intros L. destruct (shl_align_spec m e ez) as (m' & e' & -> & Le & H1 & H2 & Hm).
  cbn [fst]. specialize (H1 L). subst e'.
  simpl SF2R. rewrite <- (shl_value m m' e ez Le Hm).
  destruct s; unfold cond_Zopp; [|reflexivity].
  rewrite opp_IZR. lra.
Qed.

Lemma SFsub_rounds_to x y :
  valid64 x = true -> valid64 y = true -> is_fin x = true -> is_fin y = true ->
  rounds_to (SF2R x - SF2R y) (SF64sub x y).
Proof.
  destruct x as [sx|sx| |sx mx ex], y as [sy|sy| |sy my ey]; simpl is_fin;
    try discriminate; intros Vx Vy _ _; unfold SF64sub, SFsub.
  - replace (SF2R _ - SF2R _) with 0 by (simpl; lra).
    destruct sx, sy;
      match goal with |- rounds_to 0 (S754_zero ?s) =>
        change 0 with (SF2R (S754_zero s)); apply valid_rounds_to; reflexivity end.
  - replace (SF2R _ - SF2R _) with (SF2R (S754_finite (negb sy) my ey))
      by (simpl; destruct sy; simpl; lra).
    apply valid_rounds_to; [exact Vy|reflexivity].
  - replace (SF2R _ - SF2R _) with (SF2R (S754_finite sx mx ex)) by (simpl; lra).
    apply valid_rounds_to; [exact Vx|reflexivity].
  - cbv zeta.
    rewrite <- (aligned_value sx mx ex (Z.min ex ey)) by lia.
    rewrite <- (aligned_value sy my ey (Z.min ex ey)) by lia.
    rewrite <- Rmult_minus_distr_r, <- minus_IZR.
    apply binary_normalize_rounds_to.
Qed.

(** ** Division *)

Lemma new_location_spec n r q e :
  (0 < n)%Z -> (0 <= r < n)%Z -> (0 <= q)%Z ->
  located q e (new_location n r) ((IZR q + IZR r / IZR n) * bpow e).
Proof.
  intros Hn Hr Hq.
  set (f := IZR r / IZR n).
  assert (Hn' : 0 < IZR n) by (apply IZR_lt; lia).
  assert (F0 : r = 0%Z -> f = 0) by (intros ->; unfold f; field; lra).
  assert (Fpos : (0 < r)%Z -> 0 < f).
  { intros H. unfold f. apply Rdiv_lt_0_compat; [apply IZR_lt; lia|lra]. }
  assert (Flt : (2 * r < n)%Z -> f < / 2).
  { intros H. apply IZR_lt in H. rewrite mult_IZR in H. unfold f.
    apply Rmult_lt_reg_r with (IZR n); [lra|]. field_simplify; lra. }
  assert (Feq : (2 * r = n)%Z -> f = / 2).
  { intros H. apply (f_equal IZR) in H. rewrite mult_IZR in H. unfold f.
    rewrite <- H. field. lra. }
  assert (Fgt : (n < 2 * r)%Z -> / 2 < f).
  { intros H. apply IZR_lt in H. rewrite mult_IZR in H. unfold f.
    apply Rmult_lt_reg_r with (IZR n); [lra|]. field_simplify; lra. }
  assert (F1 : f < 1).
  { unfold f. apply Rmult_lt_reg_r with (IZR n); [lra|]. field_simplify; [|lra].
    assert (IZR r < IZR n) by (apply IZR_lt; lia). lra. }
  clearbody f. pose proof (bpow_gt_0 e) as Hb.
  unfold located, new_location, new_location_even, new_location_odd.
  destruct (Z.even n) eqn:Ev; destruct (Z.eqb_spec r 0) as [E0|N0].
  - split; simpl; [lia|]. rewrite (F0 E0). lra.
  - destruct (Z.compare_spec (2 * r) n) as [C|C|C]; (split; simpl; [lia|]).
    + rewrite (Feq C). lra.
    + specialize (Flt C). specialize (Fpos ltac:(lia)). nra.
    + specialize (Fgt C). nra.
  - split; simpl; [lia|]. rewrite (F0 E0). lra.
  - assert (2 * r <> n)%Z.
    { intros <-. rewrite Z.even_mul in Ev. discriminate. }
    destruct (Z.compare_spec (2 * r + 1) n) as [C|C|C]; (split; simpl; [lia|]).
    + specialize (Flt ltac:(lia)). specialize (Fpos ltac:(lia)). nra.
    + specialize (Flt ltac:(lia)). specialize (Fpos ltac:(lia)). nra.
    + specialize (Fgt ltac:(lia)). nra.
Qed.

Lemma shiftl_match (s m : Z) :
  (0 <= s)%Z ->
  match s with Zpos _ => Z.shiftl m s | Z0 => m | Zneg _ => 0%Z end = (m * 2 ^ s)%Z.
Proof.
  intros H. destruct s as [|p|p]; try lia.
  apply Z.shiftl_mul_pow2. lia.
Qed.

Lemma SFdiv_core_spec mx ex my ey :
  exists q e l,
    SFdiv_core_binary prec emax (Zpos mx) ex (Zpos my) ey = (q, e, l) /\
    located q e l (IZR (Zpos mx) * bpow ex / (IZR (Zpos my) * bpow ey)) /\
    (e <= fexp64 (Zdigits2 q + e))%Z.
Proof.
  unfold SFdiv_core_binary. simpl Zdigits2.
  set (d1 := Zpos (digits2_pos mx)). set (d2 := Zpos (digits2_pos my)).
  set (e' := Z.min (fexp64 (d1 + ex - (d2 + ey))) (ex - ey)).
  set (s := (ex - ey - e')%Z).
  assert (Hs : (0 <= s)%Z) by (unfold s, e'; lia).
  set (m' := match s with Zpos _ => Z.shiftl (Zpos mx) s | Z0 => Zpos mx | Zneg _ => 0%Z end).
  assert (Hm' : m' = (Zpos mx * 2 ^ s)%Z).
  { unfold m'. apply shiftl_match, Hs. }
  clearbody m'.
  pose proof (Z_div_mod m' (Zpos my) ltac:(lia)) as DM.
  destruct (Z.div_eucl m' (Zpos my)) as [q r]. destruct DM as [DM Hr].
  assert (P2 : (0 < 2 ^ s)%Z) by (apply Z.pow_pos_nonneg; lia).
  assert (Hq : (0 <= q)%Z) by nia.
  exists q, e', (new_location (Zpos my) r). split; [reflexivity|]. split.
  - replace (IZR (Zpos mx) * bpow ex / (IZR (Zpos my) * bpow ey))
      with ((IZR q + IZR r / IZR (Zpos my)) * bpow e').
    + apply new_location_spec; lia.
    + assert (IZR m' = IZR (Zpos my) * IZR q + IZR r)
        by (rewrite DM, plus_IZR, mult_IZR; reflexivity).
      rewrite Hm', mult_IZR, <- bpow_IZR in H by lia.
      assert (Hy : 0 < IZR (Zpos my)) by (apply IZR_lt; lia).
      pose proof (bpow_gt_0 ey). pose proof (bpow_gt_0 e').
      replace ex with (s + e' + ey)%Z by (unfold s; lia).
      rewrite !bpow_add.
      replace (IZR (Zpos mx) * (bpow s * bpow e' * bpow ey))
        with ((IZR (Zpos mx) * bpow s) * bpow e' * bpow ey) by ring.
      rewrite H. field. lra.
  - pose proof (digits2_pos_bounds mx) as [X1 X2]. fold d1 in X1, X2.
    pose proof (digits2_pos_bounds my) as [Y1 Y2]. fold d2 in Y1, Y2.
    assert (Hd1 : (0 < d1)%Z) by (unfold d1; lia).
    assert (Hd2 : (0 < d2)%Z) by (unfold d2; lia).
    assert (Dq : (d1 + s - d2 <= Zdigits2 q)%Z).
    { assert (Q : (q + 1 <= 2 ^ Zdigits2 q)%Z).
      { destruct (Z.eq_dec q 0) as [->|]; [simpl; lia|].
        destruct (Zdigits2_bounds q ltac:(lia)) as [[_ B] _]. lia. }
      assert (D0 : (0 <= Zdigits2 q)%Z).
      { destruct q; simpl; lia. }
      assert (2 ^ (d1 - 1 + s) < 2 ^ (d2 + Zdigits2 q))%Z.
      { rewrite !Z.pow_add_r by lia.
        assert (2 ^ (d1 - 1) * 2 ^ s <= m')%Z by nia.
        assert (m' < Zpos my * (q + 1))%Z by nia.
        assert (Zpos my * (q + 1) <= 2 ^ d2 * 2 ^ Zdigits2 q)%Z
          by (apply Z.mul_le_mono_nonneg; lia).
        lia. }
      apply Z.pow_lt_mono_r_iff in H; lia. }
    assert (He' : e' = Z.min (Z.max (d1 + ex - (d2 + ey) - 53) (-1074)) (ex - ey))
      by reflexivity.
    assert (Hs' : s = (ex - ey - e')%Z) by reflexivity.
    clearbody e' s. rewrite fexp64_eq. lia.
Qed.

Lemma SFdiv_rounds_to x sy my ey :
  valid64 x = true -> is_fin x = true ->
  rounds_to (SF2R x / SF2R (S754_finite sy my ey)) (SF64div x (S754_finite sy my ey)).
Proof.
  assert (Hm : 0 < IZR (Zpos my)) by (apply IZR_lt; lia).
  pose proof (bpow_gt_0 ey) as Hb.
  destruct x as [sx|sx| |sx mx ex]; simpl is_fin; try discriminate; intros Vx _;
    unfold SF64div, SFdiv.
  - replace (SF2R _ / SF2R _) with (SF2R (S754_zero (xorb sx sy))).
    + apply valid_rounds_to; reflexivity.
    + simpl. unfold Rdiv. rewrite Rmult_0_l. reflexivity.
  - destruct (SFdiv_core_spec mx ex my ey) as (q & e & l & -> & L & P).
    apply (rounds_to_intro (xorb sx sy) q e l _ _ _ L P); [|reflexivity].
    simpl SF2R. destruct sx, sy; simpl; field; lra.
Qed.

Lemma rounds_to_nonnan w o :
  rounds_to w o ->
  SFleb (S754_infinity true) o = true /\ SFleb o (S754_infinity false) = true.
Proof.
  intros [m e l v L P|m e l v L P]; rewrite binary_round_aux_out;
    destruct (round_core_spec _ _ _ _ L P) as (M & E & RA & ->);
    pose proof (normalized_fst_nonneg _ _ _ RA) as Hn;
    destruct (normalized M E) as [[|p|p] E']; unfold SFout; cbn [fst snd] in *;
    try lia; try (destruct (Z.leb E' (emax - prec))); split; reflexivity.
Qed.

Lemma SFleb_neg_inf o : SFleb o o = true -> SFleb (S754_infinity true) o = true.
Proof. destruct o as [s|[]| |s m e]; try reflexivity. discriminate. Qed.

Lemma SFleb_pos_inf o : SFleb o o = true -> SFleb o (S754_infinity false) = true.
Proof. destruct o as [s|[]| |[] m e]; try reflexivity. discriminate. Qed.

(** Multiplication by a positive finite constant is monotone. *)
Lemma SFmul_mono_r mc ec x1 x2 :
  valid64 (S754_finite false mc ec) = true -> valid64 x1 = true -> valid64 x2 = true ->
  SFleb x1 x2 = true ->
  SFleb (SF64mul (S754_finite false mc ec) x1) (SF64mul (S754_finite false mc ec) x2) = true.
Proof.
  intros Vc V1 V2 H.
  assert (Hc : 0 < SF2R (S754_finite false mc ec)).
  { simpl. apply Rmult_lt_0_compat; [apply IZR_lt; lia|apply bpow_gt_0]. }
  destruct (is_fin x1) eqn:F1; destruct (is_fin x2) eqn:F2.
  - pose proof (SFleb_SF2R _ _ V1 V2 F1 F2 H).
    eapply rounds_to_mono; [apply SFmul_rounds_to|apply SFmul_rounds_to|]; auto. nra.
  - pose proof (SFmul_rounds_to _ _ Vc V1 eq_refl F1) as R1. apply rounds_to_nonnan in R1.
    destruct x2 as [s|[]| |s m e]; try discriminate; destruct x1 as [s1|s1| |s1 m1 e1];
      try discriminate; apply R1.
  - pose proof (SFmul_rounds_to _ _ Vc V2 eq_refl F2) as R2. apply rounds_to_nonnan in R2.
    destruct x1 as [s|[]| |s m e]; try discriminate; destruct x2 as [s2|s2| |s2 m2 e2];
      try discriminate; apply R2.
  - destruct x1 as [s|[]| |s m e]; try discriminate; destruct x2 as [s2|[]| |s2 m2 e2];
      try discriminate; reflexivity.
Qed.

Lemma SFmul_comm x y : SF64mul x y = SF64mul y x.
Proof.
  destruct x as [sx|sx| |sx mx ex], y as [sy|sy| |sy my ey]; unfold SF64mul, SFmul;
    rewrite ?(xorb_comm sx sy); try reflexivity.
  rewrite (Pos.mul_comm mx my), (Z.add_comm ex ey). reflexivity.
Qed.

Lemma SFmul_mono_l mc ec x1 x2 :
  valid64 (S754_finite false mc ec) = true -> valid64 x1 = true -> valid64 x2 = true ->
  SFleb x1 x2 = true ->
  SFleb (SF64mul x1 (S754_finite false mc ec)) (SF64mul x2 (S754_finite false mc ec)) = true.
Proof.
  intros. rewrite !(SFmul_comm _ (S754_finite false mc ec)). now apply SFmul_mono_r.
Qed.

(** Division by a positive finite constant is monotone in the numerator. *)
Lemma SFdiv_mono_num my ey x1 x2 :
  valid64 x1 = true -> valid64 x2 = true ->
  SFleb x1 x2 = true ->
  SFleb (SF64div x1 (S754_finite false my ey)) (SF64div x2 (S754_finite false my ey)) = true.
Proof.
  intros V1 V2 H.
  assert (Hc : 0 < SF2R (S754_finite false my ey)).
  { simpl. apply Rmult_lt_0_compat; [apply IZR_lt; lia|apply bpow_gt_0]. }
  destruct (is_fin x1) eqn:F1; destruct (is_fin x2) eqn:F2.
  - pose proof (SFleb_SF2R _ _ V1 V2 F1 F2 H).
    eapply rounds_to_mono; [apply SFdiv_rounds_to|apply SFdiv_rounds_to|]; auto.
    unfold Rdiv. apply Rmult_le_compat_r; [|assumption].
    apply Rlt_le, Rinv_0_lt_compat, Hc.
  - pose proof (SFdiv_rounds_to _ false my ey V1 F1) as R1. apply rounds_to_nonnan in R1.
    destruct x2 as [s|[]| |s m e]; try discriminate; destruct x1 as [s1|s1| |s1 m1 e1];
      try discriminate; apply R1.
  - pose proof (SFdiv_rounds_to _ false my ey V2 F2) as R2. apply rounds_to_nonnan in R2.
    destruct x1 as [s|[]| |s m e]; try discriminate; destruct x2 as [s2|s2| |s2 m2 e2];
      try discriminate; apply R2.
  - destruct x1 as [s|[]| |s m e]; try discriminate; destruct x2 as [s2|[]| |s2 m2 e2];
      try discriminate; reflexivity.
Qed.

Lemma SFdiv_anti_den a m1 e1 m2 e2 :
  valid64 a = true -> SFnonneg a = true ->
  valid64 (S754_finite false m1 e1) = true -> valid64 (S754_finite false m2 e2) = true ->
  SFleb (S754_finite false m1 e1) (S754_finite false m2 e2) = true ->
  SFleb (SF64div a (S754_finite false m2 e2)) (SF64div a (S754_finite false m1 e1)) = true.
Proof.
  intros Va Na V1 V2 H.
  pose proof (SFleb_SF2R _ _ V1 V2 eq_refl eq_refl H) as Hr.
  assert (H1 : 0 < SF2R (S754_finite false m1 e1)).
  { simpl. apply Rmult_lt_0_compat; [apply IZR_lt; lia|apply bpow_gt_0]. }
  destruct (is_fin a) eqn:Fa.
  - eapply rounds_to_mono; [apply SFdiv_rounds_to|apply SFdiv_rounds_to|]; auto.
    assert (0 <= SF2R a).
    { destruct a as [s|s| |[] m e]; try discriminate; simpl; try lra.
      apply Rmult_le_pos; [apply IZR_le; lia|apply Rlt_le, bpow_gt_0]. }
    unfold Rdiv. apply Rmult_le_compat_l; [assumption|].
    apply Rinv_le_contravar; assumption.
  - destruct a as [s|[]| |s m e]; try discriminate. reflexivity.
Qed.

Lemma SFclamp_nonneg d : SFleb (S754_zero false) (SFclamp d) = true.
Proof. destruct d as [s|[]| |[] m e]; reflexivity. Qed.

Lemma SFclamp_le_inf d : SFleb (SFclamp d) (S754_infinity false) = true.
Proof. destruct d as [s|[]| |[] m e]; reflexivity. Qed.

Lemma SFclamp_mono d1 d2 :
  SFleb d1 d2 = true -> SFleb (SFclamp d1) (SFclamp d2) = true.
Proof.
  destruct d1 as [s1|[]| |[] m1 e1], d2 as [s2|[]| |[] m2 e2];
    try discriminate; try reflexivity; intros H; exact H.
Qed.

Lemma SFsub_clamp_mono p1 p2 x1 x2 :
  valid64 p1 = true -> valid64 p2 = true -> valid64 x1 = true -> valid64 x2 = true ->
  SFleb p1 p2 = true -> SFleb x2 x1 = true ->
  SFleb (SFclamp (SF64sub p1 x1)) (SFclamp (SF64sub p2 x2)) = true.
Proof.
  intros Vp1 Vp2 Vx1 Vx2 Hp Hx.
  destruct (is_fin p1 && is_fin p2 && is_fin x1 && is_fin x2) eqn:F.
  - apply andb_true_iff in F. destruct F as [F Fx2].
    apply andb_true_iff in F. destruct F as [F Fx1].
    apply andb_true_iff in F. destruct F as [Fp1 Fp2].
    apply SFclamp_mono.
    pose proof (SFleb_SF2R _ _ Vp1 Vp2 Fp1 Fp2 Hp).
    pose proof (SFleb_SF2R _ _ Vx2 Vx1 Fx2 Fx1 Hx).
    eapply rounds_to_mono; [apply SFsub_rounds_to|apply SFsub_rounds_to|]; auto. lra.
  - destruct p1 as [sp1|[]| |sp1 mp1 ep1]; try discriminate Hp;
    destruct p2 as [sp2|[]| |sp2 mp2 ep2]; try discriminate Hp;
    destruct x1 as [sx1|[]| |sx1 mx1 ex1]; try discriminate Hx;
    destruct x2 as [sx2|[]| |sx2 mx2 ex2]; try discriminate Hx;
    try discriminate F;
    unfold SF64sub, SFsub; cbv beta iota;
    try apply SFclamp_nonneg; try apply SFclamp_le_inf; try reflexivity.
    all: try (destruct sp1; discriminate Hp).
    all: try (destruct sp2; discriminate Hp).
    all: try (destruct sx1; discriminate Hx).
    all: try (destruct sx2; discriminate Hx).
    all: try (destruct sp1, sp2; reflexivity).
Qed.

End Rounding.

(** ** Order on floats *)

Lemma SFcompare_antisym x y :
  SFcompare y x = option_map CompOpp (SFcompare x y).
Proof.
  destruct x as [sx|sx| |sx mx ex], y as [sy|sy| |sy my ey]; simpl;
    try reflexivity; try (destruct sx; reflexivity); try (destruct sy; reflexivity);
    try (destruct sx, sy; reflexivity).
  change (PosDef.Pos.compare_cont Eq mx my) with (Pos.compare mx my).
  change (PosDef.Pos.compare_cont Eq my mx) with (Pos.compare my mx).
  rewrite (Pos.compare_antisym mx my), (Z.compare_antisym ex ey).
  destruct sx, sy; try reflexivity;
    destruct (ex ?= ey)%Z; simpl; try reflexivity;
    destruct (mx ?= my)%positive; reflexivity.
Qed.

Lemma SFltb_not_SFleb x y : SFltb x y = true -> SFleb y x = false.
Proof.
  unfold SFltb, SFleb. rewrite (SFcompare_antisym x y).
  destruct (SFcompare x y) as [[ | | ]|]; simpl; congruence.
Qed.

Lemma SFleb_not_SFltb x y : SFleb x y = true -> SFltb y x = false.
Proof.
  unfold SFltb, SFleb. rewrite (SFcompare_antisym x y).
  destruct (SFcompare x y) as [[ | | ]|]; simpl; congruence.
Qed.

Lemma SFleb_total x y :
  SFleb x x = true -> SFleb y y = true -> SFleb x y = false -> SFltb y x = true.
Proof.
  unfold SFltb, SFleb. rewrite (SFcompare_antisym x y).
  destruct x as [sx|sx| |sx mx ex], y as [sy|sy| |sy my ey]; try discriminate;
    intros _ _; destruct (SFcompare _ _) as [[ | | ]|] eqn:E; simpl; try congruence;
    simpl in E; discriminate.
Qed.

Lemma SFltb_SFleb x y : SFltb x y = true -> SFleb x y = true.
Proof. unfold SFltb, SFleb. destruct (SFcompare x y) as [[ | | ]|]; congruence. Qed.

Lemma Prim2SF_zero : Prim2SF 0 = S754_zero false.
Proof. reflexivity. Qed.

Lemma max_zero_spec y : Prim2SF (Py.max 0 y) = SFclamp (Prim2SF y).
Proof.
  unfold Py.max, Py.gt, SFclamp. rewrite ltb_spec, Prim2SF_zero.
  destruct (SFltb _ _); [reflexivity|exact Prim2SF_zero].
Qed.

(** ** Monotonicity of the primitive operations *)

Lemma valid_of_Prim2SF c x : Prim2SF c = x -> valid64 x = true.
Proof. intros <-. apply Prim2SF_valid. Qed.

Lemma mul_le_mono_r c x1 x2 :
  pos_finite c -> (x1 <=? x2) = true -> (c * x1 <=? c * x2) = true.
Proof.
  intros (m & e & Hc) H. rewrite leb_spec in *. rewrite !mul_spec, Hc.
  apply SFmul_mono_r; auto using Prim2SF_valid. exact (valid_of_Prim2SF _ _ Hc).
Qed.

Lemma mul_le_mono_l c x1 x2 :
  pos_finite c -> (x1 <=? x2) = true -> (x1 * c <=? x2 * c) = true.
Proof.
  intros (m & e & Hc) H. rewrite leb_spec in *. rewrite !mul_spec, Hc.
  apply SFmul_mono_l; auto using Prim2SF_valid. exact (valid_of_Prim2SF _ _ Hc).
Qed.

Lemma div_le_mono_num y x1 x2 :
  pos_finite y -> (x1 <=? x2) = true -> (x1 / y <=? x2 / y) = true.
Proof.
  intros (m & e & Hy) H. rewrite leb_spec in *. rewrite !div_spec, Hy.
  apply SFdiv_mono_num; auto using Prim2SF_valid.
Qed.

Lemma div_le_anti_den a y1 y2 :
  (0 <=? a) = true -> pos_finite y1 -> pos_finite y2 -> (y1 <=? y2) = true ->
  (a / y2 <=? a / y1) = true.
Proof.
  intros Ha (m1 & e1 & H1) (m2 & e2 & H2) H. rewrite leb_spec in *.
  rewrite !div_spec. rewrite H1, H2 in *. rewrite Prim2SF_zero in Ha.
  apply SFdiv_anti_den; auto using Prim2SF_valid.
  - destruct (Prim2SF a) as [s|[]| |[] m e]; try discriminate; reflexivity.
  - exact (valid_of_Prim2SF _ _ H1).
  - exact (valid_of_Prim2SF _ _ H2).
Qed.

Lemma SFsub_nan_r p : SF64sub p S754_nan = S754_nan.
Proof. destruct p; reflexivity. Qed.

Lemma SFsub_nan_l x : SF64sub S754_nan x = S754_nan.
Proof. reflexivity. Qed.

Lemma SFleb_refl_or_nan x : SFleb x x = true \/ x = S754_nan.
Proof.
  destruct x as [s|[]| |[] m e]; auto; left; unfold SFleb, SFcompare;
    rewrite Z.compare_refl;
    change (PosDef.Pos.compare_cont Eq m m) with (Pos.compare m m);
    rewrite Pos.compare_refl; reflexivity.
Qed.

Lemma sub_max_mono_l p1 p2 x :
  (p1 <=? p2) = true -> (Py.max 0 (p1 - x) <=? Py.max 0 (p2 - x)) = true.
Proof.
  intros H. rewrite leb_spec in *. rewrite !max_zero_spec, !sub_spec.
  destruct (SFleb_refl_or_nan (Prim2SF x)) as [Hx|Hx].
  - apply SFsub_clamp_mono; auto using Prim2SF_valid.
  - rewrite Hx, !SFsub_nan_r. reflexivity.
Qed.

Lemma sub_max_mono_r p x1 x2 :
  (x1 <=? x2) = true -> (Py.max 0 (p - x2) <=? Py.max 0 (p - x1)) = true.
Proof.
  intros H. rewrite leb_spec in *. rewrite !max_zero_spec, !sub_spec.
  destruct (SFleb_refl_or_nan (Prim2SF p)) as [Hp|Hp].
  - apply SFsub_clamp_mono; auto using Prim2SF_valid.
  - rewrite Hp. reflexivity.
Qed.

Lemma max_zero_nonneg y :
  (0 <=? Py.max 0 y) = true /\ (Py.max 0 y <? 0) = false.
Proof.
  rewrite leb_spec, ltb_spec, max_zero_spec, Prim2SF_zero.
  destruct (Prim2SF y) as [s|[]| |[] m e]; split; reflexivity.
Qed.

Lemma pos_finite_between c1 c2 y :
  pos_finite c1 -> pos_finite c2 -> (c1 <=? y) = true -> (y <=? c2) = true ->
  pos_finite y.
Proof.
  intros (m1 & e1 & H1) (m2 & e2 & H2) L U. rewrite leb_spec in *.
  rewrite H1 in L. rewrite H2 in U. unfold pos_finite.
  destruct (Prim2SF y) as [s|[]| |[] m e]; try discriminate; eauto.
Qed.

Lemma pos_finite_nonzero y : pos_finite y -> (y =? 0) = false.
Proof. intros (m & e & H). rewrite FloatAxioms.eqb_spec, H. reflexivity. Qed.

(** ** The input ranges keep the divisor positive and finite *)

Lemma pos_finite_50 : forall r, valid_r_value r -> pos_finite (50 * r) /\ pos_finite (500 * r) /\ pos_finite r.
Proof.
  intros r [->| ->]; repeat split; eexists; eexists; vm_compute; reflexivity.
Qed.

Lemma divisor_pos_finite w r :
  valid_weight w -> valid_r_value r -> pos_finite (w * r).
Proof.
  intros [L U] Hr. destruct (pos_finite_50 r Hr) as (P50 & P500 & Pr).
  apply (pos_finite_between (50 * r) (500 * r)); auto.
  - apply mul_le_mono_l; assumption.
  - apply mul_le_mono_l; assumption.
Qed.

Lemma calculate_bac_value_eq t w r f h :
  (w * r =? 0) = false ->
  calculate_bac_value t w r f h = Ok (compute_bac_spec t w r f h).
Proof.
  intros H. unfold calculate_bac_value, compute_bac_spec, Py.truediv.
  destruct (Py.le t 0); [reflexivity|]. rewrite H. reflexivity.
Qed.

(** ** The formula engine *)

(** C1, as amended.  When [total_alcohol_oz <= 0] the function returns
    exactly [0.0] whatever the other arguments are.  Otherwise, provided
    the floating-point product [weight_lbs * r_value] is not zero, it
    returns [max(0.0, total_alcohol_oz * 5.14 / (weight_lbs * r_value) *
    food_factor - 0.015 * elapsed_hours)].  The product is not zero for
    every weight in [[50, 500]] and [r] in [{0.73, 0.66}].  Positive
    [weight_lbs] and [r_value] alone are not enough: see
    [calculate_bac_value_underflow]. *)
Theorem calculate_bac_value_formula t w r f h :
  (Py.le t 0 = true -> calculate_bac_value t w r f h = Ok 0) /\
  (Py.le t 0 = false -> (w * r =? 0) = false ->
   calculate_bac_value t w r f h
   = Ok (Py.max 0 (t * 5.14 / (w * r) * f - 0.015 * h))) /\
  (valid_weight w -> valid_r_value r -> (w * r =? 0) = false).
Proof.
  split; [|split].
  - intros H. unfold calculate_bac_value. rewrite H. reflexivity.
  - intros Ht H. rewrite calculate_bac_value_eq by assumption.
    unfold compute_bac_spec. rewrite Ht. reflexivity.
  - intros Hw Hr. apply pos_finite_nonzero, divisor_pos_finite; assumption.
Qed.

Lemma calculate_bac_value_formula_witness :
  Py.le 2 0 = false /\ (160 * MALE_R =? 0) = false /\
  calculate_bac_value 2 160 MALE_R 1 1
  = Ok (Py.max 0 (2 * 5.14 / (160 * MALE_R) * 1 - 0.015 * 1)).
Proof.
  split; [reflexivity|]. split; [reflexivity|].
  apply (calculate_bac_value_formula 2 160 MALE_R 1 1); reflexivity.
Defined.

(** The weight [1e-200] and the ratio [1e-200] are both positive, their
    product underflows to [0.0], and the division raises. *)
Lemma calculate_bac_value_underflow :
  Py.gt 1e-200 0 = true /\
  Py.le 1 0 = false /\
  1e-200 * 1e-200 = 0 /\
  calculate_bac_value 1 1e-200 1e-200 1 0 = Raise ZeroDivisionError.
Proof. repeat split; vm_compute; reflexivity. Qed.

(** ** The status classifier *)

Ltac compare_cases :=
  repeat match goal with
  | |- context [Z.compare ?a ?b] =>
      let H := fresh "C" in
      destruct (Z.compare a b) eqn:H;
      [apply Z.compare_eq_iff in H|change (a < b)%Z in H|change (a > b)%Z in H]
  | |- context [PosDef.Pos.compare_cont Eq ?a ?b] =>
      destruct (PosDef.Pos.compare_cont Eq a b)
  end.

Lemma SFleb_008_005 b : SFleb SF_008 b = true -> SFltb SF_005 b = true.
Proof.
  destruct b as [s|[]| |[] m e]; try discriminate; try reflexivity.
  unfold SFleb, SFltb, SFcompare.
  compare_cases; intros H; try reflexivity; try discriminate; lia.
Qed.

Lemma SFleb_005_pos b : SFleb SF_005 b = true -> SFltb (S754_zero false) b = true.
Proof. destruct b as [s|[]| |[] m e]; try discriminate; reflexivity. Qed.

Lemma SFltb_not_SFeqb x y : SFltb x y = true -> SFeqb y x = false.
Proof.
  unfold SFltb, SFeqb. rewrite (SFcompare_antisym x y).
  destruct (SFcompare x y) as [[ | | ]|]; simpl; congruence.
Qed.

Lemma SFleb_refl_of_le x y : SFleb x y = true -> SFleb y y = true.
Proof.
  destruct (SFleb_refl_or_nan y) as [H| ->]; [auto|].
  destruct x as [s|[]| |[] m e]; discriminate.
Qed.

Lemma classify_rows_SF bac :
  SFleb (S754_zero false) (Prim2SF bac) = true ->
  exists row,
    matching_rows bac = [row] /\
    status_severity (get_bac_status bac) = fst row /\
    status_message (get_bac_status bac) = snd row.
Proof.
  unfold matching_rows, classify_rows, get_bac_status, Py.ge, Py.le, Py.lt, Py.gt.
  rewrite !leb_spec, !ltb_spec, FloatAxioms.eqb_spec.
  change (Prim2SF 0.08) with SF_008.
  change (Prim2SF 0.05) with SF_005.
  change (Prim2SF 0) with (S754_zero false).
  set (b := Prim2SF bac). intros H.
  pose proof (SFleb_refl_of_le _ _ H) as Hb.
  destruct (SFleb SF_008 b) eqn:A.
  - pose proof (SFleb_008_005 _ A) as A5.
    rewrite (SFleb_not_SFltb _ _ A), (SFltb_SFleb _ _ A5).
    rewrite (SFleb_not_SFltb _ _ (SFltb_SFleb _ _ A5)).
    rewrite (SFltb_not_SFeqb _ _ (SFleb_005_pos _ (SFltb_SFleb _ _ A5))).
    rewrite !andb_false_r. eexists; repeat split; reflexivity.
  - rewrite (SFleb_total SF_008 b eq_refl Hb A).
    destruct (SFleb SF_005 b) eqn:B.
    + rewrite (SFleb_not_SFltb _ _ B).
      rewrite (SFltb_not_SFeqb _ _ (SFleb_005_pos _ B)).
      rewrite !andb_false_r. eexists; repeat split; reflexivity.
    + rewrite (SFleb_total SF_005 b eq_refl Hb B).
      destruct (SFltb (S754_zero false) b) eqn:P.
      * rewrite (SFltb_not_SFeqb _ _ P). eexists; repeat split; reflexivity.
      * assert (SFeqb b (S754_zero false) = true) as ->.
        { clear -H P. destruct b as [s|[]| |[] m e]; try discriminate; reflexivity. }
        eexists; repeat split; reflexivity.
Qed.

(** C2.  For every [bac >= 0.0] exactly one row of the threshold table
    applies, and [get_bac_status] returns that row's severity and message:
    [bac >= 0.08] is Danger, [0.05 <= bac < 0.08] is Warning,
    [0.0 < bac < 0.05] is Info and [bac == 0.0] is Success.  The rows
    partition the non-negative floats, and the boundary values [0.08] and
    [0.05] fall in the higher-severity row. *)
Theorem get_bac_status_partition (bac : float) :
  Py.ge bac 0 = true ->
  (exists row,
     matching_rows bac = [row] /\
     status_severity (get_bac_status bac) = fst row /\
     status_message (get_bac_status bac) = snd row) /\
  (Py.ge bac 0.08 = true ->
   get_bac_status bac = ("Legal Limit Exceeded - DO NOT DRIVE!", "danger", "🚨")%string) /\
  (Py.le 0.05 bac = true -> Py.lt bac 0.08 = true ->
   get_bac_status bac = ("Impaired - Avoid risky activities!", "warning", "⚠️")%string) /\
  (Py.lt 0 bac = true -> Py.lt bac 0.05 = true ->
   get_bac_status bac = ("Some effects present - Drink responsibly.", "info", "✅")%string) /\
  ((bac =? 0) = true ->
   get_bac_status bac = ("Sober - Enjoy responsibly!", "success", "🧘")%string).
Proof.
  intros H. split.
  { apply classify_rows_SF. unfold Py.ge in H. rewrite leb_spec in H. exact H. }
  unfold get_bac_status, Py.ge, Py.le, Py.lt, Py.gt.
  rewrite !leb_spec, !ltb_spec, FloatAxioms.eqb_spec.
  change (Prim2SF 0.08) with SF_008.
  change (Prim2SF 0.05) with SF_005.
  change (Prim2SF 0) with (S754_zero false).
  set (b := Prim2SF bac).
  repeat split.
  - intros ->. reflexivity.
  - intros A B. rewrite (SFltb_not_SFleb _ _ B), A. reflexivity.
  - intros P B.
    destruct (SFleb SF_008 b) eqn:A.
    { apply SFleb_008_005, SFltb_SFleb in A. rewrite (SFltb_not_SFleb _ _ B) in A. discriminate. }
    rewrite (SFltb_not_SFleb _ _ B), P. reflexivity.
  - intros E.
    assert (Hz : exists s, b = S754_zero s).
    { clear -E. destruct b as [s|[]| |[] m e]; try discriminate; eauto. }
    destruct Hz as [s ->]. reflexivity.
Qed.

Lemma get_bac_status_partition_witness :
  Py.ge 0.05 0 = true /\
  get_bac_status 0.05 = ("Impaired - Avoid risky activities!", "warning", "⚠️")%string.
Proof.
  split; [reflexivity|].
  apply (get_bac_status_partition 0.05); reflexivity.
Defined.

Example get_bac_status_boundaries :
  status_severity (get_bac_status 0.08) = Danger /\
  status_severity (get_bac_status 0.05) = Warning /\
  status_severity (get_bac_status 0.07999999999999999) = Warning /\
  status_severity (get_bac_status 0.049999999999999996) = Info /\
  status_severity (get_bac_status 5e-324) = Info /\
  status_severity (get_bac_status 0) = Success.
Proof. repeat split; vm_compute; reflexivity. Qed.

(** ** Concrete scenarios *)

(** C9.  With [total_alcohol_oz = 1.0], [weight_lbs = 160], [r = 0.73],
    [food_factor = 1.0] and [elapsed_hours = 3] the value before clamping
    is negative, between [-0.001] and [-0.00099]; the function returns
    exactly [0.0], and that result is classified Success with the message
    "Sober - Enjoy responsibly!". *)
Theorem scenario_three_hours :
  calculate_bac_value 1.0 160 0.73 1.0 3 = Ok 0 /\
  Py.lt (-0.001)
    (1.0 * WIDMARK_FACTOR / (160 * 0.73) * 1.0 - METABOLISM_RATE_PER_HOUR * 3) = true /\
  Py.lt (1.0 * WIDMARK_FACTOR / (160 * 0.73) * 1.0 - METABOLISM_RATE_PER_HOUR * 3)
    (-0.00099) = true /\
  (let! bac := calculate_bac_value 1.0 160 0.73 1.0 3 in Ok (get_bac_status bac))
  = Ok ("Sober - Enjoy responsibly!", "success", "🧘")%string /\
  status_severity (get_bac_status 0) = Success /\
  status_message (get_bac_status 0) = "Sober - Enjoy responsibly!"%string.
Proof. repeat split; vm_compute; reflexivity. Qed.

(** Scenario 1 of the specification: the same inputs at [elapsed_hours = 0]. *)
Example scenario_zero_hours :
  exists bac,
    calculate_bac_value 1.0 160 0.73 1.0 0 = Ok bac /\
    Py.lt 0.044 bac = true /\ Py.lt bac 0.0441 = true /\
    status_severity (get_bac_status bac) = Info.
Proof. eexists. repeat split; vm_compute; reflexivity. Qed.

(** ** Monotonicity of the estimate *)

Lemma pos_finite_metabolism : pos_finite METABOLISM_RATE_PER_HOUR.
Proof. eexists; eexists; vm_compute; reflexivity. Qed.

Lemma pos_finite_widmark : pos_finite WIDMARK_FACTOR.
Proof. eexists; eexists; vm_compute; reflexivity. Qed.

Lemma pos_finite_food f : valid_food_factor f -> pos_finite f.
Proof. intros [->|[->| ->]]; eexists; eexists; vm_compute; reflexivity. Qed.

Lemma calculate_bac_value_returns t w r f h :
  valid_weight w -> valid_r_value r ->
  calculate_bac_value t w r f h = Ok (compute_bac_spec t w r f h).
Proof.
  intros Hw Hr. apply calculate_bac_value_eq, pos_finite_nonzero, divisor_pos_finite; assumption.
Qed.

Lemma compute_bac_spec_nonneg t w r f h :
  Py.ge (compute_bac_spec t w r f h) 0 = true /\
  Py.lt (compute_bac_spec t w r f h) 0 = false.
Proof.
  unfold compute_bac_spec, Py.ge, Py.lt. destruct (Py.le t 0).
  - split; reflexivity.
  - apply max_zero_nonneg.
Qed.

(** C4.  For total alcohol, weight, ratio and food factor fixed, with the
    weight and the ratio in their input ranges, the estimate does not
    increase with the elapsed hours: [h1 <= h2] gives
    [compute_bac(h1) >= compute_bac(h2)].  For all such inputs the
    function returns a value, and that value is never negative. *)
Theorem bac_nonincreasing_in_elapsed_hours t w r f :
  valid_weight w -> valid_r_value r ->
  (forall h1 h2, Py.le h1 h2 = true ->
     exists b1 b2,
       calculate_bac_value t w r f h1 = Ok b1 /\
       calculate_bac_value t w r f h2 = Ok b2 /\
       Py.ge b1 b2 = true) /\
  (forall h, exists b,
       calculate_bac_value t w r f h = Ok b /\
       Py.ge b 0 = true /\ Py.lt b 0 = false).
Proof.
  intros Hw Hr. split.
  - intros h1 h2 H.
    exists (compute_bac_spec t w r f h1), (compute_bac_spec t w r f h2).
    rewrite !calculate_bac_value_returns by assumption.
    split; [reflexivity|]. split; [reflexivity|].
    unfold compute_bac_spec, Py.ge. destruct (Py.le t 0); [reflexivity|].
    apply sub_max_mono_r. change 0.015 with METABOLISM_RATE_PER_HOUR.
    apply mul_le_mono_r; [apply pos_finite_metabolism|exact H].
  - intros h. exists (compute_bac_spec t w r f h).
    rewrite calculate_bac_value_returns by assumption.
    split; [reflexivity|]. apply compute_bac_spec_nonneg.
Qed.

Lemma bac_nonincreasing_in_elapsed_hours_witness :
  valid_weight 160 /\ valid_r_value MALE_R /\ Py.le 1 2 = true /\
  exists b1 b2,
    calculate_bac_value 3 160 MALE_R 1 1 = Ok b1 /\
    calculate_bac_value 3 160 MALE_R 1 2 = Ok b2 /\
    Py.ge b1 b2 = true.
Proof.
  assert (Hw : valid_weight 160) by (split; reflexivity).
  assert (Hr : valid_r_value MALE_R) by (left; reflexivity).
  split; [exact Hw|]. split; [exact Hr|]. split; [reflexivity|].
  exact (proj1 (bac_nonincreasing_in_elapsed_hours 3 160 MALE_R 1 Hw Hr) 1 2 eq_refl).
Defined.

Lemma le_pos_gt x y : Py.gt x 0 = true -> Py.le x y = true -> Py.le y 0 = false.
Proof.
  unfold Py.gt, Py.le. rewrite !leb_spec, ltb_spec, Prim2SF_zero.
  destruct (Prim2SF x) as [s|[]| |[] m e]; try discriminate;
    destruct (Prim2SF y) as [s'|[]| |[] m' e']; try discriminate; reflexivity.
Qed.

Lemma gt_zero_le x : Py.gt x 0 = true -> (0 <=? x) = true.
Proof.
  unfold Py.gt. rewrite leb_spec, ltb_spec. apply SFltb_SFleb.
Qed.

Lemma le_refl_of_gt x : Py.gt x 0 = true -> Py.le x x = true.
Proof.
  unfold Py.gt, Py.le. rewrite leb_spec, ltb_spec. intros H.
  apply SFltb_SFleb in H. exact (SFleb_refl_of_le _ _ H).
Qed.

(** C5, as amended.  With weight, ratio and food factor in their input
    ranges and the total alcohol positive, the estimate is non-decreasing
    in [total_alcohol_oz] and non-increasing in [weight_lbs]: [t1 <= t2]
    gives [compute_bac(t1) <= compute_bac(t2)], and [w1 <= w2] gives
    [compute_bac(w1) >= compute_bac(w2)].  It is not strictly increasing
    or decreasing: where the value before the clamp is negative the
    estimate stays at [0.0], see [bac_not_strictly_monotone]. *)
Theorem bac_monotone_in_alcohol_and_weight r f h :
  valid_r_value r -> valid_food_factor f ->
  (forall w t1 t2,
     valid_weight w -> Py.gt t1 0 = true -> Py.le t1 t2 = true ->
     exists b1 b2,
       calculate_bac_value t1 w r f h = Ok b1 /\
       calculate_bac_value t2 w r f h = Ok b2 /\
       Py.le b1 b2 = true) /\
  (forall t w1 w2,
     Py.gt t 0 = true -> valid_weight w1 -> valid_weight w2 -> Py.le w1 w2 = true ->
     exists b1 b2,
       calculate_bac_value t w1 r f h = Ok b1 /\
       calculate_bac_value t w2 r f h = Ok b2 /\
       Py.ge b1 b2 = true).
Proof.
  intros Hr Hf. pose proof (pos_finite_food f Hf) as Pf. split.
  - intros w t1 t2 Hw Ht H.
    exists (compute_bac_spec t1 w r f h), (compute_bac_spec t2 w r f h).
    rewrite !calculate_bac_value_returns by assumption.
    split; [reflexivity|]. split; [reflexivity|].
    unfold compute_bac_spec.
    rewrite (le_pos_gt t1 t1 Ht (le_refl_of_gt t1 Ht)), (le_pos_gt t1 t2 Ht H).
    unfold Py.le. apply sub_max_mono_l.
    apply mul_le_mono_l; [exact Pf|].
    apply div_le_mono_num; [apply divisor_pos_finite; assumption|].
    change 5.14 with WIDMARK_FACTOR.
    apply mul_le_mono_l; [apply pos_finite_widmark|exact H].
  - intros t w1 w2 Ht Hw1 Hw2 H.
    exists (compute_bac_spec t w1 r f h), (compute_bac_spec t w2 r f h).
    rewrite !calculate_bac_value_returns by assumption.
    split; [reflexivity|]. split; [reflexivity|].
    unfold compute_bac_spec.
    rewrite (le_pos_gt t t Ht (le_refl_of_gt t Ht)).
    unfold Py.ge. apply sub_max_mono_l.
    apply mul_le_mono_l; [exact Pf|].
    apply div_le_anti_den.
    + change 5.14 with WIDMARK_FACTOR.
      change 0 with (0 * WIDMARK_FACTOR).
      apply mul_le_mono_l; [apply pos_finite_widmark|apply gt_zero_le, Ht].
    + apply divisor_pos_finite; assumption.
    + apply divisor_pos_finite; assumption.
    + destruct (pos_finite_50 r Hr) as (_ & _ & Pr).
      apply mul_le_mono_l; assumption.
Qed.

(** Two different totals with the same clamped estimate. *)
Example clamp_plateau :
  Py.lt 1 1.01 = true /\
  calculate_bac_value 1 160 MALE_R 1 3 = Ok 0 /\
  calculate_bac_value 1.01 160 MALE_R 1 3 = Ok 0.
Proof. repeat split; vm_compute; reflexivity. Qed.

(** Inside the input ranges, with a positive total: a larger total
    with the same estimate, and a larger weight with the same estimate.
    After three hours one ounce of alcohol is metabolised, so the clamp
    returns [0.0] for all three inputs. *)
Lemma bac_not_strictly_monotone :
  valid_weight 160 /\ valid_weight 200 /\
  valid_r_value MALE_R /\ valid_food_factor 1 /\
  Py.gt 1 0 = true /\
  Py.lt 1 1.01 = true /\
  calculate_bac_value 1 160 MALE_R 1 3 = Ok 0 /\
  calculate_bac_value 1.01 160 MALE_R 1 3 = Ok 0 /\
  Py.lt 160 200 = true /\
  calculate_bac_value 1 200 MALE_R 1 3 = Ok 0.
Proof.
  split; [split; reflexivity|]. split; [split; reflexivity|].
  split; [left; reflexivity|]. split; [left; reflexivity|].
  repeat split; vm_compute; reflexivity.
Qed.

Lemma bac_monotone_in_alcohol_and_weight_witness :
  valid_r_value FEMALE_R /\ valid_food_factor 0.8 /\
  valid_weight 120 /\ valid_weight 180 /\
  Py.gt 2 0 = true /\ Py.le 2 3 = true /\ Py.le 120 180 = true /\
  (exists b1 b2,
     calculate_bac_value 2 120 FEMALE_R 0.8 1 = Ok b1 /\
     calculate_bac_value 3 120 FEMALE_R 0.8 1 = Ok b2 /\
     Py.le b1 b2 = true) /\
  (exists b1 b2,
     calculate_bac_value 2 120 FEMALE_R 0.8 1 = Ok b1 /\
     calculate_bac_value 2 180 FEMALE_R 0.8 1 = Ok b2 /\
     Py.ge b1 b2 = true).
Proof.
  assert (Hr : valid_r_value FEMALE_R) by (right; reflexivity).
  assert (Hf : valid_food_factor 0.8) by (right; left; reflexivity).
  assert (Hw1 : valid_weight 120) by (split; reflexivity).
  assert (Hw2 : valid_weight 180) by (split; reflexivity).
  repeat (split; [first [assumption|reflexivity]|]).
  split.
  - exact (proj1 (bac_monotone_in_alcohol_and_weight FEMALE_R 0.8 1 Hr Hf)
             120 2 3 Hw1 eq_refl eq_refl).
  - exact (proj2 (bac_monotone_in_alcohol_and_weight FEMALE_R 0.8 1 Hr Hf)
             2 120 180 eq_refl Hw1 Hw2 eq_refl).
Defined.

(** ** The drink list *)


Lemma list_pop_in_range {A} (l : list A) (i : Z) :
  (0 <= i < Z.of_nat (length l))%Z ->
  exists x, l !! Z.to_nat i = Some x /\
            Py.list_pop l i = Ok (x, delete (Z.to_nat i) l).
Proof.
  intros H. unfold Py.list_pop.
  destruct (Z.ltb_spec i 0); [lia|].
  destruct (Z.ltb_spec i 0); [lia|].
  destruct (Z.leb_spec (Z.of_nat (length l)) i); [lia|]. simpl.
  destruct (lookup_lt_is_Some_2 l (Z.to_nat i) ltac:(lia)) as [x Hx].
  exists x. rewrite Hx. split; reflexivity.
Qed.

Lemma list_pop_negative {A} (l : list A) (i : Z) :
  (- Z.of_nat (length l) <= i < 0)%Z ->
  exists x, l !! Z.to_nat (Z.of_nat (length l) + i) = Some x /\
            Py.list_pop l i = Ok (x, delete (Z.to_nat (Z.of_nat (length l) + i)) l).
Proof.
  intros H. unfold Py.list_pop.
  destruct (Z.ltb_spec i 0); [|lia].
  replace (i + Z.of_nat (length l))%Z with (Z.of_nat (length l) + i)%Z by lia.
  destruct (Z.ltb_spec (Z.of_nat (length l) + i) 0); [lia|].
  destruct (Z.leb_spec (Z.of_nat (length l)) (Z.of_nat (length l) + i)); [lia|]. simpl.
  destruct (lookup_lt_is_Some_2 l (Z.to_nat (Z.of_nat (length l) + i)) ltac:(lia)) as [x Hx].
  exists x. rewrite Hx. split; reflexivity.
Qed.

Lemma delete_removed_at {A} (k : nat) (l : list A) :
  k < length l -> removed_at k l (delete k l).
Proof.
  intros H. split; [exact H|]. split; [|split].
  - rewrite length_delete; [lia|]. apply lookup_lt_is_Some_2. exact H.
  - intros j Hj. apply list_lookup_delete_lt. exact Hj.
  - intros j Hj. apply list_lookup_delete_ge. exact Hj.
Qed.

(** C3, as amended.  For every drink list and every index [>= 0]:
    [remove_drink_callback] removes the element at that index when
    [index < length], and is a silent no-op (state unchanged, nothing
    raised) when [index >= length], as for index [5] on a list of two. *)
Theorem remove_drink_nonnegative_index (st : session_state) (index : Z) :
  (0 <= index)%Z ->
  ((index < Z.of_nat (length (drinks st)))%Z ->
   exists st',
     remove_drink_callback index st = Ok st' /\
     removed_at (Z.to_nat index) (drinks st) (drinks st') /\
     st' = set_drinks (delete (Z.to_nat index) (drinks st)) st) /\
  ((Z.of_nat (length (drinks st)) <= index)%Z ->
   remove_drink_callback index st = Ok st).
Proof.
  intros H0. unfold remove_drink_callback. split; intros H.
  - destruct (Z.ltb_spec index (Z.of_nat (length (drinks st)))); [|lia].
    destruct (list_pop_in_range (drinks st) index ltac:(lia)) as (x & Hx & ->).
    simpl. eexists. split; [reflexivity|]. split; [|reflexivity].
    simpl. apply delete_removed_at. lia.
  - destruct (Z.ltb_spec index (Z.of_nat (length (drinks st)))); [lia|reflexivity].
Qed.

Lemma remove_drink_nonnegative_index_witness :
  (0 <= 5)%Z /\ (Z.of_nat (length (drinks two_drinks)) <= 5)%Z /\
  remove_drink_callback 5 two_drinks = Ok two_drinks.
Proof.
  split; [lia|]. split; [simpl; lia|].
  apply (remove_drink_nonnegative_index two_drinks 5); simpl; lia.
Defined.

(** The indices [-1] and [-3] are outside [0 <= index < 2]; the first
    removes the last drink, the second raises. *)
Lemma remove_drink_negative_not_noop :
  ~ (0 <= -1 < Z.of_nat (length (drinks two_drinks)))%Z /\
  remove_drink_callback (-1) two_drinks = Ok (set_drinks [Drink 12 5] initial_state) /\
  drinks (set_drinks [Drink 12 5] initial_state) <> drinks two_drinks /\
  ~ (0 <= -3 < Z.of_nat (length (drinks two_drinks)))%Z /\
  remove_drink_callback (-3) two_drinks = Raise IndexError.
Proof.
  split; [simpl; lia|]. split; [reflexivity|]. split; [discriminate|].
  split; [simpl; lia|reflexivity].
Qed.

(** C10.  On a list of [n >= 1] drinks a negative index [i] with
    [-n <= i <= -1] is not a no-op: the element at position [n + i] is
    removed and the list is one shorter; index [-1] removes the last
    drink. *)
Theorem remove_drink_negative_index (st : session_state) (i : Z) :
  (1 <= Z.of_nat (length (drinks st)))%Z ->
  (- Z.of_nat (length (drinks st)) <= i <= -1)%Z ->
  exists st',
    remove_drink_callback i st = Ok st' /\
    removed_at (Z.to_nat (Z.of_nat (length (drinks st)) + i)) (drinks st) (drinks st') /\
    length (drinks st') = (length (drinks st) - 1)%nat /\
    (i = (-1)%Z -> drinks st' = removelast (drinks st)).
Proof.
  intros Hn Hi. unfold remove_drink_callback.
  destruct (Z.ltb_spec i (Z.of_nat (length (drinks st)))); [|lia].
  destruct (list_pop_negative (drinks st) i ltac:(lia)) as (x & Hx & ->).
  simpl. eexists. split; [reflexivity|]. simpl.
  pose proof (delete_removed_at (Z.to_nat (Z.of_nat (length (drinks st)) + i)) (drinks st)
                ltac:(lia)) as R.
  split; [exact R|]. split; [apply R|].
  intros ->. replace (Z.to_nat (Z.of_nat (length (drinks st)) + -1)) with (length (drinks st) - 1)%nat by lia.
  clear. induction (drinks st) as [|a [|b l] IH]; try reflexivity.
  simpl in *. rewrite Nat.sub_0_r in IH. rewrite IH. reflexivity.
Qed.

Lemma remove_drink_negative_index_witness :
  (1 <= Z.of_nat (length (drinks two_drinks)))%Z /\
  (- Z.of_nat (length (drinks two_drinks)) <= -1 <= -1)%Z /\
  exists st',
    remove_drink_callback (-1) two_drinks = Ok st' /\
    removed_at (Z.to_nat (Z.of_nat (length (drinks two_drinks)) + -1))
      (drinks two_drinks) (drinks st') /\
    length (drinks st') = (length (drinks two_drinks) - 1)%nat /\
    ((-1)%Z = (-1)%Z -> drinks st' = removelast (drinks two_drinks)).
Proof.
  split; [simpl; lia|]. split; [simpl; lia|].
  apply (remove_drink_negative_index two_drinks (-1)); simpl; lia.
Defined.

(** ** Monitoring state *)

Lemma set_drinks_monitoring l st :
  start_monitoring (set_drinks l st) = start_monitoring st /\
  monitoring_start_time (set_drinks l st) = monitoring_start_time st.
Proof. split; reflexivity. Qed.

Lemma perform_preserves_inv v a st st' :
  monitoring_inv st -> perform v a st = Ok st' -> monitoring_inv st'.
Proof.
  unfold monitoring_inv. intros I H.
  destruct a as [|index|i x|i x|h|now1 now2|]; simpl in H.
  - injection H as <-. exact I.
  - unfold remove_drink_callback in H.
    destruct (index <? _)%Z; [|injection H as <-; exact I].
    destruct (Py.list_pop (drinks st) index) as [[x l]|e]; simpl in H; [|discriminate].
    injection H as <-. exact I.
  - unfold set_drink_volume in H. destruct (drinks st !! i); [|discriminate].
    injection H as <-. exact I.
  - unfold set_drink_abv in H. destruct (drinks st !! i); [|discriminate].
    injection H as <-. exact I.
  - injection H as <-. exact I.
  - injection H as <-. unfold press_start. destruct (start_disabled v st); [exact I|].
    simpl. split; [reflexivity|discriminate].
  - injection H as <-. unfold press_stop. destruct (stop_disabled st); [exact I|].
    simpl. split; [intros C; now elim C|discriminate].
Qed.

(** C6.  The invariant "[monitoring_start_time] is set iff
    [start_monitoring] is true" holds in the initial state and is kept by
    every action on the session; Start sets the flag and the time stamp
    together, Stop clears both together. *)
Theorem monitoring_invariant :
  monitoring_inv initial_state /\
  (forall v a st st',
     monitoring_inv st -> perform v a st = Ok st' -> monitoring_inv st') /\
  (forall now1 now2 st,
     start_monitoring (on_start now1 now2 st) = true /\
     monitoring_start_time (on_start now1 now2 st) = Some now1 /\
     monitoring_inv (on_start now1 now2 st)) /\
  (forall st,
     start_monitoring (on_stop st) = false /\
     monitoring_start_time (on_stop st) = None /\
     monitoring_inv (on_stop st)).
Proof.
  split; [|split; [|split]].
  - unfold monitoring_inv. simpl. split; [intros C; now elim C|discriminate].
  - exact perform_preserves_inv.
  - intros. repeat split; try reflexivity. intros; discriminate.
  - intros. repeat split; try reflexivity.
    + intros C; now elim C.
    + discriminate.
Qed.

(** C7.  Stop followed at once by Start leaves
    [first_drink_offset_hours] and the drink list as they were, and sets
    [monitoring_start_time] to the new current time, so that the
    wall-clock part of the elapsed time read at that instant is zero. *)
Theorem stop_then_start_round_trip (st : session_state) (now1 now2 : datetime) :
  let st' := on_start now1 now2 (on_stop st) in
  first_drink_offset_hours st' = first_drink_offset_hours st /\
  drinks st' = drinks st /\
  start_monitoring st' = true /\
  monitoring_start_time st' = Some now1 /\
  time_since_monitor_start now1 now1 = 0 /\
  total_elapsed_hours now1 st' = Some (first_drink_offset_hours st + 0 / 3600).
Proof.
  cbv zeta. unfold total_elapsed_hours, time_since_monitor_start. simpl.
  rewrite Z.sub_diag. repeat split; reflexivity.
Qed.

Lemma press_stop_then_start v st now1 now2 :
  start_monitoring st = true ->
  (total_alcohol_oz v (drinks st) =? 0) = false ->
  press_start v now1 now2 (press_stop st) = on_start now1 now2 (on_stop st).
Proof.
  intros A T. unfold press_stop, stop_disabled. rewrite A. simpl.
  unfold press_start, start_disabled. simpl. rewrite T. reflexivity.
Qed.

Lemma SFadd_comm x y : SF64add x y = SF64add y x.
Proof.
  destruct x as [[]|[]| |sx mx ex], y as [[]|[]| |sy my ey]; try reflexivity.
  unfold SF64add, SFadd. rewrite (Z.min_comm ex ey), Z.add_comm. reflexivity.
Qed.

Lemma SFsub_diag s m e :
  SF64sub (S754_finite s m e) (S754_finite s m e) = SFz.
Proof. unfold SF64sub, SFsub. cbv zeta. rewrite Z.sub_diag. reflexivity. Qed.

Lemma SFadd_opp s m e :
  SF64add (S754_finite s m e) (S754_finite (negb s) m e) = SFz.
Proof.
  unfold SF64add, SFadd. cbv zeta.
  destruct s; simpl negb; unfold cond_Zopp; rewrite ?Z.add_opp_diag_l, ?Z.add_opp_diag_r;
    reflexivity.
Qed.

Lemma SFadd_opp_tf m e :
  SF64add (S754_finite true m e) (S754_finite false m e) = SFz.
Proof. exact (SFadd_opp true m e). Qed.

Lemma SFadd_opp_ft m e :
  SF64add (S754_finite false m e) (S754_finite true m e) = SFz.
Proof. exact (SFadd_opp false m e). Qed.

Lemma SFleb_abs_both m1 e1 m2 e2 :
  SFleb (S754_finite false m1 e1) (S754_finite false m2 e2) = true ->
  SFleb (S754_finite false m2 e2) (S754_finite false m1 e1) = true ->
  m1 = m2 /\ e1 = e2.
Proof.
  unfold SFleb, SFcompare.
  change (PosDef.Pos.compare_cont Eq m1 m2) with (Pos.compare m1 m2).
  change (PosDef.Pos.compare_cont Eq m2 m1) with (Pos.compare m2 m1).
  rewrite (Z.compare_antisym e1 e2), (Pos.compare_antisym m1 m2).
  destruct (Z.compare_spec e1 e2); simpl; try discriminate.
  destruct (Pos.compare_spec m1 m2); simpl; try discriminate. auto.
Qed.

Lemma SFcomp2_comm a b : SFsum2 a b = SFsum2 b a /\ SFcomp2 a b = SFcomp2 b a.
Proof.
  destruct a as [[]|[]| |sa ma ea], b as [[]|[]| |sb mb eb];
    try (split; reflexivity).
  all: unfold SFsum2, SFcomp2; cbv zeta.
  all: repeat match goal with
    | |- context [SF64add SFz (S754_finite ?s ?m ?e)] =>
        change (SF64add SFz (S754_finite s m e)) with (S754_finite s m e)
    | |- context [SF64add SFz (S754_zero ?s)] =>
        change (SF64add SFz (S754_zero s)) with SFz
    | |- context [SF64add (S754_finite ?s ?m ?e) (S754_zero ?s')] =>
        change (SF64add (S754_finite s m e) (S754_zero s')) with (S754_finite s m e)
    end.
  all: cbn [SFabs].
  all: try (change (SFleb (S754_finite false ma ea) SFz) with false; cbv iota).
  all: try (change (SFleb SFz (S754_finite false ma ea)) with true; cbv iota).
  all: try (change (SFleb (S754_finite false mb eb) SFz) with false; cbv iota).
  all: try (change (SFleb SFz (S754_finite false mb eb)) with true; cbv iota).
  all: rewrite ?SFsub_diag.
  all: try (split; reflexivity).
  all: rewrite (SFadd_comm (S754_finite sb mb eb) (S754_finite sa ma ea)).
  all: split; [reflexivity|].
  all: destruct (SFleb (S754_finite false mb eb) (S754_finite false ma ea)) eqn:L1;
       destruct (SFleb (S754_finite false ma ea) (S754_finite false mb eb)) eqn:L2;
       try reflexivity.
  all: try (apply SFleb_total in L1; [apply SFltb_SFleb in L1; congruence| |];
            unfold SFleb, SFcompare; rewrite Z.compare_refl;
            change (PosDef.Pos.compare_cont Eq ?m ?m) with (Pos.compare m m);
            rewrite Pos.compare_refl; reflexivity).
  all: destruct (SFleb_abs_both ma ea mb eb L2 L1) as [-> ->].
  all: destruct sa, sb; try reflexivity.
  all: rewrite ?SFadd_opp_tf, ?SFadd_opp_ft.
  all: change (SF64sub (S754_finite true mb eb) SFz) with (S754_finite true mb eb).
  all: change (SF64sub (S754_finite false mb eb) SFz) with (S754_finite false mb eb).
  all: rewrite ?SFadd_opp_tf, ?SFadd_opp_ft; reflexivity.
Qed.

Lemma Prim2SF_sum2 a b : Prim2SF (0 + a + b) = SFsum2 (Prim2SF a) (Prim2SF b).
Proof. unfold SFsum2. rewrite !add_spec, Prim2SF_zero. reflexivity. Qed.

Lemma sum2_comm a b : 0 + a + b = 0 + b + a.
Proof.
  apply Prim2SF_inj. rewrite !Prim2SF_sum2. apply SFcomp2_comm.
Qed.

Lemma neumaier_step_comm a b :
  neumaier_step (0 + a, 0) b = neumaier_step (0 + b, 0) a.
Proof.
  unfold neumaier_step. f_equal; [apply sum2_comm|].
  apply Prim2SF_inj.
  transitivity (SFcomp2 (Prim2SF a) (Prim2SF b)); [|rewrite (proj2 (SFcomp2_comm _ _)); symmetry].
  all: unfold SFcomp2, Py.ge; cbv zeta; rewrite leb_spec, !abs_spec, !add_spec, Prim2SF_zero.
  all: destruct (SFleb _ _); rewrite !add_spec, !sub_spec, !add_spec, Prim2SF_zero; reflexivity.
Qed.

Lemma py_sum_two_comm v a b : py_sum v [a; b] = py_sum v [b; a].
Proof.
  destruct v; unfold py_sum, sum_plain, sum_compensated; cbn [fold_left].
  - apply sum2_comm.
  - rewrite (neumaier_step_comm a b). reflexivity.
Qed.

(** C8, as amended.  The derived total is Python's [sum], taken in list
    order from [0], of the floats [volume * (abv / 100)]; before CPython
    3.12 that is the left-to-right chain of float additions.  The total
    does not depend on the order of the drinks when there are at most two
    of them. *)
Theorem total_alcohol_oz_sum (v : cpython) (ds : list drink) :
  total_alcohol_oz v ds = py_sum v (map (fun d => volume d * (abv d / 100)) ds) /\
  total_alcohol_oz Before312 ds
  = fold_left (fun acc d => acc + volume d * (abv d / 100)) ds 0 /\
  ((length ds <= 2)%nat ->
   forall ds', Permutation ds ds' -> total_alcohol_oz v ds' = total_alcohol_oz v ds).
Proof.
  split; [reflexivity|]. split.
  - unfold total_alcohol_oz, py_sum, sum_plain. generalize 0.
    induction ds as [|d ds IH]; intros acc; [reflexivity|]. simpl. apply IH.
  - intros Hlen ds' P.
    destruct ds as [|d1 [|d2 [|d3 ds]]]; simpl in Hlen; try lia.
    + apply Permutation_nil in P. subst. reflexivity.
    + apply Permutation_length_1_inv in P. subst. reflexivity.
    + apply Permutation_length_2_inv in P. destruct P as [->| ->]; [reflexivity|].
      unfold total_alcohol_oz. simpl map. apply py_sum_two_comm.
Qed.

Lemma total_alcohol_oz_sum_witness :
  (length [Drink 12 5; Drink 1.5 40] <= 2)%nat /\
  Permutation [Drink 12 5; Drink 1.5 40] [Drink 1.5 40; Drink 12 5] /\
  total_alcohol_oz From312 [Drink 1.5 40; Drink 12 5]
  = total_alcohol_oz From312 [Drink 12 5; Drink 1.5 40].
Proof.
  assert (L : (length [Drink 12 5; Drink 1.5 40] <= 2)%nat) by (simpl; lia).
  assert (P : Permutation [Drink 12 5; Drink 1.5 40] [Drink 1.5 40; Drink 12 5])
    by apply perm_swap.
  split; [exact L|]. split; [exact P|].
  exact (proj2 (proj2 (total_alcohol_oz_sum From312 [Drink 12 5; Drink 1.5 40])) L _ P).
Defined.

(** Three drinks of one ounce at 10, 20 and 30 percent, and four drinks
    at 100 percent of [1], [2^-53], [3 * 2^-108] and [3 * 2^-108] ounces:
    reversing the list changes the total, for the second list under both
    summation algorithms. *)
Lemma total_alcohol_oz_order_dependent :
  Permutation three_drinks (rev three_drinks) /\
  (total_alcohol_oz Before312 three_drinks
   =? total_alcohol_oz Before312 (rev three_drinks)) = false /\
  Permutation four_drinks (rev four_drinks) /\
  (total_alcohol_oz Before312 four_drinks
   =? total_alcohol_oz Before312 (rev four_drinks)) = false /\
  (total_alcohol_oz From312 four_drinks
   =? total_alcohol_oz From312 (rev four_drinks)) = false.
Proof.
  split; [apply Permutation_rev|]. split; [vm_compute; reflexivity|].
  split; [apply Permutation_rev|]. split; vm_compute; reflexivity.
Qed.

(** * Further properties of the script

    The remaining sections cover the parts of [bac_app.py] around the
    formula: the display code of the monitoring loop and of the idle page,
    the clock, the handlers of the drink list and the buttons. *)

(** ** More on binary64 rounding *)

Section Addition.
Local Open Scope R_scope.

Lemma SFout_valid s M E :
  (0 <= M < 2 ^ 53)%Z -> (-1074 <= E)%Z -> ((-1074 < E)%Z -> (2 ^ 52 <= M)%Z) ->
  valid64 (SFout s (M, E)) = true.
Proof.
  intros HM HE Hn. unfold SFout. cbn [fst snd].
  destruct M as [|m|m]; try reflexivity; try lia.
  destruct (Z.leb_spec E (emax - prec)) as [B|B]; [|reflexivity].
  simpl. unfold bounded, canonical_mantissa.
  apply andb_true_iff. split; [|apply Z.leb_le; exact B].
  apply Z.eqb_eq. rewrite fexp64_eq.
  pose proof (digits2_pos_bounds m) as [B1 B2].
  assert (Zpos (digits2_pos m) <= 53)%Z.
  { assert (2 ^ (Zpos (digits2_pos m) - 1) < 2 ^ 53)%Z by lia.
    apply Z.pow_lt_mono_r_iff in H; lia. }
  destruct (Z.eq_dec E (-1074)) as [->|Hne]; [lia|].
  specialize (Hn ltac:(lia)).
  assert (2 ^ 52 < 2 ^ Zpos (digits2_pos m))%Z by lia.
  apply Z.pow_lt_mono_r_iff in H0; lia.
Qed.

(** Whatever is produced by rounding is a binary64 value. *)
Lemma rounds_to_valid w o : rounds_to w o -> valid64 o = true.
Proof.
  intros [m e l v L P|m e l v L P]; rewrite binary_round_aux_out;
    destruct (round_core_spec _ _ _ _ L P) as (M & E & RA & ->);
    destruct (rounded_as_bounds _ _ _ RA) as [B N];
    assert (HE : (-1074 <= E)%Z) by (destruct RA as (? & ? & ? & ? & ?); assumption);
    unfold normalized;
    assert (P52 : (2 ^ 52 = 4503599627370496)%Z) by reflexivity;
    assert (P53 : (2 ^ 53 = 9007199254740992)%Z) by reflexivity;
    (destruct (Z.eqb_spec M (2 ^ 53)); apply SFout_valid; lia).
Qed.

Lemma SFadd_rounds_to x y :
  valid64 x = true -> valid64 y = true -> is_fin x = true -> is_fin y = true ->
  rounds_to (SF2R x + SF2R y) (SF64add x y).
Proof.
  destruct x as [sx|sx| |sx mx ex], y as [sy|sy| |sy my ey]; simpl is_fin;
    try discriminate; intros Vx Vy _ _; unfold SF64add, SFadd.
  - replace (SF2R _ + SF2R _) with 0 by (simpl; lra).
    destruct sx, sy;
      match goal with |- rounds_to 0 (S754_zero ?s) =>
        change 0 with (SF2R (S754_zero s)); apply valid_rounds_to; reflexivity
      | |- rounds_to 0 (if _ then S754_zero ?s else _) =>
        change 0 with (SF2R (S754_zero s)); apply valid_rounds_to; reflexivity end.
  - replace (SF2R _ + SF2R _) with (SF2R (S754_finite sy my ey)) by (simpl; lra).
    apply valid_rounds_to; [exact Vy|reflexivity].
  - replace (SF2R _ + SF2R _) with (SF2R (S754_finite sx mx ex)) by (simpl; lra).
    apply valid_rounds_to; [exact Vx|reflexivity].
  - cbv zeta.
    rewrite <- (aligned_value sx mx ex (Z.min ex ey)) by lia.
    rewrite <- (aligned_value sy my ey (Z.min ex ey)) by lia.
    rewrite <- Rmult_plus_distr_r, <- plus_IZR.
    apply binary_normalize_rounds_to.
Qed.

(** The order of two finite floats is the order of their values. *)
Lemma SF2R_SFleb x y :
  valid64 x = true -> valid64 y = true -> is_fin x = true -> is_fin y = true ->
  SF2R x <= SF2R y -> SFleb x y = true.
Proof.
  intros Vx Vy Fx Fy H.
  eapply rounds_to_mono; [apply valid_rounds_to|apply valid_rounds_to|]; eauto.
Qed.

Lemma SFleb_trans x y z :
  valid64 x = true -> valid64 y = true -> valid64 z = true ->
  SFleb x y = true -> SFleb y z = true -> SFleb x z = true.
Proof.
  intros Vx Vy Vz Hxy Hyz.
  destruct (is_fin x && is_fin y && is_fin z) eqn:F.
  - apply andb_true_iff in F. destruct F as [F Fz].
    apply andb_true_iff in F. destruct F as [Fx Fy].
    pose proof (SFleb_SF2R _ _ Vx Vy Fx Fy Hxy).
    pose proof (SFleb_SF2R _ _ Vy Vz Fy Fz Hyz).
    apply SF2R_SFleb; auto. lra.
  - destruct x as [sx|[]| |[] mx ex]; try discriminate Hxy;
    destruct y as [sy|[]| |[] my ey]; try discriminate Hxy; try discriminate Hyz;
    destruct z as [sz|[]| |[] mz ez]; try discriminate Hyz; try discriminate F;
    reflexivity.
Qed.

Lemma SFleb_refl_of_ge x y : SFleb x y = true -> SFleb x x = true.
Proof.
  intros H. destruct (SFleb_refl_or_nan x) as [R|R]; [exact R|].
  rewrite R in H. discriminate.
Qed.

Lemma SFltb_SFleb_trans x y z :
  valid64 x = true -> valid64 y = true -> valid64 z = true ->
  SFltb x y = true -> SFleb y z = true -> SFltb x z = true.
Proof.
  intros Vx Vy Vz Hxy Hyz.
  pose proof (SFleb_refl_of_ge _ _ (SFltb_SFleb _ _ Hxy)) as Hx.
  pose proof (SFleb_refl_of_le _ _ Hyz) as Hz.
  destruct (SFleb z x) eqn:Hzx.
  - pose proof (SFleb_trans _ _ _ Vy Vz Vx Hyz Hzx) as Hyx.
    rewrite (SFltb_not_SFleb _ _ Hxy) in Hyx. discriminate.
  - apply SFleb_total; assumption.
Qed.

Lemma SFleb_SFltb_trans x y z :
  valid64 x = true -> valid64 y = true -> valid64 z = true ->
  SFleb x y = true -> SFltb y z = true -> SFltb x z = true.
Proof.
  intros Vx Vy Vz Hxy Hyz.
  pose proof (SFleb_refl_of_ge x y Hxy) as Hx.
  assert (Hz : SFleb z z = true) by (apply (SFleb_refl_of_le y), SFltb_SFleb, Hyz).
  destruct (SFleb z x) eqn:Hzx.
  - pose proof (SFleb_trans _ _ _ Vz Vx Vy Hzx Hxy) as Hzy.
    rewrite (SFltb_not_SFleb _ _ Hyz) in Hzy. discriminate.
  - apply SFleb_total; assumption.
Qed.

(** Adding to a finite float is monotone. *)
Lemma SFadd_mono_r x y1 y2 :
  valid64 x = true -> is_fin x = true -> valid64 y1 = true -> valid64 y2 = true ->
  SFleb y1 y2 = true -> SFleb (SF64add x y1) (SF64add x y2) = true.
Proof.
  intros Vx Fx V1 V2 H.
  destruct (is_fin y1) eqn:F1; destruct (is_fin y2) eqn:F2.
  - pose proof (SFleb_SF2R _ _ V1 V2 F1 F2 H).
    eapply rounds_to_mono; [apply SFadd_rounds_to|apply SFadd_rounds_to|]; auto. lra.
  - pose proof (SFadd_rounds_to _ _ Vx V1 Fx F1) as R1. apply rounds_to_nonnan in R1.
    destruct y2 as [s|[]| |s m e]; try discriminate; destruct y1 as [s1|s1| |s1 m1 e1];
      try discriminate; destruct x as [sx|sx| |sx mx ex]; try discriminate; apply R1.
  - pose proof (SFadd_rounds_to _ _ Vx V2 Fx F2) as R2. apply rounds_to_nonnan in R2.
    destruct y1 as [s|[]| |s m e]; try discriminate; destruct y2 as [s2|s2| |s2 m2 e2];
      try discriminate; destruct x as [sx|sx| |sx mx ex]; try discriminate; apply R2.
  - destruct y1 as [s|[]| |s m e]; try discriminate; destruct y2 as [s2|[]| |s2 m2 e2];
      try discriminate; destruct x as [sx|sx| |sx mx ex]; try discriminate; reflexivity.
Qed.

Lemma SFadd_zero_r x :
  valid64 x = true -> is_fin x = true ->
  SFleb x (SF64add x (S754_zero false)) = true /\
  SFleb (SF64add x (S754_zero false)) x = true.
Proof.
  intros Vx Fx.
  pose proof (SFadd_rounds_to x (S754_zero false) Vx eq_refl Fx eq_refl) as R.
  pose proof (valid_rounds_to x Vx Fx) as R0.
  split; eapply rounds_to_mono; eauto; simpl; lra.
Qed.

(** The sum of two non-negative floats is at least each of them. *)
Lemma SFadd_nonneg a b :
  valid64 a = true -> valid64 b = true ->
  SFleb (S754_zero false) a = true -> SFleb (S754_zero false) b = true ->
  SFleb a (SF64add a b) = true /\ SFleb b (SF64add a b) = true.
Proof.
  intros Va Vb La Lb.
  destruct (is_fin a) eqn:Fa; destruct (is_fin b) eqn:Fb.
  - pose proof (SFleb_SF2R (S754_zero false) a eq_refl Va eq_refl Fa La) as Ra.
    pose proof (SFleb_SF2R (S754_zero false) b eq_refl Vb eq_refl Fb Lb) as Rb.
    simpl SF2R in Ra, Rb.
    pose proof (SFadd_rounds_to a b Va Vb Fa Fb) as S.
    pose proof (valid_rounds_to a Va Fa). pose proof (valid_rounds_to b Vb Fb).
    split; eapply rounds_to_mono; eauto; lra.
  - destruct b as [s|[]| |s m e]; try discriminate;
      destruct a as [sa|[]| |[] ma ea]; try discriminate; split; reflexivity.
  - destruct a as [s|[]| |s m e]; try discriminate;
      destruct b as [sb|[]| |[] mb eb]; try discriminate; split; reflexivity.
  - destruct a as [s|[]| |s m e]; try discriminate;
      destruct b as [sb|[]| |sb mb eb]; try discriminate; split; reflexivity.
Qed.

(** Products of floats within non-negative finite bounds. *)
Lemma SFmul_bounds a b A B :
  valid64 a = true -> valid64 b = true -> valid64 A = true -> valid64 B = true ->
  is_fin a = true -> is_fin b = true -> is_fin A = true -> is_fin B = true ->
  SFleb (S754_zero false) a = true -> SFleb a A = true ->
  SFleb (S754_zero false) b = true -> SFleb b B = true ->
  SFleb (S754_zero false) (SF64mul a b) = true /\
  SFleb (SF64mul a b) (SF64mul A B) = true.
Proof.
  intros Va Vb VA VB Fa Fb FA FB La Ua Lb Ub.
  pose proof (SFleb_SF2R (S754_zero false) a eq_refl Va eq_refl Fa La) as Ra.
  pose proof (SFleb_SF2R _ _ Va VA Fa FA Ua) as Ra'.
  pose proof (SFleb_SF2R (S754_zero false) b eq_refl Vb eq_refl Fb Lb) as Rb.
  pose proof (SFleb_SF2R _ _ Vb VB Fb FB Ub) as Rb'.
  simpl SF2R in Ra, Rb.
  pose proof (SFmul_rounds_to a b Va Vb Fa Fb) as M.
  pose proof (SFmul_rounds_to A B VA VB FA FB) as M'.
  pose proof (valid_rounds_to (S754_zero false) eq_refl eq_refl) as Z. simpl SF2R in Z.
  split; eapply rounds_to_mono; eauto; nra.
Qed.

(** [total_seconds] is the correctly rounded quotient. *)
Lemma total_seconds_rounds_to us :
  rounds_to (IZR us / 1000000) (Prim2SF (total_seconds us)).
Proof.
  assert (D : forall (s : bool) p,
    let '(q, e, l) := SFdiv_core_binary prec emax (Zpos p) 0 1000000 0 in
    rounds_to (if s then - (IZR (Zpos p) / 1000000) else IZR (Zpos p) / 1000000)
              (bra s q e l)).
  { intros s p. destruct (SFdiv_core_spec p 0 1000000 0) as (q & e & l & -> & L & P).
    apply (rounds_to_intro s q e l _ _ _ L P); [|reflexivity].
    rewrite bpow_0. destruct s; f_equal; field. }
  destruct us as [|p|p]; unfold total_seconds.
  - replace (IZR 0 / 1000000) with (SF2R (S754_zero false)) by (simpl; lra).
    apply valid_rounds_to; reflexivity.
  - specialize (D false p). change (Z.abs (Zpos p)) with (Zpos p).
    change (Zpos p <? 0)%Z with false.
    destruct (SFdiv_core_binary prec emax (Zpos p) 0 1000000 0) as [[q e] l].
    rewrite Prim2SF_SF2Prim; [exact D|]. exact (rounds_to_valid _ _ D).
  - specialize (D true p). change (Z.abs (Zneg p)) with (Zpos p).
    change (Zneg p <? 0)%Z with true.
    destruct (SFdiv_core_binary prec emax (Zpos p) 0 1000000 0) as [[q e] l].
    replace (IZR (Zneg p) / 1000000) with (- (IZR (Zpos p) / 1000000)).
    + rewrite Prim2SF_SF2Prim; [exact D|]. exact (rounds_to_valid _ _ D).
    + change (Zneg p) with (- Zpos p)%Z. rewrite opp_IZR. field.
Qed.

Lemma total_seconds_mono us1 us2 :
  (us1 <= us2)%Z -> (total_seconds us1 <=? total_seconds us2)%float = true.
Proof.
  intros H. rewrite leb_spec.
  eapply rounds_to_mono; [apply total_seconds_rounds_to|apply total_seconds_rounds_to|].
  apply IZR_le in H. lra.
Qed.

End Addition.

(** ** The order on floats, at the level of the primitive operations *)

Lemma leb_trans a b c :
  (a <=? b) = true -> (b <=? c) = true -> (a <=? c) = true.
Proof.
  rewrite !leb_spec. apply SFleb_trans; apply Prim2SF_valid.
Qed.

Lemma ltb_leb_trans a b c :
  (a <? b) = true -> (b <=? c) = true -> (a <? c) = true.
Proof.
  rewrite !leb_spec, !ltb_spec. apply SFltb_SFleb_trans; apply Prim2SF_valid.
Qed.

Lemma leb_ltb_trans a b c :
  (a <=? b) = true -> (b <? c) = true -> (a <? c) = true.
Proof.
  rewrite !leb_spec, !ltb_spec. apply SFleb_SFltb_trans; apply Prim2SF_valid.
Qed.

Lemma leb_refl_l x y : (x <=? y) = true -> (x <=? x) = true.
Proof. rewrite !leb_spec. apply SFleb_refl_of_ge. Qed.

Lemma leb_refl_r x y : (x <=? y) = true -> (y <=? y) = true.
Proof. rewrite !leb_spec. apply SFleb_refl_of_le. Qed.

Lemma leb_of_not_ltb x y :
  (x <=? x) = true -> (y <=? y) = true -> (y <? x) = false -> (x <=? y) = true.
Proof.
  rewrite !leb_spec, ltb_spec. intros Hx Hy H.
  destruct (SFleb (Prim2SF x) (Prim2SF y)) eqn:L; [reflexivity|].
  rewrite (SFleb_total _ _ Hx Hy L) in H. discriminate.
Qed.

Lemma leb_antisym_one q : (1 <=? q) = true -> (q <=? 1) = true -> q = 1.
Proof.
  rewrite !leb_spec. intros A B. apply Prim2SF_inj.
  change (Prim2SF 1) with (S754_finite false 4503599627370496 (-52)) in *.
  destruct (Prim2SF q) as [s|[]| |[] m e]; try discriminate.
  destruct (SFleb_abs_both _ _ _ _ A B) as [<- <-]. reflexivity.
Qed.

(** A float between two finite floats is finite. *)
Lemma is_fin_between c1 c2 y :
  is_fin (Prim2SF c1) = true -> is_fin (Prim2SF c2) = true ->
  (c1 <=? y) = true -> (y <=? c2) = true -> is_fin (Prim2SF y) = true.
Proof.
  rewrite !leb_spec.
  destruct (Prim2SF c1) as [s1|[]| |s1 m1 e1]; try discriminate;
  destruct (Prim2SF c2) as [s2|[]| |s2 m2 e2]; try discriminate;
  destruct (Prim2SF y) as [s|[]| |s m e]; try discriminate; try reflexivity;
  intros _ _ L U; try discriminate; try (destruct s1; discriminate); try (destruct s2; discriminate).
Qed.

Lemma add_le_mono_r x y1 y2 :
  is_fin (Prim2SF x) = true -> (y1 <=? y2) = true -> (x + y1 <=? x + y2) = true.
Proof.
  intros F H. rewrite leb_spec in *. rewrite !add_spec.
  apply SFadd_mono_r; auto using Prim2SF_valid.
Qed.

Lemma add_zero_r x :
  is_fin (Prim2SF x) = true -> (x <=? x + 0) = true /\ (x + 0 <=? x) = true.
Proof.
  intros F. rewrite !leb_spec, !add_spec, Prim2SF_zero.
  apply SFadd_zero_r; auto using Prim2SF_valid.
Qed.

Lemma add_nonneg a b :
  (0 <=? a) = true -> (0 <=? b) = true ->
  (a <=? a + b) = true /\ (b <=? a + b) = true.
Proof.
  intros La Lb. rewrite !leb_spec in *. rewrite Prim2SF_zero in *. rewrite add_spec.
  apply SFadd_nonneg; auto using Prim2SF_valid.
Qed.

Lemma mul_bounds a b A B :
  is_fin (Prim2SF A) = true -> is_fin (Prim2SF B) = true ->
  (0 <=? a) = true -> (a <=? A) = true -> (0 <=? b) = true -> (b <=? B) = true ->
  (0 <=? a * b) = true /\ (a * b <=? A * B) = true.
Proof.
  intros FA FB La Ua Lb Ub.
  pose proof (is_fin_between 0 A a eq_refl FA La Ua) as Fa.
  pose proof (is_fin_between 0 B b eq_refl FB Lb Ub) as Fb.
  rewrite !leb_spec in *. rewrite !mul_spec. rewrite Prim2SF_zero in *.
  apply SFmul_bounds; auto using Prim2SF_valid.
Qed.

Lemma eqb_zero_cases x : (x =? 0) = true -> x = 0 \/ x = neg_zero.
Proof.
  rewrite FloatAxioms.eqb_spec, Prim2SF_zero. intros H.
  rewrite <- (SF2Prim_Prim2SF x).
  destruct (Prim2SF x) as [[]|[]| |[] m e]; try discriminate; auto.
Qed.

Lemma nonneg_not_pos_zero x : (0 <=? x) = true -> (0 <? x) = false -> (x =? 0) = true.
Proof.
  rewrite leb_spec, ltb_spec, FloatAxioms.eqb_spec, Prim2SF_zero.
  destruct (Prim2SF x) as [s|[]| |[] m e]; try discriminate; reflexivity.
Qed.

Lemma pos_not_zero x : (0 <? x) = true -> (x =? 0) = false.
Proof.
  rewrite ltb_spec, FloatAxioms.eqb_spec, Prim2SF_zero.
  destruct (Prim2SF x) as [s|[]| |[] m e]; try discriminate; reflexivity.
Qed.

(** ** The estimate on arbitrary inputs *)

Lemma calculate_bac_value_nonneg t w r f h b :
  calculate_bac_value t w r f h = Ok b -> Py.ge b 0 = true.
Proof.
  unfold calculate_bac_value, Py.truediv, Py.ge.
  destruct (Py.le t 0); [intros [= <-]; reflexivity|].
  destruct (w * r =? 0); [discriminate|]. simpl. intros [= <-].
  apply max_zero_nonneg.
Qed.

(** X1.  On arbitrary floats, infinities and NaN included,
    [calculate_bac_value] has two outcomes only.  It raises
    [ZeroDivisionError] exactly when [total_alcohol_oz <= 0] is false and
    the product [weight_lbs * r_value] is zero; it raises nothing else.
    Whenever it returns, the result is [>= 0.0]: it is never negative and
    never NaN. *)
Theorem calculate_bac_value_outcomes t w r f h :
  (calculate_bac_value t w r f h = Raise ZeroDivisionError <->
   Py.le t 0 = false /\ (w * r =? 0) = true) /\
  calculate_bac_value t w r f h <> Raise IndexError /\
  (forall b, calculate_bac_value t w r f h = Ok b ->
             Py.ge b 0 = true /\ Py.lt b 0 = false /\ PrimFloat.is_nan b = false).
Proof.
  split; [|split].
  - unfold calculate_bac_value, Py.truediv.
    destruct (Py.le t 0); [split; [discriminate|intros [? _]; discriminate]|].
    destruct (w * r =? 0); simpl; split; auto; try discriminate.
    intros [_ ?]; discriminate.
  - unfold calculate_bac_value, Py.truediv.
    destruct (Py.le t 0); [discriminate|]. destruct (w * r =? 0); discriminate.
  - intros b H. pose proof (calculate_bac_value_nonneg _ _ _ _ _ _ H) as N.
    split; [exact N|]. unfold Py.ge, Py.lt, PrimFloat.is_nan in *.
    rewrite leb_spec in N. rewrite ltb_spec, FloatAxioms.eqb_spec, Prim2SF_zero in *.
    destruct (Prim2SF b) as [s|[]| |[] m e]; try discriminate; split; try reflexivity.
    unfold SFeqb, SFcompare. rewrite Z.compare_refl.
    change (PosDef.Pos.compare_cont Eq m m) with (Pos.compare m m).
    rewrite Pos.compare_refl. reflexivity.
Qed.

(** ** The classifier on arbitrary inputs *)

Lemma not_pos_not_ge b :
  SFltb (S754_zero false) b = false ->
  SFleb SF_008 b = false /\ SFleb SF_005 b = false.
Proof.
  intros H. split.
  - destruct (SFleb SF_008 b) eqn:A; [|reflexivity].
    apply SFleb_008_005, SFltb_SFleb, SFleb_005_pos in A. congruence.
  - destruct (SFleb SF_005 b) eqn:A; [|reflexivity].
    apply SFleb_005_pos in A. congruence.
Qed.

(** X2.  [get_bac_status] answers "Sober" exactly when [bac > 0.0] is
    false.  That covers [0.0] and [-0.0], and also every input outside the
    range the thresholds were written for: each negative number and NaN
    are classified Sober as well. *)
Theorem get_bac_status_sober_iff bac :
  (get_bac_status bac = ("Sober - Enjoy responsibly!", "success", "🧘")%string
   <-> Py.gt bac 0 = false) /\
  (Py.lt bac 0 = true ->
   get_bac_status bac = ("Sober - Enjoy responsibly!", "success", "🧘")%string) /\
  (PrimFloat.is_nan bac = true ->
   get_bac_status bac = ("Sober - Enjoy responsibly!", "success", "🧘")%string).
Proof.
  assert (K : Py.gt bac 0 = false ->
    get_bac_status bac = ("Sober - Enjoy responsibly!", "success", "🧘")%string).
  { unfold get_bac_status, Py.ge, Py.gt. rewrite !leb_spec, ltb_spec.
    change (Prim2SF 0.08) with SF_008. change (Prim2SF 0.05) with SF_005.
    rewrite Prim2SF_zero. intros H.
    destruct (not_pos_not_ge _ H) as [-> ->]. rewrite H. reflexivity. }
  split; [split; [|exact K]|split].
  - unfold get_bac_status.
    destruct (Py.ge bac 0.08); [discriminate|].
    destruct (Py.ge bac 0.05); [discriminate|].
    destruct (Py.gt bac 0); [discriminate|reflexivity].
  - intros H. apply K. unfold Py.lt, Py.gt in *. rewrite ltb_spec in *.
    rewrite Prim2SF_zero in *.
    destruct (Prim2SF bac) as [s|[]| |[] m e]; try discriminate; reflexivity.
  - intros H. apply K. unfold PrimFloat.is_nan, Py.gt in *.
    rewrite ltb_spec, Prim2SF_zero. rewrite FloatAxioms.eqb_spec in H.
    destruct (Prim2SF bac) as [s|[]| |[] m e]; try reflexivity; exfalso;
      unfold SFeqb, SFcompare in H; try discriminate;
      rewrite Z.compare_refl in H;
      change (PosDef.Pos.compare_cont Eq m m) with (Pos.compare m m) in H;
      rewrite Pos.compare_refl in H; discriminate.
Qed.

Lemma severity_rank_le b1 b2 :
  (b1 <=? b2) = true ->
  (severity_rank (status_severity (get_bac_status b1))
   <= severity_rank (status_severity (get_bac_status b2)))%nat.
Proof.
  unfold get_bac_status, Py.ge, Py.gt. rewrite !leb_spec, !ltb_spec.
  change (Prim2SF 0.08) with SF_008. change (Prim2SF 0.05) with SF_005.
  rewrite Prim2SF_zero.
  pose proof (Prim2SF_valid b1) as V1. pose proof (Prim2SF_valid b2) as V2.
  set (x1 := Prim2SF b1) in *. set (x2 := Prim2SF b2) in *. intros H.
  destruct (SFleb SF_008 x1) eqn:A1.
  { rewrite (SFleb_trans SF_008 x1 x2 eq_refl V1 V2 A1 H). apply le_n. }
  destruct (SFleb SF_005 x1) eqn:B1.
  { rewrite (SFleb_trans SF_005 x1 x2 eq_refl V1 V2 B1 H).
    destruct (SFleb SF_008 x2); vm_compute; lia. }
  destruct (SFltb (S754_zero false) x1) eqn:P1.
  { rewrite (SFltb_SFleb_trans (S754_zero false) x1 x2 eq_refl V1 V2 P1 H).
    destruct (SFleb SF_008 x2); [vm_compute; lia|].
    destruct (SFleb SF_005 x2); vm_compute; lia. }
  destruct (SFleb SF_008 x2); [vm_compute; lia|].
  destruct (SFleb SF_005 x2); [vm_compute; lia|].
  destruct (SFltb (S754_zero false) x2); vm_compute; lia.
Qed.

(** X3.  The classification is monotone: a larger BAC never gets a
    milder status.  With the severities ranked Success < Info < Warning <
    Danger, [b1 <= b2] gives rank(b1) <= rank(b2); so a value above one
    classified Danger is Danger, and a value below one classified Success
    is Success. *)
Theorem status_severity_monotone b1 b2 :
  Py.le b1 b2 = true ->
  (severity_rank (status_severity (get_bac_status b1))
   <= severity_rank (status_severity (get_bac_status b2)))%nat /\
  (status_severity (get_bac_status b1) = Danger ->
   status_severity (get_bac_status b2) = Danger) /\
  (status_severity (get_bac_status b2) = Success ->
   status_severity (get_bac_status b1) = Success).
Proof.
  intros H. pose proof (severity_rank_le b1 b2 H) as R.
  split; [exact R|].
  destruct (status_severity (get_bac_status b1)), (status_severity (get_bac_status b2));
    simpl in R; split; intros E; try reflexivity; try discriminate; lia.
Qed.

Lemma status_severity_monotone_witness :
  Py.le 0.03 0.06 = true /\
  (severity_rank (status_severity (get_bac_status 0.03))
   <= severity_rank (status_severity (get_bac_status 0.06)))%nat.
Proof.
  split; [reflexivity|].
  exact (proj1 (status_severity_monotone 0.03 0.06 eq_refl)).
Defined.

(** ** The gauge *)

Lemma pos_finite_gauge_max : pos_finite 0.20.
Proof. eexists; eexists; vm_compute; reflexivity. Qed.

Lemma gauge_value_eq bac : gauge_value bac = Ok (Py.min (bac / 0.20) 1).
Proof. reflexivity. Qed.

Lemma min_one_le q :
  (q <=? q) = true -> (Py.min q 1 <=? 1) = true /\ (Py.min q 1 <=? q) = true.
Proof.
  intros Hq. unfold Py.min, Py.lt. destruct (1 <? q) eqn:L.
  - split; [reflexivity|]. rewrite leb_spec. rewrite ltb_spec in L. apply SFltb_SFleb, L.
  - split; [|exact Hq]. apply leb_of_not_ltb; [exact Hq|reflexivity|exact L].
Qed.

Lemma min_one_mono q q' :
  (q <=? q') = true -> (Py.min q 1 <=? Py.min q' 1) = true.
Proof.
  intros H. pose proof (leb_refl_l _ _ H) as Hq. pose proof (leb_refl_r _ _ H) as Hq'.
  destruct (min_one_le q Hq) as [A B].
  unfold Py.min at 2. unfold Py.lt. destruct (1 <? q') eqn:L'; [exact A|].
  exact (leb_trans _ _ _ B H).
Qed.

(** X4.  For every [bac >= 0.0] the gauge value
    [min(bac / 0.20, 1.0)] is computed without an exception and lies in
    [[0.0, 1.0]], the range [st.progress] accepts.  It is exactly [1.0]
    as soon as [bac >= 0.20], and it is monotone in [bac]. *)
Theorem gauge_value_range bac :
  Py.ge bac 0 = true ->
  exists g,
    gauge_value bac = Ok g /\
    Py.le 0 g = true /\ Py.le g 1 = true /\
    (Py.ge bac 0.20 = true -> g = 1) /\
    (forall bac' g', Py.le bac bac' = true -> gauge_value bac' = Ok g' ->
                     Py.le g g' = true).
Proof.
  unfold Py.ge, Py.le. intros H. exists (Py.min (bac / 0.20) 1).
  split; [reflexivity|].
  assert (Q : (0 <=? bac / 0.20) = true).
  { change 0 with (0 / 0.20) at 1.
    apply div_le_mono_num; [apply pos_finite_gauge_max|exact H]. }
  pose proof (leb_refl_r _ _ Q) as Hq.
  destruct (min_one_le _ Hq) as [A B].
  split; [|split; [exact A|split]].
  - unfold Py.min, Py.lt. destruct (1 <? bac / 0.20); [reflexivity|exact Q].
  - intros S.
    assert (Q1 : (1 <=? bac / 0.20) = true).
    { change 1 with (0.20 / 0.20) at 1.
      apply div_le_mono_num; [apply pos_finite_gauge_max|exact S]. }
    unfold Py.min, Py.lt in *. destruct (1 <? bac / 0.20) eqn:L; [reflexivity|].
    apply leb_antisym_one; assumption.
  - intros bac' g' L E. rewrite gauge_value_eq in E. injection E as <-.
    apply min_one_mono, div_le_mono_num; [apply pos_finite_gauge_max|exact L].
Qed.

Lemma gauge_value_range_witness :
  Py.ge 0.1 0 = true /\
  exists g, gauge_value 0.1 = Ok g /\ Py.le 0 g = true /\ Py.le g 1 = true.
Proof.
  split; [reflexivity|].
  destruct (gauge_value_range 0.1 eq_refl) as (g & E & L & U & _).
  exists g. repeat split; assumption.
Defined.

(** ** What is displayed *)

Ltac status_cases bac :=
  unfold monitoring_status_panel, idle_status_panel, bac_color, get_bac_status,
    status_severity, status_color;
  unfold Py.ge, Py.gt; rewrite ?leb_spec, ?ltb_spec;
  change (Prim2SF 0.08) with SF_008; change (Prim2SF 0.05) with SF_005;
  rewrite ?Prim2SF_zero;
  let A := fresh "A" in let B := fresh "B" in let P := fresh "P" in
  destruct (SFleb SF_008 (Prim2SF bac)) eqn:A;
  [pose proof (SFltb_SFleb _ _ (SFleb_008_005 _ A)) as B; rewrite ?B
  |destruct (SFleb SF_005 (Prim2SF bac)) eqn:B;
   [|destruct (SFltb (S754_zero false) (Prim2SF bac)) eqn:P]].

(** X5.  The status panel of the monitoring loop is the panel of the
    idle page with images added: dropping the images from the first gives
    the second, which is always exactly one banner.  An image is shown
    exactly when [bac >= 0.05]; and the test [current_bac >= 0.08] nested
    in the danger branch never fails, so the "Do Not Drive!" image
    accompanies every danger banner. *)
Theorem status_panels bac :
  List.filter (fun x => negb (is_image x)) (monitoring_status_panel bac)
  = idle_status_panel bac /\
  length (idle_status_panel bac) = 1%nat /\
  existsb is_image (monitoring_status_panel bac) = Py.ge bac 0.05 /\
  (In (St_error "🚨 Legal Limit Exceeded - DO NOT DRIVE!") (monitoring_status_panel bac) ->
   In (St_image "https://i.imgur.com/rN9e9G8.png" "Do Not Drive!" 150)
      (monitoring_status_panel bac)).
Proof.
  status_cases bac; cbn; repeat split; try reflexivity; intros H;
    intuition discriminate || auto.
Qed.

(** X6.  The colour of the BAC figure agrees with the banner: the figure
    is red exactly when the status is Danger, orange exactly when it is
    Warning, and green exactly when it is Info or Success. *)
Theorem bac_color_agrees bac :
  (bac_color bac = "red"%string <-> status_severity (get_bac_status bac) = Danger) /\
  (bac_color bac = "orange"%string <-> status_severity (get_bac_status bac) = Warning) /\
  (bac_color bac = "green"%string <->
   status_severity (get_bac_status bac) = Info \/
   status_severity (get_bac_status bac) = Success).
Proof.
  status_cases bac; cbn; repeat split; intros H; try discriminate; try reflexivity;
    try (destruct H; discriminate); auto.
Qed.

(** ** Elapsed time *)

Lemma total_seconds_one_pos : (0 <? total_seconds 1) = true.
Proof. vm_compute. reflexivity. Qed.

Lemma total_seconds_minus_one_neg : (total_seconds (-1) <? 0) = true.
Proof. vm_compute. reflexivity. Qed.

(** X7.  [total_seconds] preserves the order of time differences and
    their sign: a later instant never gives fewer seconds, a positive
    difference gives strictly positive seconds (one microsecond does not
    round to zero) and a negative difference strictly negative ones. *)
Theorem total_seconds_order us1 us2 :
  (us1 <= us2)%Z ->
  Py.le (total_seconds us1) (total_seconds us2) = true /\
  ((0 <= us1)%Z -> Py.le 0 (total_seconds us1) = true) /\
  ((0 < us1)%Z -> Py.lt 0 (total_seconds us1) = true) /\
  ((us2 <= 0)%Z -> Py.le (total_seconds us2) 0 = true) /\
  ((us2 < 0)%Z -> Py.lt (total_seconds us2) 0 = true).
Proof.
  intros H. unfold Py.le, Py.lt.
  split; [apply total_seconds_mono, H|]. split; [|split; [|split]].
  - intros P. exact (total_seconds_mono 0 us1 P).
  - intros P. apply (ltb_leb_trans 0 (total_seconds 1) _ total_seconds_one_pos).
    apply total_seconds_mono. lia.
  - intros P. exact (total_seconds_mono us2 0 P).
  - intros P.
    apply (leb_ltb_trans _ (total_seconds (-1)) 0); [|exact total_seconds_minus_one_neg].
    apply total_seconds_mono. lia.
Qed.

Lemma total_seconds_order_witness :
  (1500000 <= 90000000)%Z /\
  Py.le (total_seconds 1500000) (total_seconds 90000000) = true.
Proof.
  assert (H : (1500000 <= 90000000)%Z) by lia.
  split; [exact H|]. exact (proj1 (total_seconds_order 1500000 90000000 H)).
Defined.

(** ** The monitoring loop *)

Lemma pos_finite_3600 : pos_finite 3600.
Proof. eexists; eexists; vm_compute; reflexivity. Qed.

Lemma valid_offset_finite h : valid_offset h -> is_fin (Prim2SF h) = true.
Proof. intros [L U]. exact (is_fin_between 0 24 h eq_refl eq_refl L U). Qed.

Lemma elapsed_hours_mono off us1 us2 :
  valid_offset off -> (us1 <= us2)%Z ->
  (off + total_seconds us1 / 3600 <=? off + total_seconds us2 / 3600) = true.
Proof.
  intros Ho H. apply add_le_mono_r; [apply valid_offset_finite, Ho|].
  apply div_le_mono_num; [apply pos_finite_3600|]. apply total_seconds_mono, H.
Qed.

Lemma offset_le_elapsed off us :
  valid_offset off -> (0 <= us)%Z -> (off <=? off + total_seconds us / 3600) = true.
Proof.
  intros Ho H. pose proof (valid_offset_finite _ Ho) as F.
  apply (leb_trans _ (off + 0)); [apply add_zero_r, F|].
  exact (elapsed_hours_mono off 0 us Ho H).
Qed.

Lemma compute_bac_spec_antitone t w r f h1 h2 :
  (h1 <=? h2) = true ->
  (compute_bac_spec t w r f h2 <=? compute_bac_spec t w r f h1) = true.
Proof.
  intros H. unfold compute_bac_spec. destruct (Py.le t 0); [reflexivity|].
  apply sub_max_mono_r. change 0.015 with METABOLISM_RATE_PER_HOUR.
  apply mul_le_mono_r; [apply pos_finite_metabolism|exact H].
Qed.

Lemma monitoring_tick_eq now total w r f st start :
  valid_weight w -> valid_r_value r ->
  monitoring_start_time st = Some start ->
  monitoring_tick now total w r f st
  = Some (Ok (compute_bac_spec total w r f
                (first_drink_offset_hours st + total_seconds (now - start) / 3600),
              get_bac_status (compute_bac_spec total w r f
                (first_drink_offset_hours st + total_seconds (now - start) / 3600)))).
Proof.
  intros Hw Hr Hs. unfold monitoring_tick, total_elapsed_hours, time_since_monitor_start.
  rewrite Hs. rewrite calculate_bac_value_returns by assumption. reflexivity.
Qed.

(** X8.  While monitoring runs with the inputs unchanged, the estimate
    shown never goes up and the status never gets worse as the clock
    advances: for two readings of the clock [now1 <= now2], both passes of
    the loop body return, the second BAC is [<=] the first, and so is the
    rank of its status.  The weight and the ratio are in their input
    ranges and the offset is in [[0, 24]]. *)
Theorem monitoring_estimate_nonincreasing total w r f st start now1 now2 :
  valid_weight w -> valid_r_value r ->
  valid_offset (first_drink_offset_hours st) ->
  monitoring_start_time st = Some start ->
  (now1 <= now2)%Z ->
  exists b1 b2,
    monitoring_tick now1 total w r f st = Some (Ok (b1, get_bac_status b1)) /\
    monitoring_tick now2 total w r f st = Some (Ok (b2, get_bac_status b2)) /\
    Py.le b2 b1 = true /\
    (severity_rank (status_severity (get_bac_status b2))
     <= severity_rank (status_severity (get_bac_status b1)))%nat.
Proof.
  intros Hw Hr Ho Hs H.
  rewrite !(monitoring_tick_eq _ _ _ _ _ _ start) by assumption.
  eexists; eexists. split; [reflexivity|]. split; [reflexivity|].
  assert (L : Py.le
    (compute_bac_spec total w r f
       (first_drink_offset_hours st + total_seconds (now2 - start) / 3600))
    (compute_bac_spec total w r f
       (first_drink_offset_hours st + total_seconds (now1 - start) / 3600)) = true).
  { apply compute_bac_spec_antitone, elapsed_hours_mono; [exact Ho|lia]. }
  split; [exact L|]. apply severity_rank_le, L.
Qed.

Lemma monitoring_estimate_nonincreasing_witness :
  exists b1 b2,
    monitoring_tick 3600000000%Z 2 160 MALE_R 1 (on_start 0%Z 0%Z two_drinks)
    = Some (Ok (b1, get_bac_status b1)) /\
    monitoring_tick 7200000000%Z 2 160 MALE_R 1 (on_start 0%Z 0%Z two_drinks)
    = Some (Ok (b2, get_bac_status b2)) /\
    Py.le b2 b1 = true /\
    (severity_rank (status_severity (get_bac_status b2))
     <= severity_rank (status_severity (get_bac_status b1)))%nat.
Proof.
  apply (monitoring_estimate_nonincreasing 2 160 MALE_R 1 (on_start 0%Z 0%Z two_drinks) 0%Z).
  - split; reflexivity.
  - left; reflexivity.
  - split; reflexivity.
  - reflexivity.
  - lia.
Defined.

(** X9.  The estimate shown while monitoring never exceeds the static
    estimate of the idle page for the same inputs: with [start <= now]
    the loop's BAC is [<=] the one computed from the offset alone, and at
    the instant monitoring starts the two are equal as floats. *)
Theorem monitoring_estimate_below_initial total w r f st start now :
  valid_weight w -> valid_r_value r ->
  valid_offset (first_drink_offset_hours st) ->
  monitoring_start_time st = Some start ->
  Py.gt total 0 = true ->
  (start <= now)%Z ->
  exists b0 b,
    idle_snapshot total w r f st = Some (Ok (b0, get_bac_status b0)) /\
    monitoring_tick now total w r f st = Some (Ok (b, get_bac_status b)) /\
    Py.le b b0 = true /\
    (now = start -> Py.le b0 b = true).
Proof.
  intros Hw Hr Ho Hs Ht H.
  rewrite (monitoring_tick_eq _ _ _ _ _ _ start) by assumption.
  unfold idle_snapshot. rewrite Ht. rewrite calculate_bac_value_returns by assumption.
  eexists; eexists. split; [reflexivity|]. split; [reflexivity|]. split.
  - apply compute_bac_spec_antitone, offset_le_elapsed; [exact Ho|lia].
  - intros ->. rewrite Z.sub_diag. apply compute_bac_spec_antitone.
    change (total_seconds 0 / 3600) with 0. apply add_zero_r, valid_offset_finite, Ho.
Qed.

Lemma monitoring_estimate_below_initial_witness :
  exists b0 b,
    idle_snapshot 2 160 MALE_R 1 (on_start 0%Z 0%Z two_drinks)
    = Some (Ok (b0, get_bac_status b0)) /\
    monitoring_tick 1800000000%Z 2 160 MALE_R 1 (on_start 0%Z 0%Z two_drinks)
    = Some (Ok (b, get_bac_status b)) /\
    Py.le b b0 = true /\
    (1800000000%Z = 0%Z -> Py.le b0 b = true).
Proof.
  apply (monitoring_estimate_below_initial 2 160 MALE_R 1 (on_start 0%Z 0%Z two_drinks) 0%Z).
  - split; reflexivity.
  - left; reflexivity.
  - split; reflexivity.
  - reflexivity.
  - reflexivity.
  - lia.
Defined.

(** ** Editing the drink list *)

Lemma edit_drinks_from_spec vol abv_in n : forall i st,
  length (drinks st) = (i + n)%nat ->
  exists st',
    edit_drinks_from i n vol abv_in st = Ok st' /\
    length (drinks st') = length (drinks st) /\
    (forall j, (j < i)%nat -> drinks st' !! j = drinks st !! j) /\
    (forall j, (i <= j < i + n)%nat -> drinks st' !! j = Some (Drink (vol j) (abv_in j))) /\
    start_monitoring st' = start_monitoring st /\
    monitoring_start_time st' = monitoring_start_time st /\
    first_drink_offset_hours st' = first_drink_offset_hours st /\
    last_calculated_bac_time st' = last_calculated_bac_time st.
Proof.
  induction n as [|n IH]; intros i st Hlen.
  - exists st. simpl. repeat split; try reflexivity. intros j Hj. lia.
  - simpl. unfold set_drink_volume.
    destruct (lookup_lt_is_Some_2 (drinks st) i ltac:(lia)) as [d Hd]. rewrite Hd.
    simpl. unfold set_drink_abv. simpl drinks.
    rewrite list_lookup_insert_eq by lia. simpl.
    rewrite list_insert_insert_eq.
    set (st2 := set_drinks (<[i:=Drink (vol i) (abv_in i)]> (drinks st))
                  (set_drinks (<[i:=Drink (vol i) (abv d)]> (drinks st)) st)).
    assert (L2 : length (drinks st2) = length (drinks st)) by apply length_insert.
    destruct (IH (S i) st2 ltac:(lia)) as (st' & E & L & Lo & Hi & F1 & F2 & F3 & F4).
    exists st'. split; [exact E|]. split; [lia|]. split; [|split].
    + intros j Hj. rewrite Lo by lia. simpl. apply list_lookup_insert_ne. lia.
    + intros j Hj. destruct (Nat.eq_dec j i) as [->|Hne].
      * rewrite Lo by lia. simpl. apply list_lookup_insert_eq. lia.
      * apply Hi. lia.
    + repeat split; assumption.
Qed.

(** X10.  The pass over the drink list that stores the widget values
    never raises: the indices come from [enumerate], so every
    [drinks[i]] exists.  Afterwards the list has the same length, drink
    [i] holds exactly the volume and the ABV returned by its two inputs,
    nothing else in the session state has changed, and running the pass
    again with the same widget values changes nothing. *)
Theorem edit_drinks_spec vol abv_in st :
  exists st',
    edit_drinks vol abv_in st = Ok st' /\
    length (drinks st') = length (drinks st) /\
    (forall j, (j < length (drinks st))%nat ->
               drinks st' !! j = Some (Drink (vol j) (abv_in j))) /\
    st' = set_drinks (drinks st') st /\
    edit_drinks vol abv_in st' = Ok st'.
Proof.
  unfold edit_drinks.
  destruct (edit_drinks_from_spec vol abv_in (length (drinks st)) 0 st eq_refl)
    as (st' & E & L & _ & Hi & F1 & F2 & F3 & F4).
  exists st'. split; [exact E|]. split; [exact L|]. split; [intros j Hj; apply Hi; lia|].
  split.
  - destruct st, st'; simpl in *. subst. reflexivity.
  - destruct (edit_drinks_from_spec vol abv_in (length (drinks st')) 0 st' eq_refl)
      as (st'' & E' & L' & _ & Hi' & G1 & G2 & G3 & G4).
    rewrite E'. f_equal.
    assert (drinks st'' = drinks st').
    { apply list_eq. intros j. destruct (Nat.lt_ge_cases j (length (drinks st'))) as [Hj|Hj].
      - rewrite Hi' by lia. rewrite Hi by lia. reflexivity.
      - rewrite !lookup_ge_None_2 by lia. reflexivity. }
    destruct st', st''; simpl in *. subst. reflexivity.
Qed.

(** X11.  Add and remove are inverse at the end of the list:
    [add_drink_callback] appends one drink of volume [0.0] and ABV [0.0]
    and keeps the others in place, and removing the new last index (or
    index [-1]) right after restores the previous session state. *)
Theorem add_then_remove_last st :
  length (drinks (add_drink_callback st)) = S (length (drinks st)) /\
  drinks (add_drink_callback st) !! length (drinks st) = Some (Drink 0 0) /\
  (forall j, (j < length (drinks st))%nat ->
             drinks (add_drink_callback st) !! j = drinks st !! j) /\
  remove_drink_callback (Z.of_nat (length (drinks st))) (add_drink_callback st) = Ok st /\
  remove_drink_callback (-1) (add_drink_callback st) = Ok st.
Proof.
  assert (D : delete (length (drinks st)) (drinks st ++ [Drink 0 0]) = drinks st).
  { rewrite delete_middle. apply app_nil_r. }
  assert (L : length (drinks st ++ [Drink 0 0]) = S (length (drinks st))).
  { rewrite length_app. simpl. lia. }
  split; [exact L|]. split; [apply list_lookup_middle; reflexivity|].
  split; [intros j Hj; simpl; apply lookup_app_l, Hj|].
  unfold remove_drink_callback. simpl drinks. split.
  - destruct (Z.ltb_spec (Z.of_nat (length (drinks st)))
                (Z.of_nat (length (drinks st ++ [Drink 0 0])))); [|lia].
    destruct (list_pop_in_range (drinks st ++ [Drink 0 0]) (Z.of_nat (length (drinks st)))
                ltac:(lia)) as (x & _ & ->).
    simpl. rewrite Nat2Z.id, D. destruct st; reflexivity.
  - destruct (Z.ltb_spec (-1) (Z.of_nat (length (drinks st ++ [Drink 0 0])))); [|lia].
    destruct (list_pop_negative (drinks st ++ [Drink 0 0]) (-1) ltac:(lia)) as (x & _ & ->).
    simpl. rewrite L.
    replace (Z.to_nat (Z.of_nat (S (length (drinks st))) + -1)) with (length (drinks st)) by lia.
    rewrite D. destruct st; reflexivity.
Qed.

(** ** The handlers together *)

Lemma perform_outcome v a st :
  match a with
  | RemoveDrink index =>
      if (index <? - Z.of_nat (length (drinks st)))%Z
      then perform v a st = Raise IndexError else exists st', perform v a st = Ok st'
  | SetVolume i _ | SetAbv i _ =>
      if (length (drinks st) <=? i)%nat
      then perform v a st = Raise IndexError else exists st', perform v a st = Ok st'
  | _ => exists st', perform v a st = Ok st'
  end.
Proof.
  destruct a as [|index|i x|i x|h|now1 now2|]; simpl; eauto.
  - unfold remove_drink_callback.
    destruct (Z.ltb_spec index (- Z.of_nat (length (drinks st)))) as [Hlt|Hge].
    + destruct (Z.ltb_spec index (Z.of_nat (length (drinks st)))); [|lia].
      unfold Py.list_pop. destruct (Z.ltb_spec index 0); [|lia].
      destruct (Z.ltb_spec (index + Z.of_nat (length (drinks st))) 0); [|lia]. reflexivity.
    + destruct (Z.ltb_spec index (Z.of_nat (length (drinks st)))); [|eauto].
      destruct (Z.ltb_spec index 0).
      * destruct (list_pop_negative (drinks st) index ltac:(lia)) as (x & _ & ->).
        simpl. eauto.
      * destruct (list_pop_in_range (drinks st) index ltac:(lia)) as (x & _ & ->).
        simpl. eauto.
  - unfold set_drink_volume. destruct (Nat.leb_spec (length (drinks st)) i).
    + rewrite lookup_ge_None_2 by lia. reflexivity.
    + destruct (lookup_lt_is_Some_2 (drinks st) i ltac:(lia)) as [d ->]. eauto.
  - unfold set_drink_abv. destruct (Nat.leb_spec (length (drinks st)) i).
    + rewrite lookup_ge_None_2 by lia. reflexivity.
    + destruct (lookup_lt_is_Some_2 (drinks st) i ltac:(lia)) as [d ->]. eauto.
Qed.

(** X12.  With a remove index that fits [Py_ssize_t] (for the others
    [list.pop] raises [OverflowError]), the only exception a handler
    can raise is [IndexError], and it is raised in exactly these cases: a
    remove with an index below [-len(drinks)], and an edit of a drink at
    an index [>= len(drinks)].  Adding a drink, setting the offset, Start
    and Stop never raise, and a remove with an index [>= -len(drinks)]
    never does. *)
Theorem perform_raises v a st :
  match a with RemoveDrink index => Py.fits_ssize_t index | _ => True end ->
  (forall e, perform v a st = Raise e -> e = IndexError) /\
  (perform v a st = Raise IndexError <->
   match a with
   | RemoveDrink index => (index < - Z.of_nat (length (drinks st)))%Z
   | SetVolume i _ | SetAbv i _ => (length (drinks st) <= i)%nat
   | _ => False
   end).
Proof.
  intros _. pose proof (perform_outcome v a st) as K.
  split.
  - intros e H. destruct a as [|index|i x|i x|h|now1 now2|];
      repeat match goal with
      | K : context [if ?c then _ else _] |- _ => destruct c
      | K : exists _, _ |- _ => destruct K as [? K]
      end; congruence.
  - destruct a as [|index|i x|i x|h|now1 now2|];
      try (destruct K as [? K]; split; [congruence|tauto]).
    + destruct (Z.ltb_spec index (- Z.of_nat (length (drinks st)))).
      * tauto.
      * destruct K as [? K]. split; [congruence|lia].
    + destruct (Nat.leb_spec (length (drinks st)) i).
      * tauto.
      * destruct K as [? K]. split; [congruence|lia].
    + destruct (Nat.leb_spec (length (drinks st)) i).
      * tauto.
      * destruct K as [? K]. split; [congruence|lia].
Qed.

Lemma perform_raises_witness :
  Py.fits_ssize_t (-3) /\
  perform Before312 (RemoveDrink (-3)) two_drinks = Raise IndexError /\
  perform Before312 (RemoveDrink (-2)) two_drinks <> Raise IndexError.
Proof.
  assert (F : Py.fits_ssize_t (-3)) by (unfold Py.fits_ssize_t; lia).
  assert (F' : Py.fits_ssize_t (-2)) by (unfold Py.fits_ssize_t; lia).
  split; [exact F|]. split.
  - apply (proj2 (perform_raises Before312 (RemoveDrink (-3)) two_drinks F)). simpl. lia.
  - intros E.
    apply (proj2 (perform_raises Before312 (RemoveDrink (-2)) two_drinks F')) in E.
    simpl in E. lia.
Defined.

Lemma set_drinks_same st : set_drinks (drinks st) st = st.
Proof. destruct st; reflexivity. Qed.

(** X13.  Each handler touches its own part of the session state only.
    The drink handlers change nothing but the drink list; setting the
    offset changes nothing but the offset; Start and Stop leave the
    drinks and the offset alone.  Start does nothing at all while
    monitoring is on (the clock is not restarted) or while the total
    alcohol is zero, and Stop does nothing while monitoring is off. *)
Theorem perform_frame v a st st' :
  perform v a st = Ok st' ->
  match a with
  | AddDrink | RemoveDrink _ | SetVolume _ _ | SetAbv _ _ =>
      st' = set_drinks (drinks st') st
  | SetOffset h => st' = set_first_drink_offset_hours h st
  | PressStart now1 now2 =>
      drinks st' = drinks st /\
      first_drink_offset_hours st' = first_drink_offset_hours st /\
      (start_monitoring st = true -> st' = st) /\
      ((total_alcohol_oz v (drinks st) =? 0) = true -> st' = st)
  | PressStop =>
      drinks st' = drinks st /\
      first_drink_offset_hours st' = first_drink_offset_hours st /\
      (start_monitoring st = false -> st' = st)
  end.
Proof.
  destruct a as [|index|i x|i x|h|now1 now2|]; simpl; intros H.
  - injection H as <-. reflexivity.
  - unfold remove_drink_callback in H.
    destruct (index <? _)%Z; [|injection H as <-; symmetry; apply set_drinks_same].
    destruct (Py.list_pop (drinks st) index) as [[x l]|e]; simpl in H; [|discriminate].
    injection H as <-. reflexivity.
  - unfold set_drink_volume in H. destruct (drinks st !! i); [|discriminate].
    injection H as <-. reflexivity.
  - unfold set_drink_abv in H. destruct (drinks st !! i); [|discriminate].
    injection H as <-. reflexivity.
  - injection H as <-. reflexivity.
  - injection H as <-. unfold press_start, start_disabled.
    destruct (total_alcohol_oz v (drinks st) =? 0) eqn:T; simpl.
    + repeat split; reflexivity.
    + destruct (start_monitoring st) eqn:M; repeat split; try reflexivity; discriminate.
  - injection H as <-. unfold press_stop, stop_disabled.
    destruct (start_monitoring st) eqn:M; simpl; repeat split; try reflexivity; discriminate.
Qed.

Lemma perform_frame_witness :
  perform Before312 (PressStart 5%Z 6%Z) (on_start 1%Z 2%Z two_drinks)
  = Ok (on_start 1%Z 2%Z two_drinks) /\
  (start_monitoring (on_start 1%Z 2%Z two_drinks) = true ->
   on_start 1%Z 2%Z two_drinks = on_start 1%Z 2%Z two_drinks).
Proof.
  split; [reflexivity|].
  exact (proj1 (proj2 (proj2
    (perform_frame Before312 (PressStart 5%Z 6%Z) (on_start 1%Z 2%Z two_drinks)
       (on_start 1%Z 2%Z two_drinks) eq_refl)))).
Defined.

Lemma perform_preserves_last_time v a st st' :
  (start_monitoring st = true <-> last_calculated_bac_time st <> None) ->
  perform v a st = Ok st' ->
  (start_monitoring st' = true <-> last_calculated_bac_time st' <> None).
Proof.
  intros I H.
  destruct a as [|index|i x|i x|h|now1 now2|]; simpl in H.
  - injection H as <-. exact I.
  - unfold remove_drink_callback in H.
    destruct (index <? _)%Z; [|injection H as <-; exact I].
    destruct (Py.list_pop (drinks st) index) as [[x l]|e]; simpl in H; [|discriminate].
    injection H as <-. exact I.
  - unfold set_drink_volume in H. destruct (drinks st !! i); [|discriminate].
    injection H as <-. exact I.
  - unfold set_drink_abv in H. destruct (drinks st !! i); [|discriminate].
    injection H as <-. exact I.
  - injection H as <-. exact I.
  - injection H as <-. unfold press_start. destruct (start_disabled v st); [exact I|].
    simpl. split; [discriminate|reflexivity].
  - injection H as <-. unfold press_stop. destruct (stop_disabled st); [exact I|].
    simpl. split; [discriminate|intros C; now elim C].
Qed.

Lemma run_inv v acts : forall st st',
  monitoring_inv st ->
  (start_monitoring st = true <-> last_calculated_bac_time st <> None) ->
  run v acts st = Ok st' ->
  monitoring_inv st' /\
  (start_monitoring st' = true <-> last_calculated_bac_time st' <> None).
Proof.
  induction acts as [|a acts IH]; intros st st' I1 I2 H; simpl in H.
  - injection H as <-. split; assumption.
  - destruct (perform v a st) as [st1|e] eqn:P; simpl in H; [|discriminate].
    apply (IH st1 st'); [| |exact H].
    + exact (perform_preserves_inv v a st st1 I1 P).
    + exact (perform_preserves_last_time v a st st1 I2 P).
Qed.

(** X14.  In every state a session can reach from the initial state,
    whatever the sequence of actions, the three monitoring fields agree:
    [monitoring_start_time] is set exactly when [start_monitoring] is
    true, and so is [last_calculated_bac_time].  Hence the second test of
    the loop guard never fails once the first has passed, and the elapsed
    time can always be computed while monitoring is on. *)
Theorem reachable_state_consistent v acts st :
  run v acts initial_state = Ok st ->
  (start_monitoring st = true <-> monitoring_start_time st <> None) /\
  (start_monitoring st = true <-> last_calculated_bac_time st <> None) /\
  (start_monitoring st = true -> forall now, total_elapsed_hours now st <> None).
Proof.
  intros H.
  destruct (run_inv v acts initial_state st) as [I1 I2]; [| |exact H|].
  - unfold monitoring_inv. simpl. split; [intros C; now elim C|discriminate].
  - simpl. split; [discriminate|intros C; now elim C].
  - unfold monitoring_inv in I1. split; [symmetry; exact I1|]. split; [exact I2|].
    intros M now. apply I1 in M. unfold total_elapsed_hours.
    destruct (monitoring_start_time st); [discriminate|contradiction].
Qed.

Lemma reachable_state_consistent_witness :
  run Before312 [AddDrink; SetVolume 0%nat 12; SetAbv 0%nat 5; PressStart 7%Z 8%Z] initial_state
  = Ok (on_start 7%Z 8%Z (set_drinks [Drink 12 5] initial_state)) /\
  (start_monitoring (on_start 7%Z 8%Z (set_drinks [Drink 12 5] initial_state)) = true <->
   monitoring_start_time (on_start 7%Z 8%Z (set_drinks [Drink 12 5] initial_state)) <> None).
Proof.
  assert (R : run Before312 [AddDrink; SetVolume 0%nat 12; SetAbv 0%nat 5; PressStart 7%Z 8%Z]
                initial_state
              = Ok (on_start 7%Z 8%Z (set_drinks [Drink 12 5] initial_state)))
    by (vm_compute; reflexivity).
  split; [exact R|].
  exact (proj1 (reachable_state_consistent _ _ _ R)).
Defined.

(** ** Total alcohol within the input ranges *)

Lemma pos_finite_100 : pos_finite 100.
Proof. eexists; eexists; vm_compute; reflexivity. Qed.

Lemma abv_fraction_bounds x :
  valid_abv x -> (0 <=? x / 100) = true /\ (x / 100 <=? 1) = true.
Proof.
  intros [L U]. split.
  - change 0 with (0 / 100) at 1. apply div_le_mono_num; [apply pos_finite_100|exact L].
  - change 1 with (100 / 100). apply div_le_mono_num; [apply pos_finite_100|exact U].
Qed.

Lemma alcohol_oz_nonneg d : valid_drink d -> (0 <=? alcohol_oz d) = true.
Proof.
  intros [[Lv Uv] Ha]. destruct (abv_fraction_bounds _ Ha) as [Lf Uf].
  unfold alcohol_oz, Py.le in *.
  exact (proj1 (mul_bounds (volume d) (abv d / 100) 40 1 eq_refl eq_refl Lv Uv Lf Uf)).
Qed.

Lemma mul_one_le x : is_fin (Prim2SF x) = true -> (x * 1 <=? x) = true.
Proof.
  intros F. rewrite leb_spec, mul_spec.
  change (Prim2SF 1) with (S754_finite false 4503599627370496 (-52)).
  pose proof (Prim2SF_valid x) as V.
  pose proof (SFmul_rounds_to _ (S754_finite false 4503599627370496 (-52)) V eq_refl F eq_refl)
    as M.
  pose proof (valid_rounds_to _ V F) as R.
  eapply rounds_to_mono; eauto.
  apply Req_le. simpl SF2R at 2. unfold bpow. simpl. lra.
Qed.

(** X15.  With the volume in [[0, 40]] and the ABV in [[0, 100]], the
    bounds of the two number inputs, the alcohol content
    [volume * (abv / 100)] of a drink is computed without overflow or
    NaN: it lies in [[0, 40]] and never exceeds the volume of the drink. *)
Theorem alcohol_oz_bounds d :
  valid_drink d ->
  Py.le 0 (alcohol_oz d) = true /\ Py.le (alcohol_oz d) 40 = true /\
  Py.le (alcohol_oz d) (volume d) = true.
Proof.
  intros [[Lv Uv] Ha]. destruct (abv_fraction_bounds _ Ha) as [Lf Uf].
  unfold alcohol_oz, Py.le in *.
  destruct (mul_bounds (volume d) (abv d / 100) 40 1 eq_refl eq_refl Lv Uv Lf Uf) as [A B].
  split; [exact A|]. split; [exact B|].
  pose proof (is_fin_between 0 40 (volume d) eq_refl eq_refl Lv Uv) as Fv.
  assert (Rv : (volume d <=? volume d) = true) by (apply (leb_refl_r 0), Lv).
  destruct (mul_bounds (volume d) (abv d / 100) (volume d) 1 Fv eq_refl Lv Rv Lf Uf) as [_ C].
  exact (leb_trans _ _ _ C (mul_one_le _ Fv)).
Qed.

Lemma alcohol_oz_bounds_witness :
  valid_drink (Drink 12 5) /\
  Py.le 0 (alcohol_oz (Drink 12 5)) = true /\
  Py.le (alcohol_oz (Drink 12 5)) 40 = true /\
  Py.le (alcohol_oz (Drink 12 5)) (volume (Drink 12 5)) = true.
Proof.
  assert (V : valid_drink (Drink 12 5)) by (split; split; reflexivity).
  split; [exact V|]. exact (alcohol_oz_bounds (Drink 12 5) V).
Defined.

Lemma py_sum_zeros v xs :
  Forall (fun x => (x =? 0) = true) xs -> py_sum v xs = 0.
Proof.
  intros H. destruct v; unfold py_sum.
  - unfold sum_plain. induction H as [|x xs Hx _ IH]; [reflexivity|].
    cbn [fold_left]. destruct (eqb_zero_cases x Hx) as [-> | ->]; exact IH.
  - unfold sum_compensated. destruct H as [|x xs Hx H]; [reflexivity|].
    assert (E : fold_left neumaier_step xs (0 + x, 0) = (0, 0)).
    { replace (0 + x) with 0 by (destruct (eqb_zero_cases x Hx) as [-> | ->]; reflexivity).
      clear Hx. induction H as [|y ys Hy _ IH]; [reflexivity|].
      cbn [fold_left]. destruct (eqb_zero_cases y Hy) as [-> | ->]; exact IH. }
    rewrite E. reflexivity.
Qed.

Lemma alcohol_oz_zero d :
  valid_drink d -> (volume d =? 0) = true \/ (abv d =? 0) = true ->
  (alcohol_oz d =? 0) = true.
Proof.
  intros [[Lv Uv] Ha] H. destruct (abv_fraction_bounds _ Ha) as [Lf Uf].
  pose proof (is_fin_between 0 40 (volume d) eq_refl eq_refl Lv Uv) as Fv.
  pose proof (is_fin_between 0 1 (abv d / 100) eq_refl eq_refl Lf Uf) as Ff.
  unfold alcohol_oz. rewrite FloatAxioms.eqb_spec, mul_spec, Prim2SF_zero.
  destruct H as [H|H].
  - rewrite FloatAxioms.eqb_spec, Prim2SF_zero in H.
    destruct (Prim2SF (volume d)) as [s|[]| |[] m e]; try discriminate.
    destruct (Prim2SF (abv d / 100)) as [s'|[]| |s' m' e']; try discriminate; reflexivity.
  - destruct (eqb_zero_cases _ H) as [-> | ->];
      [change (Prim2SF (0 / 100)) with (S754_zero false)
      |change (Prim2SF (neg_zero / 100)) with (S754_zero true)];
      destruct (Prim2SF (volume d)) as [s|[]| |s m e]; try discriminate; reflexivity.
Qed.

(** X16.  As long as every drink on the list has a zero volume or a
    zero ABV (the other value within its input bounds), as every drink
    has right after "Add Drink", the total is exactly [0.0] under both
    summation algorithms; the Start button is then disabled, pressing it
    changes nothing, and the idle page shows no estimate. *)
Theorem start_disabled_without_alcohol v st :
  Forall (fun d => valid_drink d /\ ((volume d =? 0) = true \/ (abv d =? 0) = true))
         (drinks st) ->
  total_alcohol_oz v (drinks st) = 0 /\
  start_disabled v st = true /\
  (forall now1 now2, press_start v now1 now2 st = st) /\
  (forall w r f, idle_snapshot (total_alcohol_oz v (drinks st)) w r f st = None).
Proof.
  intros H.
  assert (T : total_alcohol_oz v (drinks st) = 0).
  { unfold total_alcohol_oz. apply py_sum_zeros. apply Forall_map.
    eapply Forall_impl; [|exact H]. intros d [Vd Z]. apply alcohol_oz_zero; assumption. }
  assert (D : start_disabled v st = true) by (unfold start_disabled; rewrite T; reflexivity).
  split; [exact T|]. split; [exact D|]. split.
  - intros. unfold press_start. rewrite D. reflexivity.
  - intros. rewrite T. reflexivity.
Qed.

Lemma start_disabled_without_alcohol_witness :
  total_alcohol_oz From312 (drinks (set_drinks [Drink 0 0; Drink 12 0; Drink 0 5] initial_state))
  = 0 /\
  start_disabled From312 (set_drinks [Drink 0 0; Drink 12 0; Drink 0 5] initial_state) = true.
Proof.
  assert (H : Forall
    (fun d => valid_drink d /\ ((volume d =? 0) = true \/ (abv d =? 0) = true))
    (drinks (set_drinks [Drink 0 0; Drink 12 0; Drink 0 5] initial_state))).
  { simpl. apply Forall_cons; [|apply Forall_cons; [|apply Forall_cons; [|apply Forall_nil]]].
    - split; [split; split; reflexivity|left; reflexivity].
    - split; [split; split; reflexivity|right; reflexivity].
    - split; [split; split; reflexivity|left; reflexivity]. }
  pose proof (start_disabled_without_alcohol From312 _ H) as (T & D & _).
  split; [exact T|exact D].
Defined.

Lemma fold_add_ge xs : forall acc,
  (0 <=? acc) = true -> Forall (fun x => (0 <=? x) = true) xs ->
  (acc <=? fold_left PrimFloat.add xs acc) = true /\
  (forall x, In x xs -> (x <=? fold_left PrimFloat.add xs acc) = true).
Proof.
  induction xs as [|x xs IH]; intros acc Ha H.
  - split; [apply (leb_refl_r 0), Ha|intros x []].
  - inversion H as [|? ? Hx Hxs]; subst. cbn [fold_left].
    destruct (add_nonneg acc x Ha Hx) as [A B].
    destruct (IH (acc + x) (leb_trans _ _ _ Ha A) Hxs) as [C D].
    split; [exact (leb_trans _ _ _ A C)|].
    intros y [->|Hy]; [exact (leb_trans _ _ _ B C)|apply D, Hy].
Qed.

(** X17.  Under the left-to-right sum (CPython before 3.12) and with
    every drink within the input bounds, the total is [>= 0.0], hence
    never NaN, and at least the alcohol content of each single drink.  It
    is positive exactly when some drink has a positive alcohol content,
    which is also exactly when the test [total_alcohol_oz == 0] that
    disables the Start button fails. *)
Theorem total_alcohol_oz_plain_bounds ds :
  Forall valid_drink ds ->
  Py.le 0 (total_alcohol_oz Before312 ds) = true /\
  (forall d, In d ds -> Py.le (alcohol_oz d) (total_alcohol_oz Before312 ds) = true) /\
  (Py.gt (total_alcohol_oz Before312 ds) 0 = true <->
   exists d, In d ds /\ Py.gt (alcohol_oz d) 0 = true) /\
  ((total_alcohol_oz Before312 ds =? 0) = false <->
   exists d, In d ds /\ Py.gt (alcohol_oz d) 0 = true).
Proof.
  intros H. unfold total_alcohol_oz, py_sum, sum_plain, Py.le, Py.gt.
  assert (N : Forall (fun x => (0 <=? x) = true) (map alcohol_oz ds)).
  { apply Forall_map. eapply Forall_impl; [|exact H]. intros d Vd.
    apply (alcohol_oz_nonneg d Vd). }
  destruct (fold_add_ge (map alcohol_oz ds) 0 eq_refl N) as [A B].
  set (total := fold_left PrimFloat.add (map alcohol_oz ds) 0) in *.
  assert (P1 : (exists d, In d ds /\ (0 <? alcohol_oz d) = true) -> (0 <? total) = true).
  { intros (d & Hd & Pd). apply (ltb_leb_trans _ _ _ Pd). apply B, in_map, Hd. }
  assert (P2 : (total =? 0) = false -> exists d, In d ds /\ (0 <? alcohol_oz d) = true).
  { intros T. destruct (Exists_dec (fun d => (0 <? alcohol_oz d) = true) ds) as [E|E].
    - intros d. destruct (0 <? alcohol_oz d); [left; reflexivity|right; discriminate].
    - apply Exists_exists in E. exact E.
    - exfalso. assert (Z : total = 0); [|rewrite Z in T; discriminate].
      apply (py_sum_zeros Before312). apply Forall_map.
      rewrite Forall_forall in H. apply Forall_forall. intros d Hd.
      apply nonneg_not_pos_zero; [apply (alcohol_oz_nonneg d), H, Hd|].
      destruct (0 <? alcohol_oz d) eqn:P; [|reflexivity].
      exfalso. apply E, Exists_exists. eauto. }
  split; [exact A|]. split; [intros d Hd; apply B, in_map, Hd|]. split; split.
  - intros P. apply P2, pos_not_zero, P.
  - exact P1.
  - exact P2.
  - intros E. apply pos_not_zero, P1, E.
Qed.

Lemma total_alcohol_oz_plain_bounds_witness :
  Forall valid_drink [Drink 12 5; Drink 1.5 40] /\
  Py.le 0 (total_alcohol_oz Before312 [Drink 12 5; Drink 1.5 40]) = true.
Proof.
  assert (H : Forall valid_drink [Drink 12 5; Drink 1.5 40]).
  { apply Forall_cons; [split; split; reflexivity|].
    apply Forall_cons; [split; split; reflexivity|apply Forall_nil]. }
  split; [exact H|]. exact (proj1 (total_alcohol_oz_plain_bounds _ H)).
Defined.

(** ** Exact results: remainders and truncation *)

Section Exactness.
Local Open Scope R_scope.

(** Every [k * 2^e0] with [k < 2^53] and [e0] in the exponent range is
    the value of a binary64 float. *)
Lemma representable_float (s : bool) k e0 :
  (Zpos k < 2 ^ 53)%Z -> (-1074 <= e0 <= 971)%Z ->
  exists m e, valid64 (S754_finite s m e) = true /\
              IZR (Zpos m) * bpow e = IZR (Zpos k) * bpow e0.
Proof.
  intros Hk He.
  pose proof (digits2_pos_bounds k) as [B1 B2].
  assert (Hd : (Zpos (digits2_pos k) <= 53)%Z).
  { assert (2 ^ (Zpos (digits2_pos k) - 1) < 2 ^ 53)%Z by lia.
    apply Z.pow_lt_mono_r_iff in H; lia. }
  set (E := Z.max (Zpos (digits2_pos k) + e0 - 53) (-1074)).
  assert (HE : (E <= e0)%Z) by (unfold E; lia).
  destruct (shl_align_spec k e0 E) as (m' & e' & _ & Le & H1 & _ & Hm).
  specialize (H1 HE). subst e'.
  exists m', E. split.
  - simpl. unfold bounded, canonical_mantissa. apply andb_true_iff. split.
    + apply Z.eqb_eq. rewrite fexp64_eq.
      change (Zpos (digits2_pos m')) with (Zdigits2 (Zpos m')).
      rewrite Hm, digits_shift by lia. unfold E. lia.
    + apply Z.leb_le. change (emax - prec)%Z with 971%Z. lia.
  - apply shl_value; assumption.
Qed.

(** Rounding a representable value returns that value. *)
Lemma rounds_to_exact v o f :
  rounds_to v o -> valid64 f = true -> is_fin f = true -> SF2R f = v ->
  valid64 o = true /\ is_fin o = true /\ SF2R o = v.
Proof.
  intros R Vf Ff Hv.
  pose proof (rounds_to_valid _ _ R) as Vo.
  pose proof (valid_rounds_to f Vf Ff) as Rf. rewrite Hv in Rf.
  pose proof (rounds_to_mono _ _ _ _ R Rf (Rle_refl v)) as L1.
  pose proof (rounds_to_mono _ _ _ _ Rf R (Rle_refl v)) as L2.
  assert (Fo : is_fin o = true).
  { destruct o as [so|[]| |so mo eo]; try reflexivity;
      destruct f as [sf|sf| |sf mf ef]; try discriminate; destruct sf; discriminate. }
  split; [exact Vo|]. split; [exact Fo|].
  pose proof (SFleb_SF2R _ _ Vo Vf Fo Ff L1).
  pose proof (SFleb_SF2R _ _ Vf Vo Ff Fo L2).
  lra.
Qed.

Lemma valid_exponent_range s m e :
  valid64 (S754_finite s m e) = true -> (-1074 <= e <= 971)%Z.
Proof. intros V. destruct (valid_finite _ _ _ V). lia. Qed.

(** The remainder of a non-negative finite float by a positive finite
    one is a non-negative float below the divisor. *)
Lemma SFfmod_spec mx ex my ey :
  valid64 (S754_finite false mx ex) = true ->
  valid64 (S754_finite false my ey) = true ->
  let o := Py.SFfmod (S754_finite false mx ex) (S754_finite false my ey) in
  valid64 o = true /\
  (o = S754_zero false \/ exists m e, o = S754_finite false m e) /\
  SF2R o < SF2R (S754_finite false my ey).
Proof.
  intros Vx Vy. cbv zeta. unfold Py.SFfmod.
  pose proof (valid_exponent_range _ _ _ Vx) as Ex.
  pose proof (valid_exponent_range _ _ _ Vy) as Ey.
  destruct (digits_le_53 _ _ Vx) as [Ux _].
  destruct (digits_le_53 _ _ Vy) as [Uy _].
  set (e := Z.min ex ey).
  set (X := (Zpos mx * 2 ^ (ex - e))%Z). set (Y := (Zpos my * 2 ^ (ey - e))%Z).
  assert (HY : (0 < Y)%Z).
  { unfold Y. apply Z.mul_pos_pos; [lia|]. apply Z.pow_pos_nonneg; unfold e; lia. }
  assert (HX : (0 <= X)%Z).
  { unfold X. apply Z.mul_nonneg_nonneg; [lia|]. apply Z.pow_nonneg. lia. }
  pose proof (Z.mod_pos_bound X Y HY) as HR.
  assert (HYv : IZR Y * bpow e = SF2R (S754_finite false my ey)).
  { unfold Y. simpl SF2R. rewrite mult_IZR, <- bpow_IZR by (unfold e; lia).
    rewrite Rmult_assoc, <- bpow_add. f_equal. f_equal. lia. }
  assert (Hpos : 0 < SF2R (S754_finite false my ey)).
  { simpl. apply Rmult_lt_0_compat; [apply IZR_lt; lia|apply bpow_gt_0]. }
  destruct (X mod Y)%Z as [|p|p] eqn:HRm; try lia.
  - split; [reflexivity|]. split; [left; reflexivity|]. simpl SF2R at 1. exact Hpos.
  - assert (Hp : (Zpos p < 2 ^ 53)%Z).
    { destruct (Z.le_ge_cases ex ey) as [Le|Le].
      - assert (X = Zpos mx) by (unfold X, e; rewrite Z.min_l by lia; rewrite Z.sub_diag; lia).
        pose proof (Z.mod_le X Y HX HY). lia.
      - assert (Y = Zpos my) by (unfold Y, e; rewrite Z.min_r by lia; rewrite Z.sub_diag; lia).
        lia. }
    assert (He : (-1074 <= e <= 971)%Z) by (unfold e; lia).
    destruct (representable_float false p e Hp He) as (m' & e' & Vf & Hf).
    pose proof (binary_normalize_rounds_to (Zpos p) e) as R.
    destruct (rounds_to_exact _ _ (S754_finite false m' e') R Vf eq_refl Hf) as (Vo & Fo & Ho).
    unfold cond_Zopp.
    set (o := binary_normalize prec emax (Zpos p) e false) in *.
    assert (Hop : 0 < SF2R o).
    { rewrite Ho. apply Rmult_lt_0_compat; [apply IZR_lt; lia|apply bpow_gt_0]. }
    split; [exact Vo|]. split.
    + right. destruct o as [so|so| |[] mo eo]; try discriminate; simpl in Hop; try lra; eauto.
      exfalso. assert (0 < IZR (Zpos mo) * bpow eo)
        by (apply Rmult_lt_0_compat; [apply IZR_lt; lia|apply bpow_gt_0]). lra.
    + rewrite Ho, <- HYv. apply Rmult_lt_compat_r; [apply bpow_gt_0|]. apply IZR_lt. lia.
Qed.

(** Truncation of a finite non-negative float. *)
Lemma shiftl_floor m e :
  (0 <= Z.shiftl (Zpos m) e)%Z /\
  IZR (Z.shiftl (Zpos m) e) <= IZR (Zpos m) * bpow e.
Proof.
  destruct (Z.le_gt_cases 0 e) as [He|He].
  - rewrite Z.shiftl_mul_pow2 by lia. split.
    + apply Z.mul_nonneg_nonneg; [lia|apply Z.pow_nonneg; lia].
    + rewrite mult_IZR, <- bpow_IZR by lia. lra.
  - rewrite Z.shiftl_div_pow2 by lia.
    assert (P : (0 < 2 ^ (- e))%Z) by (apply Z.pow_pos_nonneg; lia).
    split; [apply Z.div_pos; lia|].
    pose proof (Z.mul_div_le (Zpos m) (2 ^ (- e)) P) as D.
    apply IZR_le in D. rewrite mult_IZR, <- bpow_IZR in D by lia.
    pose proof (bpow_gt_0 e) as Hb. pose proof (bpow_gt_0 (- e)) as Hb'.
    assert (I : bpow (- e) * bpow e = 1).
    { rewrite <- bpow_add. replace (- e + e)%Z with 0%Z by lia. apply bpow_0. }
    assert (IZR (Zpos m / 2 ^ (- e)) = bpow (- e) * IZR (Zpos m / 2 ^ (- e)) * bpow e)
      by (rewrite Rmult_comm, <- Rmult_assoc, (Rmult_comm (bpow e)), I; lra).
    rewrite H. apply Rmult_le_compat_r; lra.
Qed.

End Exactness.

Section Sixty.
Local Open Scope R_scope.

Lemma SF2R_60 : SF2R SF_60 = 60.
Proof.
  simpl SF2R.
  assert (I : bpow (-47) * bpow 47 = 1).
  { rewrite <- bpow_add. apply bpow_0. }
  rewrite (bpow_IZR 47) in I by lia.
  change (2 ^ 47)%Z with 140737488355328%Z in I.
  replace (IZR 8444249301319680) with (60 * IZR 140737488355328)
    by (rewrite <- mult_IZR; reflexivity).
  lra.
Qed.

(** The integer part of a non-negative float below sixty. *)
Lemma int_below_60 m e :
  SF2R (S754_finite false m e) < SF2R SF_60 ->
  (0 <= Z.shiftl (Zpos m) e <= 59)%Z.
Proof.
  rewrite SF2R_60. simpl SF2R. intros H.
  destruct (shiftl_floor m e) as [A B]. split; [exact A|].
  assert (Z.shiftl (Zpos m) e < 60)%Z; [|lia].
  apply lt_IZR. lra.
Qed.

End Sixty.

Lemma is_finite_spec x : PrimFloat.is_finite x = is_fin (Prim2SF x).
Proof.
  unfold PrimFloat.is_finite, PrimFloat.is_nan, PrimFloat.is_infinity.
  rewrite !FloatAxioms.eqb_spec, abs_spec.
  change (Prim2SF infinity) with (S754_infinity false).
  destruct (Prim2SF x) as [s|[]| |s m e]; try reflexivity.
  unfold SFeqb, SFcompare. cbn [SFabs]. rewrite Z.compare_refl.
  change (PosDef.Pos.compare_cont Eq m m) with (Pos.compare m m).
  rewrite Pos.compare_refl. destruct s; reflexivity.
Qed.

Lemma int_of_float_nonneg x :
  (0 <=? x) = true -> is_fin (Prim2SF x) = true ->
  exists n, Py.int_of_float x = Some n /\ (0 <= n)%Z.
Proof.
  rewrite leb_spec, Prim2SF_zero. unfold Py.int_of_float.
  destruct (Prim2SF x) as [s|s| |[] m e]; try discriminate; intros _ _.
  - exists 0%Z. split; [reflexivity|lia].
  - exists (Z.shiftl (Zpos m) e). split; [reflexivity|]. apply shiftl_floor.
Qed.

(** [x % 60] followed by [int]: a value from [0] to [59]. *)
Lemma float_mod_60 x :
  (0 <=? x) = true -> is_fin (Prim2SF x) = true ->
  exists m n,
    Py.float_mod x 60 = Ok m /\ Py.int_of_float m = Some n /\ (0 <= n <= 59)%Z.
Proof.
  intros L F. unfold Py.float_mod.
  change (60 =? 0) with false. cbv iota.
  change (get_sign 60) with false. change (60 <? 0) with false. cbv iota.
  unfold Py.fmod. change (Prim2SF 60) with SF_60.
  rewrite leb_spec, Prim2SF_zero in L.
  pose proof (Prim2SF_valid x) as Vx.
  destruct (Prim2SF x) as [s|s| |[] mx ex]; try discriminate.
  - exists 0, 0%Z.
    change (Py.SFfmod (S754_zero s) SF_60) with (S754_zero s).
    destruct s; (split; [reflexivity|split; [reflexivity|lia]]).
  - destruct (SFfmod_spec mx ex 8444249301319680 (-47) Vx eq_refl) as (Vo & Ho & Hlt).
    set (o := Py.SFfmod (S754_finite false mx ex) SF_60) in *.
    rewrite FloatAxioms.eqb_spec, ltb_spec, Prim2SF_zero, (Prim2SF_SF2Prim o Vo).
    destruct Ho as [Ho|(m & e & Ho)]; rewrite Ho in *.
    + exists 0, 0%Z. split; [reflexivity|split; [reflexivity|lia]].
    + exists (SF2Prim (S754_finite false m e)), (Z.shiftl (Zpos m) e).
      split; [reflexivity|]. split.
      * unfold Py.int_of_float. rewrite (Prim2SF_SF2Prim _ Vo). reflexivity.
      * apply int_below_60, Hlt.
Qed.

Lemma mul_finite_l h c :
  pos_finite c -> is_fin (Prim2SF (h * c)) = true -> is_fin (Prim2SF h) = true.
Proof.
  intros (m & e & Hc). rewrite mul_spec, Hc.
  destruct (Prim2SF h) as [s|s| |s mh eh]; try reflexivity; discriminate.
Qed.

Lemma clock_fields_ok h :
  (0 <=? h) = true -> is_fin (Prim2SF (h * 3600)) = true ->
  exists hours minutes seconds,
    clock_fields h = Some (hours, minutes, seconds) /\
    (0 <= hours)%Z /\ (0 <= minutes <= 59)%Z /\ (0 <= seconds <= 59)%Z.
Proof.
  intros L F.
  pose proof (mul_finite_l h 3600 pos_finite_3600 F) as Fh.
  pose proof (leb_refl_r _ _ L) as Rh.
  destruct (mul_bounds h 60 h 3600 Fh eq_refl L Rh eq_refl eq_refl) as [A60 B60].
  destruct (mul_bounds h 3600 h 3600 Fh eq_refl L Rh eq_refl eq_refl) as [A3600 _].
  pose proof (is_fin_between 0 (h * 3600) (h * 60) eq_refl F A60 B60) as F60.
  destruct (int_of_float_nonneg h L Fh) as (hours & Eh & Hh).
  destruct (float_mod_60 (h * 60) A60 F60) as (m & minutes & Em & Im & Hm).
  destruct (float_mod_60 (h * 3600) A3600 F) as (s & seconds & Es & Is & Hs).
  exists hours, minutes, seconds. unfold clock_fields.
  rewrite Eh, Em, Im, Es, Is. repeat split; lia.
Qed.

(** ** The clock *)

(** The model against the interpreter on a few values. *)
Example clock_fields_examples :
  clock_fields 0 = Some (0, 0, 0)%Z /\
  clock_fields 1.5 = Some (1, 30, 0)%Z /\
  clock_fields 2.2575 = Some (2, 15, 26)%Z /\
  clock_fields 0.1 = Some (0, 6, 0)%Z /\
  Py.float_mod 7.5 2 = Ok 1.5 /\
  Py.float_mod (-7.5) 2 = Ok 0.5 /\
  Py.float_mod 7.5 (-2) = Ok (-0.5) /\
  Py.float_mod 1e300 60 = Ok 0 /\
  Py.float_mod 1e22 60 = Ok 40 /\
  Py.float_mod 5 0 = Raise ZeroDivisionError /\
  Py.int_of_float (-2.7) = Some (-2)%Z /\
  Py.int_of_float infinity = None.
Proof. repeat split; vm_compute; reflexivity. Qed.

Lemma add_comm x y : x + y = y + x.
Proof. apply Prim2SF_inj. rewrite !add_spec. apply SFadd_comm. Qed.

Lemma add_le_mono_l x1 x2 y :
  is_fin (Prim2SF y) = true -> (x1 <=? x2) = true -> (x1 + y <=? x2 + y) = true.
Proof.
  intros F H. rewrite (add_comm x1 y), (add_comm x2 y). apply add_le_mono_r; assumption.
Qed.

Lemma elapsed_hours_bounds off us :
  valid_offset off -> (0 <= us <= max_datetime_span)%Z ->
  (0 <=? off + total_seconds us / 3600) = true /\
  is_fin (Prim2SF ((off + total_seconds us / 3600) * 3600)) = true.
Proof.
  intros Ho Hus. pose proof Ho as [L U].
  pose proof (valid_offset_finite _ Ho) as Fo.
  set (h := off + total_seconds us / 3600).
  assert (L0 : (0 <=? h) = true).
  { apply (leb_trans _ off); [exact L|]. apply offset_le_elapsed; [exact Ho|lia]. }
  split; [exact L0|].
  set (X := total_seconds max_datetime_span / 3600).
  assert (H1 : (h <=? off + X) = true).
  { apply add_le_mono_r; [exact Fo|].
    apply div_le_mono_num; [apply pos_finite_3600|]. apply total_seconds_mono. lia. }
  assert (H2 : (off + X <=? 24 + X) = true).
  { apply add_le_mono_l; [vm_compute; reflexivity|exact U]. }
  pose proof (leb_trans _ _ _ H1 H2) as H3.
  apply (is_fin_between 0 ((24 + X) * 3600)).
  - reflexivity.
  - vm_compute. reflexivity.
  - change 0 with (0 * 3600) at 1. apply mul_le_mono_l; [apply pos_finite_3600|exact L0].
  - apply mul_le_mono_l; [apply pos_finite_3600|exact H3].
Qed.

(** X18.  The three numbers of the clock, [int(h)], [int((h * 60) % 60)]
    and [int((h * 3600) % 60)], are computed without an exception for
    every [h >= 0.0] whose product [h * 3600] is finite; the hours are
    not negative, and the minutes and the seconds lie between 0 and 59.
    This is the case for the elapsed hours of the monitoring loop at
    every instant from the start of monitoring on, the offset being in
    [[0, 24]]. *)
Theorem clock_fields_range :
  (forall h,
     Py.le 0 h = true -> PrimFloat.is_finite (h * 3600) = true ->
     exists hours minutes seconds,
       clock_fields h = Some (hours, minutes, seconds) /\
       (0 <= hours)%Z /\ (0 <= minutes <= 59)%Z /\ (0 <= seconds <= 59)%Z) /\
  (forall st start now,
     valid_offset (first_drink_offset_hours st) ->
     monitoring_start_time st = Some start ->
     (start <= now)%Z -> (now - start <= max_datetime_span)%Z ->
     exists h hours minutes seconds,
       total_elapsed_hours now st = Some h /\
       clock_fields h = Some (hours, minutes, seconds) /\
       (0 <= hours)%Z /\ (0 <= minutes <= 59)%Z /\ (0 <= seconds <= 59)%Z).
Proof.
  split.
  - intros h L F. rewrite is_finite_spec in F. apply clock_fields_ok; assumption.
  - intros st start now Ho Hs H1 H2.
    unfold total_elapsed_hours, time_since_monitor_start. rewrite Hs.
    destruct (elapsed_hours_bounds (first_drink_offset_hours st) (now - start) Ho
                ltac:(lia)) as [L F].
    destruct (clock_fields_ok _ L F) as (hh & mm & ss & E & R).
    eexists; exists hh, mm, ss. split; [reflexivity|]. split; [exact E|exact R].
Qed.

(** ** The page as a whole *)

(** X19.  Whatever the two radio buttons return, the ratio computed at
    line 69 is [0.73] or [0.66] and the food factor computed at line 86 is
    [1.0], [0.8] or [0.5].  With a weight within the bounds of its input,
    every call of [calculate_bac_value] the script makes therefore
    returns, with a result [>= 0.0]: the division by zero cannot occur. *)
Theorem sidebar_inputs_valid gender food :
  valid_r_value (r_of_gender gender) /\
  valid_food_factor (food_factor_of food) /\
  (forall total weight_lbs hours,
     valid_weight weight_lbs ->
     exists bac,
       calculate_bac_value total weight_lbs (r_of_gender gender) (food_factor_of food) hours
       = Ok bac /\ Py.ge bac 0 = true).
Proof.
  assert (Hr : valid_r_value (r_of_gender gender)).
  { unfold r_of_gender. destruct (String.eqb gender "Male"); [left|right]; reflexivity. }
  split; [exact Hr|]. split.
  - unfold food_factor_of, valid_food_factor.
    destruct (String.eqb food "Empty Stomach"); [auto|].
    destruct (String.eqb food "Light Meal"); auto.
  - intros total w h Hw. eexists. split.
    + apply calculate_bac_value_returns; assumption.
    + apply compute_bac_spec_nonneg.
Qed.

Lemma gauge_value_bounds bac :
  (0 <=? bac) = true ->
  exists g, gauge_value bac = Ok g /\ (0 <=? g) = true /\ (g <=? 1) = true.
Proof.
  intros H. exists (Py.min (bac / 0.20) 1). split; [reflexivity|].
  assert (Q : (0 <=? bac / 0.20) = true).
  { change 0 with (0 / 0.20) at 1.
    apply div_le_mono_num; [apply pos_finite_gauge_max|exact H]. }
  split; [|apply min_one_le, (leb_refl_r _ _ Q)].
  unfold Py.min, Py.lt. destruct (1 <? bac / 0.20); [reflexivity|exact Q].
Qed.

(** X20.  With the weight, the ratio and the offset within their
    input ranges, and the clock not before the start of monitoring, one
    run of the display code never ends in an exception, in any session
    state.  In monitoring mode the BAC shown is [>= 0.0], the gauge value
    is in [[0.0, 1.0]] and the clock shows minutes and seconds between 0
    and 59; otherwise the static estimate is shown exactly when the total
    alcohol is positive, and it is [>= 0.0]. *)
Theorem render_never_fails now total w r f st :
  valid_weight w -> valid_r_value r ->
  valid_offset (first_drink_offset_hours st) ->
  (forall start, monitoring_start_time st = Some start ->
                 (start <= now <= start + max_datetime_span)%Z) ->
  exists p,
    render now total w r f st = Some p /\
    match p with
    | Monitoring view =>
        start_monitoring st = true /\
        Py.ge (view_bac view) 0 = true /\
        Py.le 0 (view_gauge view) = true /\ Py.le (view_gauge view) 1 = true /\
        (let '(hours, minutes, seconds) := view_clock view in
         (0 <= hours)%Z /\ (0 <= minutes <= 59)%Z /\ (0 <= seconds <= 59)%Z)
    | Idle (Some (bac, _, _)) => Py.gt total 0 = true /\ Py.ge bac 0 = true
    | Idle None => Py.gt total 0 = false
    end.
Proof.
  intros Hw Hr Ho Hspan. unfold render.
  destruct (start_monitoring st) eqn:M; cbn [andb];
    [destruct (monitoring_start_time st) as [start|] eqn:Hs|].
  - specialize (Hspan start eq_refl).
    unfold total_elapsed_hours, time_since_monitor_start. rewrite Hs.
    set (hours := first_drink_offset_hours st + total_seconds (now - start) / 3600).
    rewrite (calculate_bac_value_returns total w r f hours Hw Hr).
    destruct (compute_bac_spec_nonneg total w r f hours) as [N _].
    destruct (gauge_value_bounds _ N) as (g & -> & G0 & G1).
    destruct (elapsed_hours_bounds (first_drink_offset_hours st) (now - start) Ho
                ltac:(lia)) as [L F].
    destruct (clock_fields_ok hours L F) as (hh & mm & ss & -> & R).
    eexists. split; [reflexivity|]. cbn. repeat split; try assumption; lia.
  - destruct (Py.gt total 0) eqn:T.
    + rewrite (calculate_bac_value_returns total w r f _ Hw Hr).
      eexists. split; [reflexivity|]. split; [reflexivity|].
      apply compute_bac_spec_nonneg.
    + eexists. split; [reflexivity|]. reflexivity.
  - destruct (Py.gt total 0) eqn:T.
    + rewrite (calculate_bac_value_returns total w r f _ Hw Hr).
      eexists. split; [reflexivity|]. split; [reflexivity|].
      apply compute_bac_spec_nonneg.
    + eexists. split; [reflexivity|]. reflexivity.
Qed.

Lemma render_never_fails_witness :
  exists p,
    render 3600000000%Z 2 160 MALE_R 1 (on_start 0%Z 0%Z two_drinks) = Some p.
Proof.
  destruct (render_never_fails 3600000000%Z 2 160 MALE_R 1 (on_start 0%Z 0%Z two_drinks))
    as (p & E & _).
  - split; reflexivity.
  - left; reflexivity.
  - split; reflexivity.
  - intros start [= <-]. unfold max_datetime_span. lia.
  - exists p. exact E.
Defined.

(** ** The estimate across the choices of the sidebar *)

Lemma not_le_zero_cases t :
  (t <=? 0) = false -> (0 <? t) = true \/ Prim2SF t = S754_nan.
Proof.
  rewrite leb_spec, ltb_spec, Prim2SF_zero.
  destruct (Prim2SF t) as [s|[]| |[] m e]; try discriminate; auto.
Qed.

Lemma is_nan_Prim2SF t : PrimFloat.is_nan t = true -> Prim2SF t = S754_nan.
Proof.
  unfold PrimFloat.is_nan. rewrite FloatAxioms.eqb_spec.
  destruct (Prim2SF t) as [s|[]| |s m e]; try reflexivity; try discriminate.
  unfold SFeqb, SFcompare. rewrite Z.compare_refl.
  change (PosDef.Pos.compare_cont Eq m m) with (Pos.compare m m).
  rewrite Pos.compare_refl. destruct s; discriminate.
Qed.

Lemma compute_bac_spec_nan t w r f h :
  Prim2SF t = S754_nan -> compute_bac_spec t w r f h = 0.
Proof.
  intros H. unfold compute_bac_spec, Py.le. rewrite leb_spec, H, Prim2SF_zero.
  change (SFleb S754_nan (S754_zero false)) with false. cbv iota.
  apply Prim2SF_inj. rewrite max_zero_spec, sub_spec, mul_spec, div_spec, mul_spec, H.
  reflexivity.
Qed.

Lemma numerator_nonneg t : (0 <? t) = true -> (0 <=? t * 5.14) = true.
Proof.
  intros H. change 5.14 with WIDMARK_FACTOR. change 0 with (0 * WIDMARK_FACTOR) at 1.
  apply mul_le_mono_l; [apply pos_finite_widmark|].
  rewrite leb_spec. rewrite ltb_spec in H. apply SFltb_SFleb, H.
Qed.

Lemma div_nonneg a d : (0 <=? a) = true -> pos_finite d -> (0 <=? a / d) = true.
Proof.
  intros Ha Hd. apply (leb_trans _ (0 / d)).
  - destruct Hd as (m & e & Hd). rewrite leb_spec, div_spec, Prim2SF_zero, Hd. reflexivity.
  - apply div_le_mono_num; assumption.
Qed.

(** Multiplying a non-negative float, [+inf] included, by a larger
    positive factor does not give less. *)
Lemma mul_nonneg_le_mono q y1 y2 :
  (0 <=? q) = true -> pos_finite y1 -> pos_finite y2 -> (y1 <=? y2) = true ->
  (q * y1 <=? q * y2) = true.
Proof.
  intros Hq (m1 & e1 & H1) (m2 & e2 & H2) H.
  pose proof (Prim2SF_valid q) as Vq.
  pose proof (valid_of_Prim2SF _ _ H1) as V1. pose proof (valid_of_Prim2SF _ _ H2) as V2.
  rewrite leb_spec in *. rewrite !mul_spec. rewrite Prim2SF_zero in Hq. rewrite H1, H2 in *.
  destruct (Prim2SF q) as [s|[]| |[] m e]; try discriminate; try reflexivity.
  apply SFmul_mono_r; assumption.
Qed.

Lemma weight_pos_finite w : valid_weight w -> pos_finite w.
Proof.
  intros [L U]. apply (pos_finite_between 50 500); try assumption;
    eexists; eexists; vm_compute; reflexivity.
Qed.

(** X21.  With the same total alcohol, weight, food factor and
    elapsed hours, the estimate for "Female" ([r = 0.66]) is never below
    the estimate for "Male" ([r = 0.73]); both calls return.  This holds
    for every float total; for a total that is [<= 0] or NaN both
    estimates are [0.0]. *)
Theorem estimate_by_gender total w f h :
  valid_weight w -> valid_food_factor f ->
  exists b_male b_female,
    calculate_bac_value total w (r_of_gender "Male") f h = Ok b_male /\
    calculate_bac_value total w (r_of_gender "Female") f h = Ok b_female /\
    Py.le b_male b_female = true /\
    (Py.le total 0 = true \/ PrimFloat.is_nan total = true ->
     b_male = 0 /\ b_female = 0).
Proof.
  intros Hw Hf.
  change (r_of_gender "Male") with MALE_R. change (r_of_gender "Female") with FEMALE_R.
  assert (Hm : valid_r_value MALE_R) by (left; reflexivity).
  assert (Hfe : valid_r_value FEMALE_R) by (right; reflexivity).
  rewrite !calculate_bac_value_returns by assumption.
  eexists; eexists. split; [reflexivity|]. split; [reflexivity|].
  split.
  2: { intros [L|N].
       - unfold compute_bac_spec. rewrite L. split; reflexivity.
       - apply is_nan_Prim2SF in N. rewrite !compute_bac_spec_nan by exact N.
         split; reflexivity. }
  unfold Py.le. destruct (Py.le total 0) eqn:T.
  { unfold compute_bac_spec. rewrite T. reflexivity. }
  destruct (not_le_zero_cases total T) as [P|N].
  2: { rewrite !compute_bac_spec_nan by exact N. reflexivity. }
  unfold compute_bac_spec. rewrite T.
  apply sub_max_mono_l.
  apply mul_le_mono_l; [apply pos_finite_food, Hf|].
  apply div_le_anti_den.
  - apply numerator_nonneg, P.
  - apply divisor_pos_finite; assumption.
  - apply divisor_pos_finite; assumption.
  - apply mul_le_mono_r; [apply weight_pos_finite, Hw|reflexivity].
Qed.

Lemma estimate_by_gender_witness :
  exists b_male b_female,
    calculate_bac_value 2 160 (r_of_gender "Male") 1 1 = Ok b_male /\
    calculate_bac_value 2 160 (r_of_gender "Female") 1 1 = Ok b_female /\
    Py.le b_male b_female = true /\
    (Py.le 2 0 = true \/ PrimFloat.is_nan 2 = true ->
     b_male = 0 /\ b_female = 0).
Proof.
  apply (estimate_by_gender 2 160 1 1).
  - split; reflexivity.
  - left; reflexivity.
Defined.

(** X22.  With the same total alcohol, weight, ratio and elapsed
    hours, more food never raises the estimate: the value for "Heavy
    Meal" ([0.5]) is [<=] the value for "Light Meal" ([0.8]), which is
    [<=] the value for "Empty Stomach" ([1.0]); all three calls return. *)
Theorem estimate_by_food total w r h :
  valid_weight w -> valid_r_value r ->
  exists b_empty b_light b_heavy,
    calculate_bac_value total w r (food_factor_of "Empty Stomach") h = Ok b_empty /\
    calculate_bac_value total w r (food_factor_of "Light Meal") h = Ok b_light /\
    calculate_bac_value total w r (food_factor_of "Heavy Meal") h = Ok b_heavy /\
    Py.le b_heavy b_light = true /\ Py.le b_light b_empty = true.
Proof.
  intros Hw Hr.
  change (food_factor_of "Empty Stomach") with 1.
  change (food_factor_of "Light Meal") with 0.8.
  change (food_factor_of "Heavy Meal") with 0.5.
  rewrite !calculate_bac_value_returns by assumption.
  eexists; eexists; eexists.
  split; [reflexivity|]. split; [reflexivity|]. split; [reflexivity|].
  unfold Py.le. destruct (Py.le total 0) eqn:T.
  { unfold compute_bac_spec. rewrite T. split; reflexivity. }
  destruct (not_le_zero_cases total T) as [P|N].
  2: { rewrite !compute_bac_spec_nan by exact N. split; reflexivity. }
  unfold compute_bac_spec. rewrite T.
  assert (Q : (0 <=? total * 5.14 / (w * r)) = true).
  { apply div_nonneg; [apply numerator_nonneg, P|apply divisor_pos_finite; assumption]. }
  split; apply sub_max_mono_l, mul_nonneg_le_mono; try exact Q; try reflexivity;
    eexists; eexists; vm_compute; reflexivity.
Qed.

Lemma estimate_by_food_witness :
  exists b_empty b_light b_heavy,
    calculate_bac_value 2 160 MALE_R (food_factor_of "Empty Stomach") 1 = Ok b_empty /\
    calculate_bac_value 2 160 MALE_R (food_factor_of "Light Meal") 1 = Ok b_light /\
    calculate_bac_value 2 160 MALE_R (food_factor_of "Heavy Meal") 1 = Ok b_heavy /\
    Py.le b_heavy b_light = true /\ Py.le b_light b_empty = true.
Proof.
  apply (estimate_by_food 2 160 MALE_R 1).
  - split; reflexivity.
  - left; reflexivity.
Defined.
